(** * NNGT connectivity generators: a shallow embedding

    The development follows [src/nngt/generation/graph_connectivity.py].
    Python integers are [Z]; a finite Python/NumPy float is the rational
    number it denotes ([Q]): comparisons and absolute values are exact on
    such values.  The sizes of [gen_edr] are computed in double
    precision, every operation rounded to the nearest double; the two
    divisions of [erdos_renyi] and the arithmetic on arrays are taken
    without rounding.  Exceptions are an error result, the NumPy random
    generator is a pair of tapes read through a cursor, and the
    graph-tool objects the module manipulates are vertex counts with edge
    lists. *)

From Stdlib Require Import ZArith QArith Qround Qabs Lia Lqa List Bool.
From stdpp Require Import base list gmap strings.

Open Scope Z_scope.

(** ** Python runtime: exceptions and results *)

Module Py.

(** Exception classes.  The first group is raised by the interpreter,
    NumPy and graph-tool; [InvalidParameter] and [InvalidInput] are the
    classes the specification names. *)
Inductive exn : Type :=
| NameError (name : string)
| KeyError (key : string)
| TypeError
| ValueError
| IndexError
| ZeroDivisionError
| OverflowError
| RuntimeError
| InvalidParameter
| InvalidInput.

Inductive result (A : Type) : Type :=
| Ok (a : A)
| Raise (e : exn).
Arguments Ok {A} a.
Arguments Raise {A} e.

(** What a call can observe and change outside its arguments: the
    random generator (two tapes and a read position), the categories of
    the warnings handed to the [warnings] module so far (the
    floating-point [RuntimeWarning]s of NumPy are not recorded), and
    which NumPy is installed: releases 1.8 to 1.11 accept a float as an
    array dimension, truncate it and issue a [DeprecationWarning];
    later releases raise [TypeError]. *)
Record World : Type := {
  tape_int : N -> Z;
  tape_real : N -> Q;
  cursor : N;
  warnings_log : list string;
  float_dimensions : bool
}.

(** A world whose tapes start with the given values (zero after them),
    in which no warning has been issued, with the NumPy given. *)
Definition world_of (ints : list Z) (reals : list Q) (numpy_1_11 : bool)
  : World :=
  {| tape_int := fun i => nth (N.to_nat i) ints 0;
     tape_real := fun i => nth (N.to_nat i) reals 0%Q;
     cursor := 0%N;
     warnings_log := [];
     float_dimensions := numpy_1_11 |}.

(** The world after [k] draws. *)
Definition advance (k : N) (w : World) : World :=
  {| tape_int := tape_int w; tape_real := tape_real w;
     cursor := (cursor w + k)%N; warnings_log := warnings_log w;
     float_dimensions := float_dimensions w |}.

Definition M (A : Type) : Type := World -> result (A * World).

Definition ret {A} (a : A) : M A := fun w => Ok (a, w).

Definition bind {A B} (m : M A) (k : A -> M B) : M B :=
  fun w => match m w with
           | Ok (a, w') => k a w'
           | Raise e => Raise e
           end.

Definition raise {A} (e : exn) : M A := fun _ => Raise e.

Definition lift {A} (r : result A) : M A :=
  fun w => match r with Ok a => Ok (a, w) | Raise e => Raise e end.

(** Outcome of a call, the final world dropped. *)
Definition eval {A} (m : M A) (w : World) : result A :=
  match m w with Ok (a, _) => Ok a | Raise e => Raise e end.

(** Python values found in the property dictionaries: Python's own
    numbers and strings.  NumPy scalars, whose arithmetic does not
    raise on a division by zero, are not among them. *)
Inductive value : Type :=
| PyInt (n : Z)
| PyFloat (x : Q)
| PyBool (b : bool)
| PyStr (s : string).

(** [d[key]] *)
Definition getitem (d : gmap string value) (key : string) : result value :=
  match d !! key with
  | Some v => Ok v
  | None => Raise (KeyError key)
  end.

(** A dictionary entry used as a number. *)
Definition as_float (v : value) : result Q :=
  match v with
  | PyInt n => Ok (inject_Z n)
  | PyFloat x => Ok x
  | PyBool b => Ok (inject_Z (if b then 1 else 0))
  | PyStr _ => Raise TypeError
  end.

Definition as_int (v : value) : result Z :=
  match v with
  | PyInt n => Ok n
  | PyBool b => Ok (if b then 1 else 0)
  | PyFloat _ | PyStr _ => Raise TypeError
  end.

(** Truth value of an object in an [if]. *)
Definition truthy (v : value) : bool :=
  match v with
  | PyInt n => negb (n =? 0)
  | PyFloat x => negb (Qeq_bool x 0)
  | PyBool b => b
  | PyStr s => negb (String.eqb s "")
  end.

(** A global name of the module, bound or not when the call runs. *)
Definition load_global {A} (name : string) (binding : option A)
  : result A :=
  match binding with
  | Some x => Ok x
  | None => Raise (NameError name)
  end.

(** [x / y] on Python floats. *)
Definition truediv (x y : Q) : result Q :=
  if Qeq_bool y 0 then Raise ZeroDivisionError else Ok (x / y)%Q.

(** [x > y] on floats. *)
Definition float_gt (x y : Q) : bool := negb (Qle_bool x y).

(** [int(x)]: truncation towards zero. *)
Definition int_of_float (x : Q) : Z := Z.quot (Qnum x) (Z.pos (Qden x)).

(** *** Double precision *)

(** [2 ^ e], for any integer [e]. *)
Definition pow2 (e : Z) : Q := Qpower 2 e.

(** The integer nearest to [x], the even one of two equally near. *)
Definition round_half_even (x : Q) : Z :=
  let n := Qfloor x in
  match (x - inject_Z n ?= 1 # 2)%Q with
  | Lt => n
  | Gt => n + 1
  | Eq => if Z.even n then n else n + 1
  end.

(** The doubles around [x > 0] are the multiples of [2 ^ e] for the
    [e] that is 52 below the binary exponent of [x], and -1074 in the
    subnormal range. *)
Definition ulp_exponent (x : Q) : Z :=
  let e := Z.log2 (Qnum x) - Z.log2 (Z.pos (Qden x)) - 52 in
  let e := if Qle_bool (pow2 (e + 52)) x then e else e - 1 in
  Z.max e (-1074).

(** The result of an operation whose exact value is [x]: the nearest
    double, ties going to the even significand.  A result of
    magnitude [2 ^ 1024] or more stands for the infinity the operation
    yields; see [is_inf]. *)
Definition nearest_double (x : Q) : Q :=
  if Qeq_bool x 0 then 0%Q
  else
    let e := ulp_exponent (Qabs x) in
    let m := round_half_even (Qabs x / pow2 e) in
    Qred (inject_Z (Z.sgn (Qnum x) * m) * pow2 e).

Definition is_inf (x : Q) : bool := Qle_bool (pow2 1024) (Qabs x).

(** [float(n)], and the conversion of an int operand of a float
    operation: [OverflowError] beyond the range of the doubles. *)
Definition float_of_int (n : Z) : result Q :=
  let x := nearest_double (inject_Z n) in
  if is_inf x then Raise OverflowError else Ok x.

(** [x / y] and [x * y] on floats, rounded. *)
Definition float_truediv (x y : Q) : result Q :=
  if Qeq_bool y 0 then Raise ZeroDivisionError
  else Ok (nearest_double (x / y)).

Definition float_mul (x y : Q) : Q := nearest_double (x * y).

(** [n / y] and [x * n] for an int [n] and a float. *)
Definition int_truediv_float (n : Z) (y : Q) : result Q :=
  match float_of_int n with
  | Ok x => float_truediv x y
  | Raise e => Raise e
  end.

Definition float_mul_int (x : Q) (n : Z) : result Q :=
  match float_of_int n with
  | Ok y => Ok (float_mul x y)
  | Raise e => Raise e
  end.

End Py.
Export Py.

#[global] Instance result_ret : MRet result := @Py.Ok.
#[global] Instance result_bind : MBind result :=
  fun A B k r => match r with Ok a => k a | Raise e => Raise e end.
#[global] Instance M_ret : MRet M := @Py.ret.
#[global] Instance M_bind : MBind M := fun A B k m => Py.bind m k.

(** ** NumPy: random draws and arrays *)

Module Np.

(** One raw integer off the tape. *)
Definition next_int : M Z :=
  fun w => Ok (tape_int w (cursor w), advance 1 w).

(** One raw real off the tape. *)
Definition next_real : M Q :=
  fun w => Ok (tape_real w (cursor w), advance 1 w).

Fixpoint replicateM {A} (n : nat) (m : M A) : M (list A) :=
  match n with
  | O => ret []
  | S n' => x ← m; xs ← replicateM n' m; ret (x :: xs)
  end.

(** [np.random.randint(low, high, size)], [size] an integer: [size]
    values of [low, high).  [ValueError] for an empty range or a
    negative size. *)
Definition randint (low high size : Z) : M (list Z) :=
  if (high <=? low) || (size <? 0) then raise ValueError
  else replicateM (Z.to_nat size)
         (r ← next_int; ret (low + r mod (high - low))).

(** Rows of a two-column array out of its values in row-major order. *)
Fixpoint rows2 (l : list Z) : list (list Z) :=
  match l with
  | a :: b :: l' => [a; b] :: rows2 l'
  | _ => []
  end.

(** [np.random.randint(low, high, (k, 2))] *)
Definition randint2 (low high k : Z) : M (list (list Z)) :=
  if (high <=? low) || (k <? 0) then raise ValueError
  else l ← randint low high (2 * k); ret (rows2 l).

(** [np.random.uniform(0, 1, size)]: values of [0, 1). *)
Definition uniform01 (size : Z) : M (list Q) :=
  if size <? 0 then raise ValueError
  else replicateM (Z.to_nat size)
         (r ← next_real; ret (r - inject_Z (Qfloor r))%Q).

(** [a[idx]] with an integer index array: [IndexError] out of bounds
    (negative indices count from the end). *)
Definition item {A} (a : list A) (i : Z) : result A :=
  let n := Z.of_nat (length a) in
  let j := if i <? 0 then i + n else i in
  if (j <? 0) || (n <=? j) then Raise IndexError
  else match a !! Z.to_nat j with
       | Some x => Ok x
       | None => Raise IndexError
       end.

Fixpoint take_items {A} (a : list A) (idx : list Z) : result (list A) :=
  match idx with
  | [] => Ok []
  | i :: idx' =>
      match item a i with
      | Raise e => Raise e
      | Ok x => match take_items a idx' with
                | Raise e => Raise e
                | Ok xs => Ok (x :: xs)
                end
      end
  end.

(** Transpose of a two-row array: one row per column. *)
Definition transpose2 (r0 r1 : list Z) : list (list Z) :=
  zip_with (λ a b, [a; b]) r0 r1.

(** [a[mask]] for a boolean mask. *)
Fixpoint compress {A} (mask : list bool) (a : list A) : list A :=
  match mask, a with
  | m :: mask', x :: a' =>
      if m then x :: compress mask' a' else compress mask' a'
  | _, _ => []
  end.

(** [a[:n]] *)
Definition upto {A} (n : Z) (a : list A) : list A :=
  if n <? 0 then take (length a - Z.to_nat (- n)) a
  else take (Z.to_nat n) a.

(** [np.count_nonzero] and [np.sum] of a boolean array. *)
Definition count_nonzero (mask : list bool) : Z :=
  Z.of_nat (length (filter (λ b, b = true) mask)).

(** Entries of a [float64] array: a finite value, an infinity or
    not-a-number.  Array arithmetic never raises: a division by zero
    yields an infinity or NaN.  The sign of a zero is not tracked. *)
Inductive float64 : Type :=
| Fin (x : Q)
| Inf (negative : bool)
| NaN.

Definition is_neg (x : Q) : bool := Qnum x <? 0.

Definition fopp (a : float64) : float64 :=
  match a with
  | Fin x => Fin (- x)
  | Inf s => Inf (negb s)
  | NaN => NaN
  end.

Definition fadd (a b : float64) : float64 :=
  match a, b with
  | Fin x, Fin y => Fin (x + y)
  | Fin _, Inf s | Inf s, Fin _ => Inf s
  | Inf s, Inf t => if Bool.eqb s t then Inf s else NaN
  | _, _ => NaN
  end.

Definition fsub (a b : float64) : float64 := fadd a (fopp b).

Definition fmul (a b : float64) : float64 :=
  match a, b with
  | Fin x, Fin y => Fin (x * y)
  | Fin x, Inf s | Inf s, Fin x =>
      if Qeq_bool x 0 then NaN else Inf (xorb s (is_neg x))
  | Inf s, Inf t => Inf (xorb s t)
  | _, _ => NaN
  end.

Definition fdiv (a b : float64) : float64 :=
  match a, b with
  | Fin x, Fin y =>
      if Qeq_bool y 0
      then (if Qeq_bool x 0 then NaN else Inf (is_neg x))
      else Fin (x / y)
  | Fin _, Inf _ => Fin 0
  | Inf s, Fin y => Inf (xorb s (is_neg y))
  | _, _ => NaN
  end.

(** [x <= y], false as soon as a NaN is involved. *)
Definition fle (a b : float64) : bool :=
  match a, b with
  | Fin x, Fin y => Qle_bool x y
  | Fin _, Inf s => negb s
  | Inf s, Fin _ => s
  | Inf s, Inf t => s || negb t
  | _, _ => false
  end.

Definition is_nan (a : float64) : bool :=
  match a with NaN => true | _ => false end.

(** [a.max()] and [a.min()]: NaN as soon as one entry is, [ValueError]
    on an empty array. *)
Definition fmax2 (a b : float64) : float64 :=
  if is_nan a || is_nan b then NaN else if fle a b then b else a.
Definition fmin2 (a b : float64) : float64 :=
  if is_nan a || is_nan b then NaN else if fle a b then a else b.

Definition amax (a : list float64) : result float64 :=
  match a with
  | [] => Raise ValueError
  | x :: a' => Ok (foldl fmax2 x a')
  end.
Definition amin (a : list float64) : result float64 :=
  match a with
  | [] => Raise ValueError
  | x :: a' => Ok (foldl fmin2 x a')
  end.

(** The transcendental functions on finite arguments are those of the
    platform's mathematical library; they are not interpreted. *)
Record libm : Type := {
  libm_log10 : Q -> Q;      (* on positive arguments *)
  libm_exp : Q -> float64;  (* may overflow to an infinity *)
  libm_log_10 : Q           (* [np.log(10)] *)
}.

Definition log10 (m : libm) (a : float64) : float64 :=
  match a with
  | Fin x => if Qeq_bool x 0 then Inf true
             else if is_neg x then NaN else Fin (libm_log10 m x)
  | Inf s => if s then NaN else Inf false
  | NaN => NaN
  end.

Definition exp (m : libm) (a : float64) : float64 :=
  match a with
  | Fin x => libm_exp m x
  | Inf s => if s then Fin 0 else Inf false
  | NaN => NaN
  end.

(** [np.sqrt] of a finite double that is not negative: the double
    nearest to the square root.  [s] is the integer part of twice the
    root scaled to 53 bits. *)
Definition sqrt (x : Q) : Q :=
  if Qle_bool x 0 then 0%Q
  else
    let e := (Z.log2 (Qnum x) - Z.log2 (Z.pos (Qden x)) - 105) / 2 in
    let e := if Qle_bool (pow2 (2 * e + 106)) x then e + 1 else e in
    let s := Z.sqrt (Qfloor (4 * (x / pow2 (2 * e)))) in
    Qred (inject_Z ((s + 1) / 2) * pow2 e).

End Np.

(** ** graph-tool: the part of the library the generators call *)

Module Gt.

(** Property arrays attached to vertices or edges. *)
Inductive property : Type :=
| IntArray (a : list Z)
| DoubleArray (a : list Np.float64)
| VectorArray (a : list (Q * Q)).

(** A graph: vertices are [0 .. num_vertices - 1], edges are kept in
    insertion order as (source, target). *)
Record Graph : Type := {
  is_directed : bool;
  num_vertices : Z;
  edge_list : list (Z * Z);
  vertex_properties : gmap string property;
  edge_properties : gmap string property
}.

(** [Graph(directed=d)]: no vertex, no edge. *)
Definition Graph_new (d : bool) : Graph :=
  {| is_directed := d; num_vertices := 0; edge_list := [];
     vertex_properties := ∅; edge_properties := ∅ |}.

Definition num_edges (g : Graph) : Z := Z.of_nat (length (edge_list g)).

Definition with_edges (g : Graph) (n : Z) (es : list (Z * Z)) : Graph :=
  {| is_directed := is_directed g; num_vertices := n; edge_list := es;
     vertex_properties := vertex_properties g;
     edge_properties := edge_properties g |}.

(** One edge; vertices the edge refers to and that do not exist yet
    are created. *)
Definition add_edge (g : Graph) (s t : Z) : Graph :=
  with_edges g (Z.max (num_vertices g) (Z.max s t + 1))
             (edge_list g ++ [(s, t)]).

(** [g.add_edge_list(a)] for a two-dimensional array [a], given by its
    rows: each row is one edge, its first two entries the source and
    the target; a second dimension shorter than two is refused. *)
Fixpoint add_edge_list (g : Graph) (a : list (list Z)) : result Graph :=
  match a with
  | [] => Ok g
  | (s :: t :: _) :: a' => add_edge_list (add_edge g s t) a'
  | _ :: _ => Raise RuntimeError
  end.

(** [remove_self_loops(g)] *)
Definition remove_self_loops (g : Graph) : Graph :=
  with_edges g (num_vertices g)
             (filter (λ e : Z * Z, e.1 ≠ e.2) (edge_list g)).

(** Two edges are parallel when they join the same vertices, in the
    same direction if the graph is directed. *)
Definition parallel (d : bool) (e1 e2 : Z * Z) : Prop :=
  e1 = e2 ∨ (d = false ∧ e1 = (e2.2, e2.1)).

#[global] Instance parallel_dec d e1 e2 : Decision (parallel d e1 e2).
Proof. unfold parallel. apply _. Defined.

(** Keep the first edge of each class of parallel edges. *)
Fixpoint first_of_parallel (d : bool) (seen l : list (Z * Z))
  : list (Z * Z) :=
  match l with
  | [] => []
  | e :: l' =>
      if decide (Exists (parallel d e) seen)
      then first_of_parallel d seen l'
      else e :: first_of_parallel d (e :: seen) l'
  end.

(** [remove_parallel_edges(g)] *)
Definition remove_parallel_edges (g : Graph) : Graph :=
  with_edges g (num_vertices g)
             (first_of_parallel (is_directed g) [] (edge_list g)).

(** [g.reindex_edges()] renumbers the edge indices; the edges and
    their order stay. *)
Definition reindex_edges (g : Graph) : Graph := g.

(** [g.set_directed(d)] *)
Definition set_directed (g : Graph) (d : bool) : Graph :=
  {| is_directed := d; num_vertices := num_vertices g;
     edge_list := edge_list g;
     vertex_properties := vertex_properties g;
     edge_properties := edge_properties g |}.

(** Sparse adjacency matrix in coordinate form. *)
Record coo_matrix : Type := { row : list Z; col : list Z }.

Definition entry_le (p q : Z * Z) : bool :=
  (p.1 <? q.1) || ((p.1 =? q.1) && (p.2 <=? q.2)).

Fixpoint coo_insert (p : Z * Z) (l : list (Z * Z)) : list (Z * Z) :=
  match l with
  | [] => [p]
  | q :: l' =>
      if decide (p = q) then l
      else if entry_le p q then p :: l
      else q :: coo_insert p l'
  end.

(** [adjacency(g).tocoo()]: the entry for an edge s -> t sits at row t,
    column s (both ways round for an undirected graph); going through
    the compressed-row form leaves the entries sorted by row, then
    column, parallel edges merged into one entry. *)
Definition adjacency (g : Graph) : coo_matrix :=
  let entries :=
    flat_map (λ e : Z * Z,
                if is_directed g then [(e.2, e.1)]
                else [(e.2, e.1); (e.1, e.2)]) (edge_list g) in
  let sorted := foldr coo_insert [] entries in
  {| row := sorted.*1; col := sorted.*2 |}.

(** Total degree of a vertex: in-degree plus out-degree. *)
Definition total_degree (g : Graph) (v : Z) : nat :=
  length (filter (λ e : Z * Z, e.1 = v) (edge_list g))
  + length (filter (λ e : Z * Z, e.2 = v) (edge_list g)).

Definition vertices (g : Graph) : list Z :=
  seqZ 0 (num_vertices g).

(** [find_vertex(g, g.degree_property_map("total"), k)] *)
Definition find_vertex_total_degree (g : Graph) (k : nat) : list Z :=
  filter (λ v, total_degree g v = k) (vertices g).

(** New index of vertex [v] once the vertices [vs] are gone: the
    surviving vertices keep their order and close ranks. *)
Definition new_index (vs : list Z) (v : Z) : Z :=
  Z.of_nat (length (filter (λ u, u ∉ vs) (seqZ 0 v))).

Definition select_property (keep : list bool) (p : property) : property :=
  match p with
  | IntArray a => IntArray (Np.compress keep a)
  | DoubleArray a => DoubleArray (Np.compress keep a)
  | VectorArray a => VectorArray (Np.compress keep a)
  end.

(** [g.remove_vertex(vs)] for a list of vertices: the vertices and the
    edges at them are removed, the remaining vertices are renumbered
    in order, and the property arrays follow. *)
Definition remove_vertex (g : Graph) (vs : list Z) : Graph :=
  let keep_v := (λ v, bool_decide (v ∉ vs)) <$> vertices g in
  let keep_e :=
    (λ e : Z * Z, bool_decide ((e.1 ∉ vs) ∧ (e.2 ∉ vs))) <$> edge_list g in
  {| is_directed := is_directed g;
     num_vertices :=
       Z.of_nat (length (filter (λ v, v ∉ vs) (vertices g)));
     edge_list :=
       (λ e : Z * Z, (new_index vs e.1, new_index vs e.2))
         <$> Np.compress keep_e (edge_list g);
     vertex_properties := select_property keep_v <$> vertex_properties g;
     edge_properties := select_property keep_e <$> edge_properties g |}.

End Gt.
Export Gt.

(** ** The generators *)

Definition n_MAXTESTS : Z := 10000.

Module Generation.

(** [np.random.seed()]: the generator is re-seeded from the system;
    the tapes stand for what it yields from there on. *)
Definition seed : M unit := mret ().

(** [warnings.warn] as NumPy calls it. *)
Definition warn (category : string) : M unit :=
  fun w => Ok ((), {| tape_int := tape_int w; tape_real := tape_real w;
                      cursor := cursor w;
                      warnings_log := warnings_log w ++ [category];
                      float_dimensions := float_dimensions w |}).

(** A number used as a dimension of a requested array.  A float is
    truncated, with a [DeprecationWarning], or refused, depending on
    the NumPy installed. *)
Definition dimension (v : value) : M Z :=
  match v with
  | PyInt n => mret n
  | PyBool b => mret (if b then 1 else 0)
  | PyFloat x =>
      fun w =>
        if float_dimensions w
        then (_ ← warn "DeprecationWarning"; mret (int_of_float x)) w
        else Raise TypeError
  | PyStr _ => raise TypeError
  end.

(** [a - n] and [n != a] for a Python number [a] and an int [n]. *)
Definition sub_int (a : value) (n : Z) : value :=
  match a with
  | PyInt m => PyInt (m - n)
  | PyBool b => PyInt ((if b then 1 else 0) - n)
  | PyFloat x => PyFloat (x - inject_Z n)
  | PyStr s => PyStr s
  end.

Definition ne_int (n : Z) (a : value) : bool :=
  match a with
  | PyInt m => negb (n =? m)
  | PyBool b => negb (n =? (if b then 1 else 0))
  | PyFloat x => negb (Qeq_bool (inject_Z n) x)
  | PyStr _ => true
  end.

(** [np.random.randint(low, high, (k, 2))] for a number [k] as the
    caller computed it: the range is checked first, the shape after. *)
Definition randint_pairs (low high : Z) (k : value) : M (list (list Z)) :=
  if high <=? low then raise ValueError
  else k ← dimension k; Np.randint2 low high k.

(** Local variables of [erdos_renyi] when its loops are left. *)
Record er_locals : Type := {
  graph_er : Graph;
  num_test : Z;
  num_current_edges : Z;
  pre_recip_edges : value;
  er_edges : Z
}.

Section ErdosRenyi.

(** [_compute_edges] is defined outside the module's file; it is
    taken as given. *)
Variable _compute_edges : Z -> Q -> Z -> Q -> result Z.

(** Lines 70-77: the first sampling loop.  [fuel] only bounds the
    recursion; the loop guard is the source's. *)
Fixpoint er_sample (fuel : nat) (nodes : Z) (pre : value)
    (multigraph : bool) (g : Graph) (num_test num_current : Z)
  : M (Graph * Z * Z) :=
  match fuel with
  | O => mret (g, num_test, num_current)
  | S fuel' =>
      if ne_int num_current pre && (num_test <? n_MAXTESTS) then
        ia_edges ← randint_pairs 0 nodes (sub_int pre num_current);
        g ← lift (add_edge_list g ia_edges);
        let g := remove_self_loops g in
        let g := if multigraph then g else remove_parallel_edges g in
        er_sample fuel' nodes pre multigraph g (num_test + 1) (num_edges g)
      else mret (g, num_test, num_current)
  end.

(** Lines 80-88: the reciprocal loop.  The adjacency matrix is the
    one taken before the loop; the two index arrays are stacked as
    the two rows of [ia_edges]. *)
Fixpoint er_reciprocate (fuel : nat) (coo_adjacency : coo_matrix)
    (edges : Z) (multigraph : bool) (g : Graph)
    (num_test num_current : Z) : M (Graph * Z * Z) :=
  match fuel with
  | O => mret (g, num_test, num_current)
  | S fuel' =>
      if negb (num_current =? edges) && (num_test <? n_MAXTESTS) then
        ia_indices ← Np.randint 0 num_current (edges - num_current);
        c ← lift (Np.take_items (col coo_adjacency) ia_indices);
        r ← lift (Np.take_items (row coo_adjacency) ia_indices);
        let ia_edges := [c; r] in
        g ← lift (add_edge_list g ia_edges);
        let g := remove_self_loops g in
        let g := if multigraph then g else remove_parallel_edges g in
        er_reciprocate fuel' coo_adjacency edges multigraph g
                       (num_test + 1) (num_edges g)
      else mret (g, num_test, num_current)
  end.

(** Lines 57-88 of [erdos_renyi]. *)
Definition erdos_renyi_loops (nodes : Z) (density : Q) (edges : Z)
    (avg_deg : Q) (reciprocity : Q) (directed multigraph : bool)
  : M er_locals :=
  _ ← seed;
  edges ← lift (_compute_edges nodes density edges avg_deg);
  '(edges, pre_recip_edges) ←
    (if negb directed then
       mret (int_of_float (inject_Z edges / 2), PyInt edges)
     else if float_gt reciprocity 0 then
       frac_recip ← lift (truediv reciprocity (2 - reciprocity));
       pre ← lift (truediv (inject_Z edges) (1 + frac_recip));
       mret (edges, PyFloat pre)
     else mret (edges, PyInt edges));
  let graph_er := Graph_new directed in
  '(g, num_test, num_current_edges) ←
    er_sample (Z.to_nat n_MAXTESTS) nodes pre_recip_edges multigraph
              graph_er 0 0;
  '(g, num_test, num_current_edges) ←
    (if directed && float_gt reciprocity 0 then
       let coo_adjacency := adjacency g in
       er_reciprocate (Z.to_nat n_MAXTESTS) coo_adjacency edges
                      multigraph g num_test num_current_edges
     else mret (g, num_test, num_current_edges));
  mret {| graph_er := g; num_test := num_test;
          num_current_edges := num_current_edges;
          pre_recip_edges := pre_recip_edges; er_edges := edges |}.

Definition erdos_renyi (nodes : Z) (density : Q) (edges : Z)
    (avg_deg : Q) (reciprocity : Q) (directed multigraph : bool)
  : M Graph :=
  st ← erdos_renyi_loops nodes density edges avg_deg reciprocity
                         directed multigraph;
  mret (reindex_edges (graph_er st)).

End ErdosRenyi.

(** Names the functions read from the module's global scope without
    the file binding them: what they are bound to, if anything, when
    a call runs.  [betweenness] maps a graph to its per-edge
    betweenness array; [rScaleInhib] is the name line 337 reads, line
    334 having bound [rScaleinHib]. *)
Record module_globals : Type := {
  global_dicProperties : option (gmap string value);
  global_betweenness : option (Graph -> list Q);
  global_rScaleInhib : option Q
}.

(** The module as the file defines it: it binds its imports,
    [n_MAXTESTS], its own functions and [dicGenWeights]. *)
Definition graph_connectivity : module_globals :=
  {| global_dicProperties := None; global_betweenness := None;
     global_rScaleInhib := None |}.

(** [d[key]] used as a number. *)
Definition number (d : gmap string value) (key : string) : M Q :=
  lift (v ← getitem d key; as_float v).

(** [np.random.normal(loc, scale, size)] *)
Definition normal (loc scale : Q) (size : Z) : M (list Q) :=
  if Np.is_neg scale || (size <? 0) then raise ValueError
  else Np.replicateM (Z.to_nat size)
         (z ← Np.next_real; mret (loc + scale * z)%Q).

(** [np.random.lognormal(mean, sigma, size)] *)
Definition lognormal (m : Np.libm) (mean sigma : Q) (size : Z)
  : M (list Np.float64) :=
  if Np.is_neg sigma || (size <? 0) then raise ValueError
  else Np.replicateM (Z.to_nat size)
         (z ← Np.next_real; mret (Np.exp m (Np.Fin (mean + sigma * z)%Q))).

(** [np.absolute] *)
Definition absolute (a : Np.float64) : Np.float64 :=
  match a with
  | Np.Fin x => Np.Fin (Qabs x)
  | Np.Inf _ => Np.Inf false
  | Np.NaN => Np.NaN
  end.

Section Weights.

Variable globals : module_globals.
Variable m : Np.libm.

Definition gaussian_weights (graph : Graph)
    (dicProperties : gmap string value) (nEdges nExc : Z)
  : M (list Np.float64) :=
  rMeanExc ← number dicProperties "MeanExc";
  rMeanInhib ← number dicProperties "MeanInhib";
  rVarExc ← number dicProperties "VarExc";
  rVarInhib ← number dicProperties "VarInhib";
  lstWeightsExc ← normal rMeanExc rVarExc nExc;
  lstWeightsInhib ← normal rMeanInhib rVarInhib (nEdges - nExc);
  mret ((absolute <$> (Np.Fin <$> lstWeightsExc))
          ++ (absolute <$> (Np.Fin <$> lstWeightsInhib))).

Definition lognormal_weights (graph : Graph)
    (dicProperties : gmap string value) (nEdges nExc : Z)
  : M (list Np.float64) :=
  rScaleExc ← number dicProperties "ScaleExc";
  rLocationExc ← number dicProperties "LocationExc";
  rScaleinHib ← number dicProperties "ScaleInhib";
  rLocationInhib ← number dicProperties "LocationInhib";
  lstWeightsExc ← lognormal m rLocationExc rScaleExc nExc;
  rScaleInhib ← lift (load_global "rScaleInhib"
                                  (global_rScaleInhib globals));
  lstWeightsInhib ← lognormal m rLocationInhib rScaleInhib (nEdges - nExc);
  mret ((absolute <$> lstWeightsExc) ++ (absolute <$> lstWeightsInhib)).

Definition betweenness_correlated_weights (graph : Graph)
    (dicProperties : gmap string value) (nEdges nExc : Z)
  : M (list Np.float64) :=
  _ ← (if nEdges <? 0 then raise ValueError else mret ());
  rMin ← number dicProperties "Min";
  rMax ← number dicProperties "Max";
  betweenness ← lift (load_global "betweenness"
                                  (global_betweenness globals));
  let arrBetw := Np.Fin <$> betweenness graph in
  let arrLogBetw := Np.log10 m <$> arrBetw in
  rMaxLogBetw ← lift (Np.amax arrLogBetw);
  rMinLogBetw ← lift (Np.amin arrLogBetw);
  let arrLogBetw :=
    (λ x, Np.fadd (Np.Fin (-5))
            (Np.fdiv (Np.fmul (Np.Fin 2) (Np.fsub x rMinLogBetw))
                     (Np.fsub rMaxLogBetw rMinLogBetw)))
      <$> arrLogBetw in
  let arrBetw :=
    (λ x, Np.exp m (Np.fmul (Np.Fin (Np.libm_log_10 m)) x))
      <$> arrLogBetw in
  rMaxBetw ← lift (Np.amax arrBetw);
  rMinBetw ← lift (Np.amin arrBetw);
  mret ((λ x, Np.fadd (Np.fmul (Np.fsub x rMinBetw)
                               (Np.fdiv (Np.Fin rMax) rMaxBetw))
                      (Np.Fin rMin))
          <$> arrBetw).

Definition degree_correlated_weights (graph : Graph)
    (dicProperties : gmap string value) (nEdges nExc : Z)
  : M (list Np.float64) :=
  if nEdges <? 0 then raise ValueError
  else mret (replicate (Z.to_nat nEdges) (Np.Fin 1)).

Definition dicGenWeights (name : string)
  : option (Graph -> gmap string value -> Z -> Z -> M (list Np.float64)) :=
  if String.eqb name "Gaussian" then Some gaussian_weights
  else if String.eqb name "Lognormal" then Some lognormal_weights
  else if String.eqb name "Betweenness"
       then Some betweenness_correlated_weights
  else if String.eqb name "Degree" then Some degree_correlated_weights
  else None.

(** Lines 301-312 (the same text as lines 219-230): edge types, then
    weights if asked for.  [edge_types] is the array handed to
    [new_edge_property]: twice the excitatory flag, minus one. *)
Definition edge_types (rInhibFrac : Q) (lstTypesGen : list Q) : list Z :=
  let lstIsExcitatory := (λ u, float_gt u rInhibFrac) <$> lstTypesGen in
  (λ b : bool, 2 * (if b then 1 else 0) - 1) <$> lstIsExcitatory.

Definition set_edge_property (g : Graph) (name : string) (p : property)
  : Graph :=
  {| is_directed := is_directed g; num_vertices := num_vertices g;
     edge_list := edge_list g;
     vertex_properties := vertex_properties g;
     edge_properties := <[name := p]> (edge_properties g) |}.

(** Lines 301-307. *)
Definition label_edges (g : Graph) (dicProperties : gmap string value)
    (nEdges : Z) : M (Graph * Z) :=
  rInhibFrac ← number dicProperties "InhibFrac";
  lstTypesGen ← Np.uniform01 nEdges;
  let lstIsExcitatory := (λ u, float_gt u rInhibFrac) <$> lstTypesGen in
  let nExc := Np.count_nonzero lstIsExcitatory in
  let epropType := IntArray (edge_types rInhibFrac lstTypesGen) in
  mret (set_edge_property g "type" epropType, nExc).

(** Lines 309-312. *)
Definition weigh_edges (g : Graph) (dicProperties : gmap string value)
    (nEdges nExc : Z) : M Graph :=
  weighted ← lift (getitem dicProperties "Weighted");
  if truthy weighted then
    distribution ← lift (getitem dicProperties "Distribution");
    generate ← lift (match distribution with
                     | PyStr name =>
                         match dicGenWeights name with
                         | Some f => Ok f
                         | None => Raise (KeyError name)
                         end
                     | _ => Raise (KeyError "")
                     end);
    lstWeights ← generate g dicProperties nEdges nExc;
    mret (set_edge_property g "weight" (DoubleArray lstWeights))
  else mret g.

Definition decorate (g : Graph) (dicProperties : gmap string value)
    (nEdges : Z) : M Graph :=
  '(g, nExc) ← label_edges g dicProperties nEdges;
  weigh_edges g dicProperties nEdges nExc.

End Weights.

(** What the floating-point geometry of [gen_edr] yields for given
    sizes, parameters and coordinate draws: the positions, the edges
    of the radius-0 geometric graph (coincident points), the batch
    size of line 273 as a function of the missing edges, and the
    distance factor of lines 276-277 for a pair of vertices.  These
    are float computations through [sqrt], [exp] and the norm; their
    results enter the model as finite values. *)
Record geometry : Type := {
  lstPos : list (Q * Q);
  geometric_edges : list (Z * Z);
  nTests_for : Z -> result Z;
  lstDist_at : Z -> Z -> Q
}.

(** Local variables of [gen_edr] when its loop is left. *)
Record edr_locals : Type := {
  graphEDR : Graph;
  numTest : Z;
  nEdgesTot : Z;
  numDesiredEdges : Z;
  edr_properties : gmap string value
}.

Section Edr.

Variable globals : module_globals.
Variable m : Np.libm.
(** Positions and distances from the node count, [Rho], [Lambda]
    and the two coordinate draws. *)
Variable place : Z -> Q -> Q -> list Q -> list Q -> geometry.

(** Lines 242-259: node count, edge count and density out of the
    two that are given; the third is written back.  [int()] raises
    [OverflowError] on an infinity and [ValueError] on the NaN that
    the square root of a negative quotient is. *)
Definition edr_sizes (dicProperties : gmap string value)
  : result (Z * Z * Q * gmap string value) :=
  if decide (is_Some (dicProperties !! "Nodes")) then
    nNodes ← (v ← getitem dicProperties "Nodes"; as_int v);
    if decide (is_Some (dicProperties !! "Edges")) then
      nEdges ← (v ← getitem dicProperties "Edges"; as_int v);
      y ← float_of_int (nNodes ^ 2);
      rDens ← int_truediv_float nEdges y;
      mret (nNodes, nEdges, rDens,
            <["Density" := PyFloat rDens]> dicProperties)
    else
      rDens ← (v ← getitem dicProperties "Density"; as_float v);
      p ← float_mul_int rDens (nNodes ^ 2);
      if is_inf p then Raise OverflowError
      else
        let nEdges := Qfloor p in
        mret (nNodes, nEdges, rDens,
              <["Edges" := PyInt nEdges]> dicProperties)
  else
    nEdges ← (v ← getitem dicProperties "Edges"; as_int v);
    rDens ← (v ← getitem dicProperties "Density"; as_float v);
    q ← int_truediv_float nEdges rDens;
    if Np.is_neg q then Raise ValueError
    else if is_inf q then Raise OverflowError
    else
      let nNodes := Qfloor (Np.sqrt q) in
      mret (nNodes, nEdges, rDens,
            <["Nodes" := PyInt nNodes]> dicProperties).

(** Lines 273-292: one round of candidate sampling. *)
Definition edr_round (geo : geometry) (nNodes numDesiredEdges : Z)
    (g : Graph) (nEdgesTot : Z) : M Graph :=
  nTests ← lift (nTests_for geo (numDesiredEdges - nEdgesTot));
  lstVertSrc ← Np.randint 0 nNodes nTests;
  lstVertDest ← Np.randint 0 nNodes nTests;
  let lstDist := zip_with (lstDist_at geo) lstVertSrc lstVertDest in
  lstCreateEdge ← Np.uniform01 nTests;
  let lstCreateEdge := zip_with float_gt lstDist lstCreateEdge in
  let nEdges := Np.count_nonzero lstCreateEdge in
  let lstEdges :=
    if numDesiredEdges <? nEdges + nEdgesTot then
      let nEdges := numDesiredEdges - nEdgesTot in
      let lstVertSrc :=
        Np.upto nEdges (Np.compress lstCreateEdge lstVertSrc) in
      let lstVertDest :=
        Np.upto nEdges (Np.compress lstCreateEdge lstVertDest) in
      (lstVertSrc, lstVertDest)
    else
      (Np.compress lstCreateEdge lstVertSrc,
       Np.compress lstCreateEdge lstVertDest) in
  g ← lift (add_edge_list g (Np.transpose2 lstEdges.1 lstEdges.2));
  let g := remove_self_loops g in
  let g := remove_parallel_edges g in
  mret g.

(** Lines 272-293: the candidate-sampling loop.  [fuel] only bounds
    the recursion; the loop guard is the source's. *)
Fixpoint edr_sample (fuel : nat) (geo : geometry)
    (nNodes numDesiredEdges : Z) (g : Graph) (nEdgesTot numTest : Z)
  : M (Graph * Z * Z) :=
  match fuel with
  | O => mret (g, nEdgesTot, numTest)
  | S fuel' =>
      if (nEdgesTot <? numDesiredEdges) && (numTest <? n_MAXTESTS) then
        g ← edr_round geo nNodes numDesiredEdges g nEdgesTot;
        edr_sample fuel' geo nNodes numDesiredEdges g
                   (num_edges g) (numTest + 1)
      else mret (g, nEdgesTot, numTest)
  end.

(** Lines 238-293 of [gen_edr].  The side length of line 260 is the
    square root of [q]: when it is a NaN or an infinity,
    [np.random.uniform] refuses the range at line 263 (NumPy
    releases that do not check the range are left out).
    [int()] raises [OverflowError] at line 265 on an infinity. *)
Definition gen_edr_loop (dicProperties : gmap string value)
  : M edr_locals :=
  _ ← seed;
  rRho2D ← number dicProperties "Rho";
  rLambda ← number dicProperties "Lambda";
  '(nNodes, nEdges, rDens, dicProperties) ← lift (edr_sizes dicProperties);
  q ← lift (int_truediv_float nNodes rRho2D);
  _ ← (if Np.is_neg q || is_inf q then raise OverflowError else mret ());
  xs ← Np.uniform01 nNodes;
  ys ← Np.uniform01 nNodes;
  let geo := place nNodes rRho2D rLambda xs ys in
  p ← lift (float_mul_int rDens (nNodes ^ 2));
  _ ← (if is_inf p then raise OverflowError else mret ());
  let numDesiredEdges := int_of_float p in
  let graphEDR :=
    {| is_directed := false; num_vertices := nNodes;
       edge_list := geometric_edges geo;
       vertex_properties := ∅; edge_properties := ∅ |} in
  let graphEDR := set_directed graphEDR true in
  let graphEDR :=
    {| is_directed := is_directed graphEDR;
       num_vertices := num_vertices graphEDR;
       edge_list := edge_list graphEDR;
       vertex_properties :=
         <["pos" := VectorArray (lstPos geo)]>
           (vertex_properties graphEDR);
       edge_properties := edge_properties graphEDR |} in
  let nEdgesTot := num_edges graphEDR in
  '(g, nEdgesTot, numTest) ←
    edr_sample (Z.to_nat n_MAXTESTS) geo nNodes numDesiredEdges
               graphEDR nEdgesTot 0;
  mret {| graphEDR := g; numTest := numTest; nEdgesTot := nEdgesTot;
          numDesiredEdges := numDesiredEdges;
          edr_properties := dicProperties |}.

(** Lines 294-296 (and 212-214): the vertices of total degree 0 are
    looked up and removed. *)
Definition prune_isolated (g : Graph) : Graph :=
  let lstIsolatedVert := find_vertex_total_degree g 0 in
  reindex_edges (remove_vertex g lstIsolatedVert).

(** Lines 294-313.  The density of line 299 is not used afterwards:
    of that division only the [ZeroDivisionError] matters. *)
Definition gen_edr_finish (st : edr_locals) : M Graph :=
  let g := prune_isolated (graphEDR st) in
  let nNodes := num_vertices g in
  let nEdges := num_edges g in
  rDens ← lift (truediv (inject_Z nEdges) (inject_Z (nNodes ^ 2)));
  decorate globals m g (edr_properties st) nEdges.

Definition gen_edr (dicProperties : gmap string value) : M Graph :=
  st ← gen_edr_loop dicProperties;
  gen_edr_finish st.

End Edr.

Section FreeScale.

Variable globals : module_globals.
Variable _compute_edges : Z -> Q -> Z -> Q -> result Z.
(** Lines 147-231, entered with the values computed so far. *)
Variable lines_147_231 :
  Graph -> gmap string value -> Z -> Q -> Q -> Q -> Z -> Q -> M Graph.

(** [random_free_scale], lines 128-146 spelled out, for a name
    [dicProperties] that is unbound or bound to a dictionary of Python
    numbers. *)
Definition random_free_scale (nodes : Z) (density : Q) (edges : Z)
    (avg_deg : Q) (reciprocity : Q) (in_exp out_exp : Q)
    (directed multigraph : bool) : M Graph :=
  _ ← seed;
  edges ← lift (_compute_edges nodes density edges avg_deg);
  let edges :=
    if negb directed then int_of_float (inject_Z edges / 2) else edges in
  let graphFS := Graph_new true in
  dicProperties ← lift (load_global "dicProperties"
                                    (global_dicProperties globals));
  f ← number dicProperties "Reciprocity";
  rFracRecip ← lift (truediv f (2 - f));
  rInDeg ← number dicProperties "InDeg";
  rOutDeg ← number dicProperties "OutDeg";
  let nNodes := 0 in
  let nEdges := 0 in
  let rDens := 0%Q in
  nArcs ← (if Qeq_bool (1 + rFracRecip) 0 then raise ValueError
           else mret (int_of_float
                        (inject_Z (Qfloor (rDens * inject_Z (nNodes ^ 2)))
                         / (1 + rFracRecip))));
  Ai ← lift (truediv (inject_Z nArcs * (rInDeg - 1)) (inject_Z nNodes));
  lines_147_231 graphFS dicProperties edges rFracRecip rInDeg rOutDeg
                nArcs Ai.

End FreeScale.

End Generation.
Export Generation.

(** ** The [Graph] class of [nngt/core/graph_classes.py]

    The two methods below stand on their own once the objects they
    hand their work to are given: the graph-library object behind
    [self._graph], the constructor of the class and its methods
    [add_edges] and [set_weights]. *)

Module Classes.

(** What a call raises: an exception of the interpreter, or the
    [InvalidArgument] of [nngt.lib] with its message. *)
Inductive raised : Type :=
| Interpreter (e : exn)
| InvalidArgument (message : string).

Inductive outcome (A : Type) : Type :=
| Returns (a : A)
| Raises (e : raised).
Arguments Returns {A} a.
Arguments Raises {A} e.

Definition and_then {A B} (r : outcome A) (k : A -> outcome B) : outcome B :=
  match r with Returns a => k a | Raises e => Raises e end.

(** Names the methods read from the module's global scope without the
    file binding them. *)
Record module_names : Type := {
  global_dges : option (list (Z * Z));
  global_strType : option string
}.

(** The module as the file defines it. *)
Definition graph_classes : module_names :=
  {| global_dges := None; global_strType := None |}.

Definition name_of {A} (name : string) (binding : option A) : outcome A :=
  match binding with
  | Some x => Returns x
  | None => Raises (Interpreter (NameError name))
  end.

(** A two-dimensional matrix, dense ([numpy.array]) or sparse
    ([scipy.sparse]): its shape and its entries. *)
Record matrix : Type := {
  is_sparse : bool;
  shape : Z * Z;
  entry : Z -> Z -> Q
}.

(** [(matrix.T == matrix).all()], resp. [(matrix.T != matrix).nnz == 0],
    for a square matrix. *)
Definition symmetric (a : matrix) : bool :=
  forallb (λ i, forallb (λ j, Qeq_bool (entry a j i) (entry a i j))
                        (seqZ 0 (shape a).2))
          (seqZ 0 (shape a).1).

(** [np.array(matrix.nonzero()).T]: the positions of the entries that
    are not zero, row by row. *)
Definition nonzero (a : matrix) : list (Z * Z) :=
  mbind (M := list)
    (λ i, mbind (M := list)
            (λ j, if Qeq_bool (entry a i j) 0 then [] else [(i, j)])
            (seqZ 0 (shape a).2))
    (seqZ 0 (shape a).1).

Section Graph.

Variable names : module_names.
(** Instances of the class; [cls(nodes, name=..., weighted=...,
    directed=...)], and the methods [add_edges] and [set_weights] with
    the instance they leave. *)
Variable instance : Type.
Variable cls : Z -> string -> bool -> bool -> outcome instance.
Variable add_edges : instance -> list (Z * Z) -> outcome instance.
Variable set_weights :
  instance -> list (Z * Z) -> list Q -> outcome instance.
(** ['FromNpArray_{}'.format(cls.__num_graphs)] *)
Variable name_for : Z -> string.

(** [Graph.from_matrix], lines 59-102; [num_graphs] is the class
    counter [cls.__num_graphs] when the call is made. *)
Definition from_matrix (num_graphs : Z) (a : matrix)
    (weighted directed : bool) : outcome instance :=
  let shape := shape a in
  if negb (shape.1 =? shape.2)
  then Raises (InvalidArgument "A square matrix is required")
  else
    let nodes := shape.1 in
    if negb directed && negb (symmetric a)
    then Raises (InvalidArgument
                   "Incompatible directed=False option with non symmetric matrix provided.")
    else
      let edges := nonzero a in
      and_then (cls nodes (name_for num_graphs) weighted directed)
        (λ graph,
           and_then (add_edges graph edges)
             (λ graph,
                if weighted then
                  and_then
                    (if is_sparse a
                     then Returns ((λ e : Z * Z, entry a e.1 e.2) <$> edges)
                     else and_then (name_of "dges" (global_dges names))
                            (λ dges,
                               Returns ((λ e : Z * Z, entry a e.1 e.2)
                                          <$> dges)))
                    (λ weights, set_weights graph edges weights)
                else Returns graph)).

(** [self._graph.degree_list(node_list, deg_type, use_weights)] *)
Variable degree_list :
  option (list Z) -> string -> bool -> outcome (list Q).

(** [Graph.get_degrees], lines 431-453: the degrees, or [None] with
    the warnings issued on the way. *)
Definition get_degrees (node_list : option (list Z)) (deg_type : string)
    (use_weights : bool) : outcome (option (list Q) * list string) :=
  let valid_types := ["in"; "out"; "total"] in
  if decide (deg_type ∈ valid_types) then
    and_then (degree_list node_list deg_type use_weights)
             (λ degrees, Returns (Some degrees, []))
  else
    and_then (name_of "strType" (global_strType names))
             (λ strType, Returns (None, ["UserWarning"])).

End Graph.

End Classes.

(** ** Well-formedness *)

(** No two edges of the list are parallel. *)
Fixpoint no_parallel (d : bool) (l : list (Z * Z)) : Prop :=
  match l with
  | [] => True
  | e :: l' => Forall (λ e', ¬ parallel d e e') l' /\ no_parallel d l'
  end.

(** What [erdos_renyi] is expected to return for [nodes] nodes and a
    target of [E] edges: a graph on at most [nodes] vertices, without
    self-loops, without parallel edges unless they are allowed, with
    at most [E] edges. *)
Definition er_graph (nodes E : Z) (directed multigraph : bool) (g : Graph)
  : Prop :=
  is_directed g = directed /\
  0 <= num_vertices g <= nodes /\
  Forall (λ e : Z * Z, 0 <= e.1 < num_vertices g /\ 0 <= e.2 < num_vertices g)
         (edge_list g) /\
  Forall (λ e : Z * Z, e.1 ≠ e.2) (edge_list g) /\
  (multigraph = false -> no_parallel directed (edge_list g)) /\
  num_edges g <= E.

(** A weight that is [>= 0]. *)
Definition nonnegative (a : Np.float64) : Prop := Np.fle (Np.Fin 0) a = true.

(** Every exception a call can raise satisfies [P]. *)
Definition raises_only {A} (P : exn -> Prop) (m : M A) : Prop :=
  forall w e, m w = Raise e -> P e.

(** A call does not issue a [ConvergenceWarning]. *)
Definition quiet {A} (m : M A) : Prop :=
  forall w a w',
    m w = Ok (a, w') ->
    "ConvergenceWarning" ∈ warnings_log w' ->
    "ConvergenceWarning" ∈ warnings_log w.

Definition property_length (p : property) : nat :=
  match p with
  | IntArray a => length a
  | DoubleArray a => length a
  | VectorArray a => length a
  end.

(** Vertices and edges are numbered from 0 and no property array is
    longer than what it describes. *)
Definition compact (g : Graph) : Prop :=
  0 <= num_vertices g /\
  Forall (λ e : Z * Z, 0 <= e.1 /\ 0 <= e.2) (edge_list g) /\
  (forall k p, vertex_properties g !! k = Some p ->
               (property_length p <= Z.to_nat (num_vertices g))%nat) /\
  (forall k p, edge_properties g !! k = Some p ->
               (property_length p <= length (edge_list g))%nat).

(** A simple graph: the edges join existing vertices, none is a
    self-loop and no two are parallel. *)
Definition simple (g : Graph) : Prop :=
  Forall (λ e : Z * Z, 0 <= e.1 < num_vertices g /\ 0 <= e.2 < num_vertices g)
         (edge_list g) /\
  Forall (λ e : Z * Z, e.1 ≠ e.2) (edge_list g) /\
  no_parallel (is_directed g) (edge_list g).

(** The geometric graph of line 266 is a simple undirected graph on
    the [n] points it is given. *)
Definition simple_geometry
    (place : Z -> Q -> Q -> list Q -> list Q -> geometry) : Prop :=
  forall n rho lambda xs ys,
    simple {| is_directed := false; num_vertices := n;
              edge_list := geometric_edges (place n rho lambda xs ys);
              vertex_properties := ∅; edge_properties := ∅ |}.

(** The geometric graph of line 266 comes with one position per
    point. *)
Definition positions_complete
    (place : Z -> Q -> Q -> list Q -> list Q -> geometry) : Prop :=
  forall n rho lambda xs ys,
    Z.of_nat (length xs) = n -> Z.of_nat (length ys) = n ->
    Z.of_nat (length (lstPos (place n rho lambda xs ys))) = n.

(** The ordered pairs of distinct vertices below [n]. *)
Definition ordered_pairs (n : Z) : list (Z * Z) :=
  mbind (M := list)
        (λ x, (λ y, (x, y)) <$> filter (λ y, y ≠ x) (seqZ 0 n)) (seqZ 0 n).

(** ** Concrete inputs used in the examples *)

Module Samples.

(** A [_compute_edges] that is handed the edge count and returns it. *)
Definition edges_as_given : Z -> Q -> Z -> Q -> result Z :=
  fun _ _ edges _ => Ok edges.

(** A [_compute_edges] that rejects its arguments. *)
Definition edges_rejected : Z -> Q -> Z -> Q -> result Z :=
  fun _ _ _ _ => Raise InvalidParameter.

(** The integer tape 0, 1, 2, ... and the real tape 0, 0, 0, ..., with
    NumPy 1.11. *)
Definition counting_world : World :=
  {| tape_int := Z.of_N; tape_real := fun _ => 0%Q;
     cursor := 0%N; warnings_log := []; float_dimensions := true |}.

(** A mathematical library good enough to run the examples. *)
Definition sample_libm : Np.libm :=
  {| Np.libm_log10 := fun x => x;
     Np.libm_exp := fun x => Np.Fin 1;
     Np.libm_log_10 := 2302585092994046 # 1000000000000000 |}.

(** A geometry in which no two points coincide, a batch is twice the
    missing edges plus one, and the distance factor is 1 from a vertex
    to itself and 1/2 otherwise. *)
Definition sample_place (nNodes : Z) (rho lambda : Q) (xs ys : list Q)
  : geometry :=
  {| lstPos := zip xs ys;
     geometric_edges := [];
     nTests_for := fun missing => Ok (2 * missing + 1);
     lstDist_at := fun s t => if s =? t then 1%Q else (1 # 2)%Q |}.

(** Two nodes, four edges asked for, no weights. *)
Definition sample_properties : gmap string value :=
  list_to_map [("Rho", PyFloat 50); ("Lambda", PyFloat (1 # 10));
               ("Nodes", PyInt 2); ("Density", PyFloat 1);
               ("InhibFrac", PyFloat (1 # 5));
               ("Weighted", PyBool false)].

(** The same with a single node: one edge is asked for. *)
Definition one_node_properties : gmap string value :=
  <["Nodes" := PyInt 1]> sample_properties.

(** Betweenness bound to a function that gives every edge the value 3. *)
Definition flat_betweenness : module_globals :=
  {| global_dicProperties := None;
     global_betweenness :=
       Some (fun g => replicate (length (edge_list g)) 3%Q);
     global_rScaleInhib := None |}.

(** A body for lines the examples do not reach. *)
Definition unreached :
  Graph -> gmap string value -> Z -> Q -> Q -> Q -> Z -> Q -> M Graph :=
  fun _ _ _ _ _ _ _ _ => raise RuntimeError.

Definition range_0_1 : gmap string value :=
  list_to_map [("Min", PyFloat 0); ("Max", PyFloat 1)].

Definition two_edges : Graph :=
  {| is_directed := true; num_vertices := 3;
     edge_list := [(0, 1); (1, 0)];
     vertex_properties := ∅; edge_properties := ∅ |}.

(** Two nodes and a single edge asked for, no weights. *)
Definition sparse_properties : gmap string value :=
  <["Density" := PyFloat (1 # 4)]> sample_properties.

(** The same with the constant weights of the "Degree" strategy. *)
Definition weighted_properties : gmap string value :=
  <["Weighted" := PyBool true]>
    (<["Distribution" := PyStr "Degree"]> sparse_properties).

(** Two nodes and no edge asked for. *)
Definition edgeless_properties : gmap string value :=
  <["Density" := PyFloat 0]> sample_properties.

(** Two nodes and a negative density. *)
Definition negative_density : gmap string value :=
  <["Density" := PyFloat (-1)]> sample_properties.


(** Seven nodes and one edge. *)
Definition seven_nodes : gmap string value :=
  list_to_map [("Rho", PyFloat 50); ("Lambda", PyFloat (1 # 10));
               ("Nodes", PyInt 7); ("Edges", PyInt 1);
               ("InhibFrac", PyFloat (1 # 5));
               ("Weighted", PyBool false)].

(** The parameters of the log-normal weights. *)
Definition lognormal_properties : gmap string value :=
  list_to_map [("ScaleExc", PyFloat 1); ("LocationExc", PyFloat 0);
               ("ScaleInhib", PyFloat 1); ("LocationInhib", PyFloat 0)].

End Samples.

Module ClassSamples.

(** The dense matrix of the two edges 0 -> 1 and 1 -> 0. *)
Definition two_by_two : Classes.matrix :=
  {| Classes.is_sparse := false; Classes.shape := (2, 2);
     Classes.entry := fun i j => if i =? j then 0%Q else 1%Q |}.

(** Instances reduced to their edge list. *)
Definition new_instance (nodes : Z) (name : string) (weighted directed : bool)
  : Classes.outcome (list (Z * Z)) := Classes.Returns [].

Definition append_edges (graph edges : list (Z * Z))
  : Classes.outcome (list (Z * Z)) := Classes.Returns (graph ++ edges).

Definition keep_weights (graph edges : list (Z * Z)) (weights : list Q)
  : Classes.outcome (list (Z * Z)) := Classes.Returns graph.

Definition no_name (num_graphs : Z) : string := "FromNpArray_0".

(** Every vertex of degree 1. *)
Definition unit_degrees (node_list : option (list Z)) (deg_type : string)
    (use_weights : bool) : Classes.outcome (list Q) :=
  Classes.Returns [1%Q; 1%Q].

End ClassSamples.

(** * Properties *)

(** ** The library operations on small inputs *)

Example add_edge_list_creates_vertices :
  add_edge_list (Graph_new true) [[0; 1]]
  = Ok {| is_directed := true; num_vertices := 2; edge_list := [(0, 1)];
          vertex_properties := ∅; edge_properties := ∅ |}.
Proof. reflexivity. Qed.

Example add_edge_list_reads_rows :
  (g ← add_edge_list (Graph_new true) [[0; 2]; [1; 3]]; mret (edge_list g))
  = Ok [(0, 2); (1, 3)].
Proof. reflexivity. Qed.

Example add_edge_list_short_rows :
  add_edge_list (Graph_new true) [[0]; [1]] = Raise RuntimeError.
Proof. reflexivity. Qed.

Example remove_parallel_edges_directed :
  edge_list (remove_parallel_edges
               (with_edges (Graph_new true) 3 [(0, 1); (1, 0); (0, 1)]))
  = [(0, 1); (1, 0)].
Proof. reflexivity. Qed.

Example remove_parallel_edges_undirected :
  edge_list (remove_parallel_edges
               (with_edges (Graph_new false) 3 [(0, 1); (1, 0); (0, 1)]))
  = [(0, 1)].
Proof. reflexivity. Qed.

Example adjacency_of_two_edges :
  adjacency (with_edges (Graph_new true) 4 [(2, 3); (0, 1)])
  = {| row := [1; 3]; col := [0; 2] |}.
Proof. reflexivity. Qed.

Example prune_isolated_two_edges :
  find_vertex_total_degree Samples.two_edges 0 = [2] /\
  num_vertices (prune_isolated Samples.two_edges) = 2 /\
  edge_list (prune_isolated Samples.two_edges) = [(0, 1); (1, 0)].
Proof. repeat split. Qed.

Example prune_isolated_renumbers :
  edge_list (prune_isolated (with_edges (Graph_new true) 4 [(1, 3)]))
  = [(0, 1)].
Proof. reflexivity. Qed.

(** ** Reasoning about calls *)

Lemma bind_Ok {A B} (m : M A) (k : A -> M B) w b w' :
  (m ≫= k) w = Ok (b, w') <->
  exists a w1, m w = Ok (a, w1) /\ k a w1 = Ok (b, w').
Proof.
  unfold mbind, M_bind, Py.bind. split.
  - destruct (m w) as [[a w1]|e] eqn:E; [eauto | discriminate].
  - intros (a & w1 & -> & H). exact H.
Qed.

Lemma bind_Raise {A B} (m : M A) (k : A -> M B) w e :
  (m ≫= k) w = Raise e <->
  m w = Raise e \/ exists a w1, m w = Ok (a, w1) /\ k a w1 = Raise e.
Proof.
  unfold mbind, M_bind, Py.bind. split.
  - destruct (m w) as [[a w1]|e'] eqn:E; [eauto | intros [= ->]; auto].
  - intros [-> | (a & w1 & -> & H)]; auto.
Qed.

Lemma ret_Ok {A} (a b : A) w w' :
  (mret a : M A) w = Ok (b, w') <-> b = a /\ w' = w.
Proof.
  unfold mret, M_ret, Py.ret. split; [intros [= <- <-] | intros [-> ->]]; auto.
Qed.

Lemma lift_Ok {A} (r : result A) a w w' :
  lift r w = Ok (a, w') <-> r = Ok a /\ w' = w.
Proof.
  unfold lift. destruct r; split; try intros [= <- <-]; auto;
    intros [[= ->] ->]; auto.
Qed.

Lemma lift_Raise {A} (r : result A) e w :
  lift r w = Raise e <-> r = Raise e.
Proof. unfold lift. destruct r; split; congruence. Qed.

Lemma result_bind_Ok {A B} (r : result A) (k : A -> result B) b :
  (r ≫= k) = Ok b <-> exists a, r = Ok a /\ k a = Ok b.
Proof.
  unfold mbind, result_bind. destruct r; split; eauto.
  - intros (a0 & [= ->] & H); auto.
  - discriminate.
  - intros (a0 & [=] & _).
Qed.

(** Take a successful run apart, one call at a time. *)
Ltac run_inv H :=
  repeat match type of H with
         | (_ ≫= _) _ = Ok _ =>
             let a := fresh "a" in
             let w := fresh "w" in
             let H1 := fresh "Hrun" in
             apply bind_Ok in H; destruct H as (a & w & H1 & H)
         | (let '(_, _) := ?p in _) _ = Ok _ => destruct p
         end.

(** ** Which exceptions a call can raise *)

Lemma eval_Raise {A} (m : M A) w e : eval m w = Raise e <-> m w = Raise e.
Proof.
  unfold eval. destruct (m w) as [[a w']|e']; split; congruence.
Qed.

Lemma eval_Ok {A} (m : M A) w a :
  eval m w = Ok a <-> exists w', m w = Ok (a, w').
Proof.
  unfold eval. destruct (m w) as [[a' w']|e']; split.
  - intros [= ->]. eauto.
  - intros (w'' & [= -> _]). done.
  - discriminate.
  - intros (w'' & [=]).
Qed.

Lemma raises_only_ret {A} P (a : A) : raises_only P (mret a).
Proof. intros w e. discriminate. Qed.

Lemma raises_only_bind {A B} P (m : M A) (k : A -> M B) :
  raises_only P m -> (forall a, raises_only P (k a)) ->
  raises_only P (m ≫= k).
Proof.
  intros Hm Hk w e H. apply bind_Raise in H as [H|(a & w1 & _ & H)].
  - by apply (Hm w).
  - by apply (Hk a w1).
Qed.

Lemma raises_only_lift {A} (P : exn -> Prop) (r : result A) :
  (forall e, r = Raise e -> P e) -> raises_only P (lift r).
Proof. intros Hr w e H. apply lift_Raise in H. auto. Qed.

Lemma raises_only_raise {A} (P : exn -> Prop) e :
  P e -> raises_only P (raise e : M A).
Proof. intros He w e' [= <-]. done. Qed.

Lemma raises_only_number (P : exn -> Prop) d key :
  P (KeyError key) -> P TypeError -> raises_only P (number d key).
Proof.
  intros HK HT. apply raises_only_lift. intros e. unfold getitem.
  destruct (d !! key) as [[]|]; simpl; intros [= <-]; done.
Qed.

Lemma raises_only_truediv (P : exn -> Prop) x y :
  P ZeroDivisionError -> raises_only P (lift (truediv x y)).
Proof.
  intros HZ. apply raises_only_lift. intros e. unfold truediv.
  destruct (Qeq_bool y 0); intros [= <-]; done.
Qed.

Lemma raises_only_load_global {A} (P : exn -> Prop) name (b : option A) :
  P (NameError name) -> raises_only P (lift (load_global name b)).
Proof.
  intros HN. apply raises_only_lift. intros e.
  destruct b; intros [= <-]; done.
Qed.

Lemma raises_only_amax (P : exn -> Prop) a :
  P ValueError -> raises_only P (lift (Np.amax a)).
Proof.
  intros HV. apply raises_only_lift. intros e.
  destruct a; intros [= <-]; done.
Qed.

Lemma raises_only_amin (P : exn -> Prop) a :
  P ValueError -> raises_only P (lift (Np.amin a)).
Proof.
  intros HV. apply raises_only_lift. intros e.
  destruct a; intros [= <-]; done.
Qed.

(** ** Warnings *)

Lemma quiet_ret {A} (a : A) : quiet (mret a).
Proof. intros w b w' H. apply ret_Ok in H as [_ ->]. done. Qed.

Lemma quiet_bind {A B} (m : M A) (k : A -> M B) :
  quiet m -> (forall a, quiet (k a)) -> quiet (m ≫= k).
Proof.
  intros Hm Hk w b w' H Hin. apply bind_Ok in H as (a & w1 & H1 & H2).
  eapply Hm; [exact H1|]. eapply Hk; [exact H2 | exact Hin].
Qed.

Lemma quiet_lift {A} (r : result A) : quiet (lift r).
Proof. intros w a w' H. apply lift_Ok in H as [_ ->]. done. Qed.

Lemma quiet_raise {A} e : quiet (raise e : M A).
Proof. intros w a w' H. discriminate. Qed.

Lemma quiet_warn category :
  category ≠ "ConvergenceWarning" -> quiet (warn category).
Proof.
  intros Hne w a w' [= _ <-]. simpl. rewrite elem_of_app, list_elem_of_singleton.
  intros [H|H]; [done | congruence].
Qed.

Lemma quiet_next_int : quiet Np.next_int.
Proof. intros w a w' [= _ <-]. done. Qed.

Lemma quiet_next_real : quiet Np.next_real.
Proof. intros w a w' [= _ <-]. done. Qed.

Lemma quiet_replicateM {A} n (m : M A) : quiet m -> quiet (Np.replicateM n m).
Proof.
  intros Hm. induction n as [|n IH]; simpl; [apply quiet_ret|].
  apply quiet_bind; [done | intros a].
  apply quiet_bind; [done | intros l]. apply quiet_ret.
Qed.

(** Break a call into its parts, down to the primitives. *)
Ltac quiet_tac :=
  repeat first
    [ apply quiet_ret
    | apply quiet_lift
    | apply quiet_raise
    | apply quiet_next_int
    | apply quiet_next_real
    | apply quiet_warn; discriminate
    | apply quiet_replicateM
    | assumption
    | apply quiet_bind; [|intros ?]
    | match goal with
      | |- quiet (if ?b then _ else _) => destruct b
      | |- quiet (match ?x with _ => _ end) => destruct x
      | |- quiet (let '(_, _) := ?x in _) => destruct x
      end ].

Lemma quiet_randint low high size : quiet (Np.randint low high size).
Proof. unfold Np.randint. quiet_tac. Qed.

Lemma quiet_randint2 low high k : quiet (Np.randint2 low high k).
Proof. unfold Np.randint2. quiet_tac. apply quiet_randint. Qed.

Lemma quiet_uniform01 size : quiet (Np.uniform01 size).
Proof. unfold Np.uniform01. quiet_tac. Qed.

Lemma quiet_dimension v : quiet (dimension v).
Proof.
  destruct v as [n|x|b|s]; simpl; try (quiet_tac; fail).
  intros w a w' H. destruct (float_dimensions w); [|discriminate].
  revert H. apply quiet_bind; [by apply quiet_warn | intros _].
  apply quiet_ret.
Qed.

Lemma quiet_number d key : quiet (number d key).
Proof. unfold number. quiet_tac. Qed.

Lemma quiet_randint_pairs low high k : quiet (randint_pairs low high k).
Proof.
  unfold randint_pairs. destruct (high <=? low); [apply quiet_raise|].
  apply quiet_bind; [apply quiet_dimension | intros k'].
  apply quiet_randint2.
Qed.

Lemma quiet_er_sample fuel nodes pre multigraph :
  forall g t c, quiet (er_sample fuel nodes pre multigraph g t c).
Proof.
  induction fuel as [|fuel IH]; intros g t c; simpl; [apply quiet_ret|].
  destruct (_ && _); [|apply quiet_ret].
  apply quiet_bind; [apply quiet_randint_pairs | intros a].
  apply quiet_bind; [apply quiet_lift | intros g1]. apply IH.
Qed.

Lemma quiet_er_reciprocate fuel coo edges multigraph :
  forall g t c, quiet (er_reciprocate fuel coo edges multigraph g t c).
Proof.
  induction fuel as [|fuel IH]; intros g t c; simpl; [apply quiet_ret|].
  destruct (_ && _); [|apply quiet_ret].
  apply quiet_bind; [apply quiet_randint | intros idx].
  do 3 (apply quiet_bind; [apply quiet_lift | intros ?]). apply IH.
Qed.

Lemma quiet_erdos_renyi_loops ce nodes density edges avg_deg reciprocity
    directed multigraph :
  quiet (erdos_renyi_loops ce nodes density edges avg_deg reciprocity
                           directed multigraph).
Proof.
  unfold erdos_renyi_loops, seed.
  apply quiet_bind; [apply quiet_ret | intros _].
  apply quiet_bind; [apply quiet_lift | intros E].
  apply quiet_bind; [quiet_tac | intros [E' pre]].
  apply quiet_bind; [apply quiet_er_sample | intros [[g t] c]].
  apply quiet_bind; [|intros [[g' t'] c']; apply quiet_ret].
  destruct (_ && _); [apply quiet_er_reciprocate | apply quiet_ret].
Qed.

Lemma quiet_edr_round geo nNodes numDesired g n :
  quiet (edr_round geo nNodes numDesired g n).
Proof.
  unfold edr_round.
  apply quiet_bind; [apply quiet_lift | intros nTests].
  apply quiet_bind; [apply quiet_randint | intros src].
  apply quiet_bind; [apply quiet_randint | intros dst].
  apply quiet_bind; [apply quiet_uniform01 | intros us].
  apply quiet_bind; [apply quiet_lift | intros g1]. apply quiet_ret.
Qed.

Lemma quiet_edr_sample fuel geo nNodes numDesired :
  forall g n t, quiet (edr_sample fuel geo nNodes numDesired g n t).
Proof.
  induction fuel as [|fuel IH]; intros g n t; simpl; [apply quiet_ret|].
  destruct (_ && _); [|apply quiet_ret].
  apply quiet_bind; [apply quiet_edr_round | intros g1]. apply IH.
Qed.

Lemma quiet_gen_edr_loop place d : quiet (gen_edr_loop place d).
Proof.
  unfold gen_edr_loop, seed.
  apply quiet_bind; [apply quiet_ret | intros _].
  apply quiet_bind; [apply quiet_number | intros rho].
  apply quiet_bind; [apply quiet_number | intros lam].
  apply quiet_bind; [apply quiet_lift | intros [[[nNodes nEdges] rDens] d']].
  apply quiet_bind; [apply quiet_lift | intros q].
  apply quiet_bind; [quiet_tac | intros _].
  apply quiet_bind; [apply quiet_uniform01 | intros xs].
  apply quiet_bind; [apply quiet_uniform01 | intros ys].
  apply quiet_bind; [apply quiet_lift | intros p].
  apply quiet_bind; [quiet_tac | intros _].
  apply quiet_bind; [apply quiet_edr_sample | intros [[g n] t]].
  apply quiet_ret.
Qed.

Lemma quiet_normal loc scale size : quiet (normal loc scale size).
Proof. unfold normal. quiet_tac. Qed.

Lemma quiet_lognormal m mean sigma size : quiet (lognormal m mean sigma size).
Proof. unfold lognormal. quiet_tac. Qed.

Lemma quiet_strategy globals m name f g d nEdges nExc :
  dicGenWeights globals m name = Some f -> quiet (f g d nEdges nExc).
Proof.
  unfold dicGenWeights. intros H.
  repeat match type of H with
         | (if ?b then _ else _) = _ => destruct b
         end; simplify_eq.
  - unfold gaussian_weights.
    do 4 (apply quiet_bind; [apply quiet_number | intros ?]).
    do 2 (apply quiet_bind; [apply quiet_normal | intros ?]).
    apply quiet_ret.
  - unfold lognormal_weights.
    do 4 (apply quiet_bind; [apply quiet_number | intros ?]).
    apply quiet_bind; [apply quiet_lognormal | intros ?].
    apply quiet_bind; [apply quiet_lift | intros ?].
    apply quiet_bind; [apply quiet_lognormal | intros ?].
    apply quiet_ret.
  - unfold betweenness_correlated_weights.
    apply quiet_bind; [quiet_tac | intros _].
    do 2 (apply quiet_bind; [apply quiet_number | intros ?]).
    do 5 (apply quiet_bind; [apply quiet_lift | intros ?]).
    apply quiet_ret.
  - unfold degree_correlated_weights. quiet_tac.
Qed.

Lemma quiet_bind_lift {A B} (r : result A) (k : A -> M B) :
  (forall a, r = Ok a -> quiet (k a)) -> quiet (lift r ≫= k).
Proof.
  intros Hk w b w' H Hin. apply bind_Ok in H as (a & w1 & H1 & H2).
  apply lift_Ok in H1 as [Hr ->]. eapply Hk; eauto.
Qed.

Lemma quiet_weigh_edges globals m g d nEdges nExc :
  quiet (weigh_edges globals m g d nEdges nExc).
Proof.
  unfold weigh_edges.
  apply quiet_bind; [apply quiet_lift | intros weighted].
  destruct (truthy weighted); [|apply quiet_ret].
  apply quiet_bind; [apply quiet_lift | intros distribution].
  apply quiet_bind_lift. intros f Hf.
  apply quiet_bind; [|intros ws; apply quiet_ret].
  destruct distribution as [| | |name]; try discriminate.
  destruct (dicGenWeights globals m name) as [f'|] eqn:Hname;
    [|discriminate].
  injection Hf as <-. by eapply quiet_strategy.
Qed.

Lemma quiet_gen_edr_finish globals m st : quiet (gen_edr_finish globals m st).
Proof.
  unfold gen_edr_finish, decorate, label_edges.
  apply quiet_bind; [apply quiet_lift | intros rDens].
  apply quiet_bind; [|intros [g nExc]; apply quiet_weigh_edges].
  apply quiet_bind; [apply quiet_number | intros p].
  apply quiet_bind; [apply quiet_uniform01 | intros us]. apply quiet_ret.
Qed.

(** ** Random draws *)

Lemma advance_advance a b w : advance b (advance a w) = advance (a + b) w.
Proof. unfold advance. simpl. f_equal. lia. Qed.

Lemma advance_0 w : advance 0 w = w.
Proof. destruct w. unfold advance. simpl. f_equal. lia. Qed.

(** [n] draws of a primitive that reads one tape cell succeed, move the
    cursor by [n] and leave the rest of the world alone. *)
Lemma replicateM_draws {A} (draw : M A) (P : A -> Prop) (n : nat) :
  (forall w, exists a, draw w = Ok (a, advance 1 w) /\ P a) ->
  forall w, exists l,
    Np.replicateM n draw w = Ok (l, advance (N.of_nat n) w) /\
    length l = n /\ Forall P l.
Proof.
  intros Hdraw. induction n as [|n IH]; intros w.
  - exists []. simpl. unfold mret, M_ret, Py.ret. by rewrite advance_0.
  - destruct (Hdraw w) as (a & Ha & HP).
    destruct (IH (advance 1 w)) as (l & Hl & Hlen & HPl).
    exists (a :: l). split; [|split; [simpl; lia | by constructor]].
    cbn [Np.replicateM]. unfold mbind, M_bind, Py.bind. rewrite Ha, Hl.
    unfold mret, M_ret, Py.ret. rewrite advance_advance.
    do 3 f_equal. lia.
Qed.

Lemma uniform01_draws (size : Z) (w : World) :
  0 <= size ->
  exists us, Np.uniform01 size w = Ok (us, advance (Z.to_N size) w) /\
             Z.of_nat (length us) = size /\
             Forall (λ u, 0 <= u /\ u < 1)%Q us.
Proof.
  intros Hsize. unfold Np.uniform01.
  destruct (Z.ltb_spec size 0); [lia|].
  destruct (replicateM_draws
              (r ← Np.next_real; mret (r - inject_Z (Qfloor r))%Q)
              (λ u, 0 <= u /\ u < 1)%Q (Z.to_nat size)) with (w := w)
    as (us & Hus & Hlen & HP).
  - intros w0. eexists. split; [reflexivity|].
    set (r := tape_real w0 (cursor w0)).
    pose proof (Qfloor_le r). pose proof (Qlt_floor r) as Hlt.
    rewrite inject_Z_plus in Hlt. change (inject_Z 1) with 1%Q in Hlt.
    split; lra.
  - exists us. rewrite Z_nat_N in Hus. split; [done|]. split; [lia | done].
Qed.

Lemma randint_draws (low high size : Z) (w : World) :
  low < high -> 0 <= size ->
  exists l, Np.randint low high size w = Ok (l, advance (Z.to_N size) w) /\
            Z.of_nat (length l) = size /\
            Forall (λ x, low <= x < high) l.
Proof.
  intros Hrange Hsize. unfold Np.randint.
  destruct (Z.leb_spec high low); [lia|].
  destruct (Z.ltb_spec size 0); [lia|]. simpl.
  destruct (replicateM_draws
              (r ← Np.next_int; mret (low + r mod (high - low)))
              (λ x, low <= x < high) (Z.to_nat size)) with (w := w)
    as (l & Hl & Hlen & HP).
  - intros w0. eexists. split; [reflexivity|].
    pose proof (Z.mod_pos_bound (tape_int w0 (cursor w0)) (high - low)). lia.
  - exists l. rewrite Z_nat_N in Hl. split; [done|]. split; [lia | done].
Qed.

(** ** Edge lists under the graph operations *)

Lemma add_edge_list_edges g a g' :
  add_edge_list g a = Ok g' ->
  is_directed g' = is_directed g /\
  exists es, edge_list g' = edge_list g ++ es /\ length es = length a.
Proof.
  revert g. induction a as [|r a IH]; intros g H; simpl in H.
  - injection H as <-. split; [done|]. exists []. by rewrite app_nil_r.
  - destruct r as [|s [|t r]]; try discriminate.
    apply IH in H as (Hd & es & -> & Hl). split; [done|].
    exists ((s, t) :: es). simpl. rewrite <- app_assoc. split; [done|].
    by rewrite Hl.
Qed.

Lemma add_edge_list_transpose2 g r0 r1 :
  exists g', add_edge_list g (Np.transpose2 r0 r1) = Ok g'.
Proof.
  revert g r1. induction r0 as [|a r0 IH]; intros g [|b r1]; simpl; eauto.
Qed.

Lemma first_of_parallel_length d seen l :
  (length (first_of_parallel d seen l) <= length l)%nat.
Proof.
  revert seen. induction l as [|e l IH]; intros seen; simpl; [lia|].
  destruct (decide _); [specialize (IH seen) | specialize (IH (e :: seen))];
    simpl; lia.
Qed.

Lemma remove_self_loops_num_edges g :
  num_edges (remove_self_loops g) <= num_edges g.
Proof.
  unfold num_edges, remove_self_loops. simpl.
  pose proof (length_filter (λ e : Z * Z, e.1 ≠ e.2) (edge_list g)). lia.
Qed.

Lemma remove_parallel_edges_num_edges g :
  num_edges (remove_parallel_edges g) <= num_edges g.
Proof.
  unfold num_edges, remove_parallel_edges. simpl.
  pose proof (first_of_parallel_length (is_directed g) [] (edge_list g)). lia.
Qed.

Lemma count_nonzero_cons b mask :
  Np.count_nonzero (b :: mask)
  = (if b then 1 else 0) + Np.count_nonzero mask.
Proof.
  unfold Np.count_nonzero. rewrite filter_cons.
  destruct b; destruct (decide _); simpl; try congruence; lia.
Qed.

Lemma count_nonzero_nonneg mask : 0 <= Np.count_nonzero mask.
Proof. unfold Np.count_nonzero. lia. Qed.

Lemma compress_length {A} (mask : list bool) (a : list A) :
  Z.of_nat (length (Np.compress mask a)) <= Np.count_nonzero mask.
Proof.
  revert a. induction mask as [|b mask IH]; intros a.
  - simpl. apply count_nonzero_nonneg.
  - rewrite count_nonzero_cons. destruct a as [|x a].
    + pose proof (count_nonzero_nonneg mask). destruct b; simpl; lia.
    + specialize (IH a). destruct b; simpl; lia.
Qed.

Lemma upto_length {A} (n : Z) (a : list A) :
  0 <= n -> Z.of_nat (length (Np.upto n a)) <= n.
Proof.
  intros Hn. unfold Np.upto. destruct (Z.ltb_spec n 0); [lia|].
  rewrite length_take. lia.
Qed.

Lemma transpose2_length r0 r1 :
  (length (Np.transpose2 r0 r1) <= length r0)%nat.
Proof. unfold Np.transpose2. rewrite length_zip_with. lia. Qed.

(** ** Pruning the isolated vertices *)

Lemma compress_decide {A} (P : A -> Prop) `{!forall x, Decision (P x)}
    (l : list A) :
  Np.compress ((λ x, bool_decide (P x)) <$> l) l = filter P l.
Proof.
  induction l as [|x l IH]; [done|].
  rewrite fmap_cons, filter_cons. cbn [Np.compress]. rewrite IH.
  destruct (decide (P x)) as [Hx|Hx].
  - by rewrite bool_decide_eq_true_2.
  - by rewrite bool_decide_eq_false_2.
Qed.

Lemma compress_all_true {A} (mask : list bool) (a : list A) :
  Forall (λ b, b = true) mask ->
  (length a <= length mask)%nat ->
  Np.compress mask a = a.
Proof.
  intros Hall. revert a.
  induction Hall as [|b mask -> _ IH]; intros [|x a] Hlen; simpl in *;
    try done; try lia.
  f_equal. apply IH. lia.
Qed.

Lemma compress_count {A} (mask : list bool) (a : list A) :
  (length (Np.compress mask a)
   <= length (filter (λ b, b = true) mask))%nat.
Proof.
  pose proof (compress_length mask a) as H. unfold Np.count_nonzero in H. lia.
Qed.

Lemma filter_true_fmap_decide {A} (P : A -> Prop)
    `{!forall x, Decision (P x)} (l : list A) :
  length (filter (λ b, b = true) ((λ x, bool_decide (P x)) <$> l))
  = length (filter P l).
Proof.
  induction l as [|x l IH]; [done|]. rewrite fmap_cons, !filter_cons.
  destruct (decide (P x)) as [Hx|Hx].
  - rewrite bool_decide_eq_true_2 by done.
    destruct (decide _); [simpl; congruence | done].
  - rewrite bool_decide_eq_false_2 by done.
    destruct (decide _); [done | congruence].
Qed.

(** Every index below the number of survivors is the new index of a
    survivor. *)
Lemma new_index_onto (vs : list Z) (n : nat) (k : nat) :
  (k < length (filter (λ u, u ∉ vs) (seqZ 0 (Z.of_nat n))))%nat ->
  exists u, 0 <= u < Z.of_nat n /\ (u ∉ vs) /\ new_index vs u = Z.of_nat k.
Proof.
  induction n as [|n IH]; intros Hk.
  - simpl in Hk. lia.
  - rewrite seqZ_S, Z.add_0_l, filter_app, length_app in Hk.
    destruct (decide (k < length (filter (λ u, u ∉ vs)
                                         (seqZ 0 (Z.of_nat n))))%nat)
      as [Hlt|Hge].
    + destruct (IH Hlt) as (u & Hu & Hvs & Hidx).
      exists u. split; [lia | done].
    + rewrite filter_cons, filter_nil in Hk.
      destruct (decide (Z.of_nat n ∉ vs)) as [Hin|Hin]; simpl in Hk; [|lia].
      exists (Z.of_nat n). split; [lia|]. split; [done|].
      unfold new_index. f_equal. lia.
Qed.

Lemma filter_not_in_nil (l : list Z) : filter (λ u, u ∉ []) l = l.
Proof.
  induction l as [|x l IH]; [done|].
  rewrite filter_cons_True by apply not_elem_of_nil. by rewrite IH.
Qed.

Lemma new_index_nil (v : Z) : 0 <= v -> new_index [] v = v.
Proof.
  intros Hv. unfold new_index. rewrite filter_not_in_nil, length_seqZ. lia.
Qed.

Lemma new_index_nonneg (vs : list Z) (v : Z) : 0 <= new_index vs v.
Proof. unfold new_index. lia. Qed.

Lemma filter_none {A} (P : A -> Prop) `{!forall x, Decision (P x)}
    (l : list A) :
  (forall x, x ∈ l -> ¬ P x) -> filter P l = [].
Proof.
  induction l as [|x l IH]; intros HP; [done|].
  rewrite filter_cons_False by (apply HP; left).
  apply IH. intros y Hy. apply HP. by right.
Qed.

Lemma total_degree_zero (g : Graph) (v : Z) :
  total_degree g v = 0%nat <->
  forall e, e ∈ edge_list g -> e.1 ≠ v /\ e.2 ≠ v.
Proof.
  unfold total_degree. split.
  - intros H e He.
    assert (H1 : length (filter (λ e : Z * Z, e.1 = v) (edge_list g)) = 0%nat)
      by lia.
    assert (H2 : length (filter (λ e : Z * Z, e.2 = v) (edge_list g)) = 0%nat)
      by lia.
    apply nil_length_inv in H1, H2. split; intros Heq.
    + eapply (filter_nil_not_elem_of _ _ e H1); done.
    + eapply (filter_nil_not_elem_of _ _ e H2); done.
  - intros H.
    rewrite !filter_none; [done | |]; intros e He; specialize (H e He); tauto.
Qed.

Lemma remove_vertex_edge_list g vs :
  edge_list (remove_vertex g vs)
  = (λ e : Z * Z, (new_index vs e.1, new_index vs e.2))
      <$> filter (λ e : Z * Z, (e.1 ∉ vs) /\ (e.2 ∉ vs)) (edge_list g).
Proof.
  unfold remove_vertex. simpl.
  by rewrite (compress_decide (λ e : Z * Z, (e.1 ∉ vs) /\ (e.2 ∉ vs))).
Qed.

Lemma select_property_length keep p :
  (property_length (select_property keep p)
   <= length (filter (λ b, b = true) keep))%nat.
Proof. destruct p; simpl; apply compress_count. Qed.

Lemma select_property_all_true keep p :
  Forall (λ b, b = true) keep ->
  (property_length p <= length keep)%nat ->
  select_property keep p = p.
Proof.
  intros Hall Hlen. destruct p; simpl in *; f_equal;
    by apply compress_all_true.
Qed.

Lemma remove_vertex_compact g vs : compact (remove_vertex g vs).
Proof.
  unfold compact. rewrite remove_vertex_edge_list.
  split; [simpl; lia|]. split; [|split].
  - apply Forall_fmap, Forall_forall. intros e _. simpl.
    split; apply new_index_nonneg.
  - intros k p. simpl. rewrite lookup_fmap. intros Hk.
    destruct (vertex_properties g !! k) as [p0|]; [|done].
    injection Hk as <-. rewrite Nat2Z.id.
    etransitivity; [apply select_property_length|].
    by rewrite (filter_true_fmap_decide (λ v, v ∉ vs)).
  - intros k p. simpl. rewrite lookup_fmap. intros Hk.
    destruct (edge_properties g !! k) as [p0|]; [|done].
    injection Hk as <-. rewrite length_fmap.
    etransitivity; [apply select_property_length|].
    by rewrite (filter_true_fmap_decide
                  (λ e : Z * Z, (e.1 ∉ vs) /\ (e.2 ∉ vs))).
Qed.

Lemma fmap_decide_all_true {A} (P : A -> Prop) `{!forall x, Decision (P x)}
    (l : list A) :
  (forall x, P x) -> Forall (λ b, b = true) ((λ x, bool_decide (P x)) <$> l).
Proof.
  intros HP. apply Forall_fmap, Forall_forall. intros x _. simpl.
  by apply bool_decide_eq_true_2.
Qed.

(** Removing no vertex changes nothing. *)
Lemma remove_vertex_nil g : compact g -> remove_vertex g [] = g.
Proof.
  intros (HN & Hedges & Hvp & Hep). destruct g as [d N es vp ep].
  simpl in *. unfold remove_vertex, vertices. simpl.
  assert (Hkv : Forall (λ b, b = true)
                  ((λ v, bool_decide (v ∉ [])) <$> seqZ 0 N)).
  { apply (fmap_decide_all_true (λ v : Z, v ∉ [])). apply not_elem_of_nil. }
  assert (Hke : Forall (λ b, b = true)
                  ((λ e : Z * Z, bool_decide ((e.1 ∉ []) /\ (e.2 ∉ [])))
                     <$> es)).
  { apply (fmap_decide_all_true (λ e : Z * Z, (e.1 ∉ []) /\ (e.2 ∉ []))).
    intros e. split; apply not_elem_of_nil. }
  f_equal.
  - rewrite filter_not_in_nil, length_seqZ. lia.
  - rewrite compress_all_true by (done || by rewrite length_fmap).
    rewrite <- (list_fmap_id es) at 2. apply Forall_fmap_ext_1.
    eapply Forall_impl; [exact Hedges|]. intros [s t] [Hs Ht]. simpl in *.
    by rewrite !new_index_nil.
  - rewrite <- (map_fmap_id vp) at 2. apply map_fmap_ext. intros k p Hk.
    apply select_property_all_true; [done|].
    rewrite length_fmap, length_seqZ. eauto.
  - rewrite <- (map_fmap_id ep) at 2. apply map_fmap_ext. intros k p Hk.
    apply select_property_all_true; [done|]. rewrite length_fmap. eauto.
Qed.

(** Isolated vertices carry no edge. *)
Lemma isolated_not_endpoint g e :
  e ∈ edge_list g ->
  (e.1 ∉ find_vertex_total_degree g 0) /\ (e.2 ∉ find_vertex_total_degree g 0).
Proof.
  intros He. unfold find_vertex_total_degree.
  split; intros Hin; apply list_elem_of_filter in Hin as [Hdeg _];
    destruct (proj1 (total_degree_zero _ _) Hdeg e He); congruence.
Qed.

Lemma prune_isolated_none_left g :
  find_vertex_total_degree (prune_isolated g) 0 = [].
Proof.
  apply filter_none. intros v' Hv' Hdeg.
  unfold prune_isolated, reindex_edges in *.
  set (vs := find_vertex_total_degree g 0) in *.
  unfold vertices in Hv'. apply elem_of_seqZ in Hv'. simpl in Hv'.
  unfold vertices in Hv'.
  destruct (Z.le_gt_cases (num_vertices g) 0) as [Hneg|Hpos].
  { rewrite seqZ_nil in Hv' by done. simpl in Hv'. lia. }
  rewrite <- (Z2Nat.id (num_vertices g)) in Hv' by lia.
  destruct (new_index_onto vs (Z.to_nat (num_vertices g)) (Z.to_nat v'))
    as (u & Hu & Huvs & Hidx); [lia|].
  rewrite Z2Nat.id in Hidx, Hu by lia.
  assert (Hdu : total_degree g u ≠ 0%nat).
  { intros Hz. apply Huvs. apply list_elem_of_filter. split; [done|].
    apply elem_of_seqZ. lia. }
  destruct (decide (Exists (λ e : Z * Z, e.1 = u \/ e.2 = u) (edge_list g)))
    as [Hex|Hnex].
  - apply Exists_exists in Hex as (e & He & Hend).
    destruct (isolated_not_endpoint g e He) as [H1 H2]. fold vs in H1, H2.
    pose proof (proj1 (total_degree_zero _ _) Hdeg
                  (new_index vs e.1, new_index vs e.2)) as Hno.
    rewrite remove_vertex_edge_list in Hno.
    destruct Hno as [Hn1 Hn2].
    { apply (list_elem_of_fmap_2
               (λ e : Z * Z, (new_index vs e.1, new_index vs e.2))).
      apply list_elem_of_filter. done. }
    simpl in *. destruct Hend as [<-|<-]; congruence.
  - apply Hdu, total_degree_zero. intros e He.
    apply not_Exists_Forall in Hnex; [|intros x; apply _].
    rewrite Forall_forall in Hnex. specialize (Hnex e He). simpl in Hnex.
    tauto.
Qed.

(** C9.  Pruning the isolated vertices is idempotent: after one
    application no vertex of total degree 0 is left, so that a second
    application removes nothing, leaves the graph (vertex count, edges
    and property arrays) as it is, and renumbers every vertex to
    itself. *)
Theorem prune_isolated_idempotent (g : Graph) :
  find_vertex_total_degree (prune_isolated g) 0 = [] /\
  prune_isolated (prune_isolated g) = prune_isolated g /\
  num_vertices (prune_isolated (prune_isolated g))
  = num_vertices (prune_isolated g) /\
  Forall (λ v, new_index (find_vertex_total_degree (prune_isolated g) 0) v = v)
         (vertices (prune_isolated g)).
Proof.
  assert (Hfix : prune_isolated (prune_isolated g) = prune_isolated g).
  { unfold prune_isolated at 1. rewrite prune_isolated_none_left.
    unfold reindex_edges. apply remove_vertex_nil.
    apply remove_vertex_compact. }
  split; [apply prune_isolated_none_left|]. split; [done|].
  split; [by rewrite Hfix|].
  rewrite prune_isolated_none_left. apply Forall_forall. intros v Hv.
  apply elem_of_seqZ in Hv. apply new_index_nil. lia.
Qed.

(** ** [erdos_renyi] when no reciprocity is asked for *)

Lemma parallel_sym d e1 e2 : parallel d e1 e2 -> parallel d e2 e1.
Proof.
  destruct e1 as [s1 t1], e2 as [s2 t2]. unfold parallel. simpl.
  intros [[= -> ->]|[Hd [= -> ->]]]; auto.
Qed.

Lemma first_of_parallel_spec d (P : Z * Z -> Prop) :
  forall l seen,
    Forall P l ->
    Forall P (first_of_parallel d seen l) /\
    Forall (λ x, ¬ Exists (parallel d x) seen) (first_of_parallel d seen l) /\
    no_parallel d (first_of_parallel d seen l).
Proof.
  induction l as [|e l IH]; intros seen HP; simpl; [by repeat constructor|].
  apply Forall_cons in HP as [He HP].
  destruct (decide (Exists (parallel d e) seen)) as [Hsuch|Hnone].
  - by apply IH.
  - destruct (IH (e :: seen) HP) as (H1 & H2 & H3).
    split; [by constructor|]. split; [|split; [|done]].
    + constructor; [done|]. eapply Forall_impl; [exact H2|].
      intros x Hx Hex. apply Hx. by right.
    + eapply Forall_impl; [exact H2|].
      intros x Hx Hpar. apply Hx. left. by apply parallel_sym.
Qed.

Lemma rows2_spec (P : Z -> Prop) :
  forall n l,
    length l = (2 * n)%nat -> Forall P l ->
    length (Np.rows2 l) = n /\
    Forall (λ r, exists a b, r = [a; b] /\ P a /\ P b) (Np.rows2 l).
Proof.
  induction n as [|n IH]; intros l Hlen HP.
  - destruct l; [by split | simpl in Hlen; lia].
  - destruct l as [|a [|b l]]; simpl in Hlen; try lia.
    apply Forall_cons in HP as [Ha HP]. apply Forall_cons in HP as [Hb HP].
    destruct (IH l) as [Hl HF]; [lia | done |]. simpl. split; [lia|].
    constructor; [|done]. eauto.
Qed.

Lemma randint2_draws (high k : Z) (w : World) :
  0 < high -> 0 <= k ->
  exists a,
    Np.randint2 0 high k w = Ok (a, advance (Z.to_N (2 * k)) w) /\
    Z.of_nat (length a) = k /\
    Forall (λ r, exists s t, r = [s; t] /\ 0 <= s < high /\ 0 <= t < high) a.
Proof.
  intros Hhigh Hk. unfold Np.randint2.
  destruct (Z.leb_spec high 0); [lia|].
  destruct (Z.ltb_spec k 0); [lia|]. simpl.
  destruct (randint_draws 0 high (2 * k) w) as (l & Hl & Hlen & HP);
    [lia | lia |].
  destruct (rows2_spec (λ x, 0 <= x < high) (Z.to_nat k) l) as [Hn HF];
    [lia | done |].
  exists (Np.rows2 l). split; [|split; [lia | done]].
  apply bind_Ok. exists l, (advance (Z.to_N (2 * k)) w). by split.
Qed.

Lemma add_edge_list_pairs (nodes : Z) :
  forall a g,
    Forall (λ r, exists s t, r = [s; t] /\ 0 <= s < nodes /\ 0 <= t < nodes) a ->
    0 <= num_vertices g <= nodes ->
    Forall (λ e : Z * Z, 0 <= e.1 < num_vertices g /\ 0 <= e.2 < num_vertices g)
           (edge_list g) ->
    exists g',
      add_edge_list g a = Ok g' /\
      is_directed g' = is_directed g /\
      0 <= num_vertices g' <= nodes /\
      Forall (λ e : Z * Z,
                0 <= e.1 < num_vertices g' /\ 0 <= e.2 < num_vertices g')
             (edge_list g') /\
      length (edge_list g') = (length (edge_list g) + length a)%nat.
Proof.
  induction a as [|r a IH]; intros g Ha HN Hedges.
  - exists g. simpl. repeat split; (done || lia).
  - apply Forall_cons in Ha as [(s & t & -> & Hs & Ht) Ha].
    destruct (IH (add_edge g s t) Ha) as (g' & Hadd & Hd & HN' & He & Hlen).
    + simpl. lia.
    + simpl. apply Forall_app. split.
      * eapply Forall_impl; [exact Hedges|]. simpl. intros e. lia.
      * constructor; [simpl; lia | constructor].
    + exists g'. simpl. split; [done|]. split; [done|].
      split; [done|]. split; [done|].
      rewrite Hlen. simpl. rewrite length_app. simpl. lia.
Qed.

Lemma er_graph_remove_self_loops nodes E directed g :
  is_directed g = directed ->
  0 <= num_vertices g <= nodes ->
  Forall (λ e : Z * Z, 0 <= e.1 < num_vertices g /\ 0 <= e.2 < num_vertices g)
         (edge_list g) ->
  num_edges g <= E ->
  er_graph nodes E directed true (remove_self_loops g).
Proof.
  intros Hd HN Hedges Hcount. unfold er_graph. simpl.
  split; [done|]. split; [done|]. split; [|split; [|split]].
  - apply Forall_forall. intros e He.
    apply list_elem_of_filter in He as [_ He].
    rewrite Forall_forall in Hedges. by apply Hedges.
  - apply Forall_forall. intros e He.
    by apply list_elem_of_filter in He as [He _].
  - discriminate.
  - pose proof (remove_self_loops_num_edges g). lia.
Qed.

Lemma er_graph_remove_parallel_edges nodes E directed multigraph g :
  er_graph nodes E directed true g ->
  er_graph nodes E directed multigraph (remove_parallel_edges g).
Proof.
  intros (Hd & HN & Hedges & Hloops & _ & Hcount). unfold er_graph. simpl.
  destruct (first_of_parallel_spec (is_directed g)
              (λ e : Z * Z, (0 <= e.1 < num_vertices g /\
                            0 <= e.2 < num_vertices g) /\ e.1 ≠ e.2)
              (edge_list g) []) as (HP & _ & Hnp).
  { rewrite Forall_forall in Hedges, Hloops. apply Forall_forall.
    intros e He. split; auto. }
  split; [done|]. split; [done|]. split; [|split; [|split]].
  - eapply Forall_impl; [exact HP|]. by intros e [? _].
  - eapply Forall_impl; [exact HP|]. by intros e [_ ?].
  - intros _. by rewrite <- Hd.
  - pose proof (remove_parallel_edges_num_edges g). lia.
Qed.

Lemma er_graph_allow_parallel nodes E directed multigraph g :
  er_graph nodes E directed true g ->
  multigraph = true ->
  er_graph nodes E directed multigraph g.
Proof. intros (? & ? & ? & ? & ? & ?) ->. done. Qed.

(** With an integer size and a range that is not empty,
    [randint_pairs] is [randint2]. *)
Lemma randint_pairs_int (low high k : Z) (w : World) :
  low < high ->
  randint_pairs low high (PyInt k) w = Np.randint2 low high k w.
Proof.
  intros H. unfold randint_pairs.
  destruct (Z.leb_spec high low); [lia | reflexivity].
Qed.

(** The first loop with an integer target: it does not raise, and it
    stops on the target unless the cap is reached. *)
Lemma er_sample_plain nodes E directed multigraph :
  0 < nodes ->
  forall fuel g t w,
    er_graph nodes E directed multigraph g ->
    exists g' t' K,
      er_sample fuel nodes (PyInt E) multigraph g t (num_edges g) w
      = Ok (g', t', num_edges g', advance K w) /\
      er_graph nodes E directed multigraph g' /\
      t <= t' /\
      (n_MAXTESTS <= Z.of_nat fuel + t -> t' < n_MAXTESTS ->
       num_edges g' = E).
Proof.
  intros Hnodes. induction fuel as [|fuel IH]; intros g t w Hg.
  - exists g, t, 0%N. rewrite advance_0. simpl. split; [done|].
    split; [done|]. split; lia.
  - cbn [er_sample]. unfold ne_int.
    destruct (Z.eqb_spec (num_edges g) E) as [Heq|Hne]; simpl.
    { exists g, t, 0%N. rewrite advance_0. split; [done|].
      split; [done|]. split; [lia | done]. }
    destruct (Z.ltb_spec t n_MAXTESTS) as [Hlt|Hge]; simpl.
    2:{ exists g, t, 0%N. rewrite advance_0. split; [done|].
        split; [done|]. split; lia. }
    destruct Hg as (Hd & HN & Hedges & Hloops & Hnp & Hcount).
    destruct (randint2_draws nodes (E - num_edges g) w)
      as (a & Ha & Hlen & Hrows); [lia | lia |].
    destruct (add_edge_list_pairs nodes a g Hrows HN Hedges)
      as (g1 & Hadd & Hd1 & HN1 & He1 & Hlen1).
    assert (Hg2 : er_graph nodes E directed true (remove_self_loops g1)).
    { apply er_graph_remove_self_loops; [congruence | done | done |].
      unfold num_edges in *. lia. }
    set (g3 := if multigraph then remove_self_loops g1
               else remove_parallel_edges (remove_self_loops g1)).
    assert (Hg3 : er_graph nodes E directed multigraph g3).
    { unfold g3. destruct multigraph eqn:Hm.
      - by apply er_graph_allow_parallel.
      - by apply er_graph_remove_parallel_edges. }
    destruct (IH g3 (t + 1) (advance (Z.to_N (2 * (E - num_edges g))) w) Hg3)
      as (g' & t' & K & Hrun & Hg' & Ht & Hexit).
    exists g', t', (Z.to_N (2 * (E - num_edges g)) + K)%N.
    split; [|split; [done | split; [lia | intros; apply Hexit; lia]]].
    apply bind_Ok. eexists _, _. split.
    { cbn [sub_int]. rewrite randint_pairs_int by lia. exact Ha. }
    apply bind_Ok. exists g1, (advance (Z.to_N (2 * (E - num_edges g))) w).
    split; [by apply lift_Ok|].
    fold g3. by rewrite Hrun, advance_advance.
Qed.

(** Without reciprocity (an undirected graph, or [reciprocity <= 0]),
    for at least one node and a non-negative edge count:
    [erdos_renyi] returns; the graph has at most [nodes] vertices, no
    self-loop, no parallel edges unless they are allowed, at most the
    target number of edges, and exactly that number unless the cap was
    reached; and nothing but the cursor of the generator has moved. *)
Lemma erdos_renyi_plain ce nodes density edges avg_deg reciprocity directed
    multigraph w E :
  ce nodes density edges avg_deg = Ok E ->
  0 < nodes -> 0 <= E ->
  directed = false \/ (reciprocity <= 0)%Q ->
  exists st K,
    erdos_renyi_loops ce nodes density edges avg_deg reciprocity directed
                      multigraph w = Ok (st, advance K w) /\
    erdos_renyi ce nodes density edges avg_deg reciprocity directed
                multigraph w = Ok (graph_er st, advance K w) /\
    er_graph nodes E directed multigraph (graph_er st) /\
    (num_test st < n_MAXTESTS -> num_edges (graph_er st) = E).
Proof.
  intros Hce Hnodes HE Hplain.
  assert (Hstart : er_graph nodes E directed multigraph (Graph_new directed)).
  { unfold er_graph, num_edges. simpl. repeat split; (done || lia). }
  destruct (er_sample_plain nodes E directed multigraph Hnodes
              (Z.to_nat n_MAXTESTS) (Graph_new directed) 0 w Hstart)
    as (g & t & K & Hrun & Hg & Ht & Hexit).
  assert (Hloops :
    erdos_renyi_loops ce nodes density edges avg_deg reciprocity directed
                      multigraph w
    = Ok ({| graph_er := g; num_test := t; num_current_edges := num_edges g;
             pre_recip_edges := PyInt E;
             er_edges := if negb directed
                         then int_of_float (inject_Z E / 2) else E |},
          advance K w)).
  { unfold erdos_renyi_loops, seed.
    apply bind_Ok. exists (), w. split; [reflexivity|].
    apply bind_Ok. exists E, w. split; [by apply lift_Ok|].
    assert (Hrecip : directed && float_gt reciprocity 0 = false).
    { destruct Hplain as [->|Hr]; [done|].
      unfold float_gt. apply Qle_bool_iff in Hr. rewrite Hr.
      by destruct directed. }
    destruct directed; cbn [negb].
    - cbn [andb] in Hrecip. rewrite Hrecip.
      apply bind_Ok. exists (E, PyInt E), w. split; [reflexivity|].
      apply bind_Ok. eexists _, _. split; [exact Hrun|].
      cbn [andb]. reflexivity.
    - apply bind_Ok. exists (int_of_float (inject_Z E / 2), PyInt E), w.
      split; [reflexivity|].
      apply bind_Ok. eexists _, _. split; [exact Hrun|].
      cbn [andb]. reflexivity. }
  eexists _, K. split; [exact Hloops|]. split; [|split].
  - unfold erdos_renyi. apply bind_Ok. eexists _, _. split; [exact Hloops|].
    reflexivity.
  - done.
  - simpl. intros Hlt. apply Hexit; [|done].
    rewrite Z2Nat.id; unfold n_MAXTESTS; lia.
Qed.

(** ** [erdos_renyi] on concrete draws *)

(** C1.  With [nodes = 5], [edges = 8], [reciprocity = 1], a directed
    simple graph, and the draws (0,1), (1,2), (2,3), (3,4) in the first
    loop, then the indices 0, 2, 0, 0 and 5 in the reciprocal loop:
    the first reciprocal round leaves 6 edges, the second draws its
    indices below 6 and looks index 5 up in the four-entry adjacency
    arrays taken before the loop.  [erdos_renyi] raises [IndexError]
    and returns no graph.  (Under a NumPy that refuses float
    dimensions the call stops in the first loop already, on
    [TypeError].) *)
Theorem erdos_renyi_stale_adjacency :
  eval (erdos_renyi Samples.edges_as_given 5 (1 # 10) 8 (-1) 1 true false)
       (world_of [0; 1; 1; 2; 2; 3; 3; 4; 0; 2; 0; 0; 5; 0] [] true)
  = Raise IndexError
  /\
  eval (erdos_renyi Samples.edges_as_given 5 (1 # 10) 8 (-1) 1 true false)
       (world_of [0; 1; 1; 2; 2; 3; 3; 4; 0; 2; 0; 0; 5; 0] [] false)
  = Raise TypeError.
Proof. split; vm_compute; reflexivity. Qed.

(** What holds of the reciprocal case: [frac_recip] is [r / (2 - r)],
    the first loop runs against [pre_recip_edges = E / (1 + frac_recip)]
    and the reciprocal loop against [E]. *)
Lemma erdos_renyi_reduced_target ce nodes density edges avg_deg reciprocity
    multigraph w st w' E :
  ce nodes density edges avg_deg = Ok E ->
  float_gt reciprocity 0 = true ->
  erdos_renyi_loops ce nodes density edges avg_deg reciprocity true
                    multigraph w = Ok (st, w') ->
  exists frac_recip pre,
    truediv reciprocity (2 - reciprocity) = Ok frac_recip /\
    truediv (inject_Z E) (1 + frac_recip) = Ok pre /\
    pre_recip_edges st = PyFloat pre /\
    er_edges st = E.
Proof.
  intros Hce Hr H. unfold erdos_renyi_loops in H.
  apply bind_Ok in H as (? & w0 & _ & H).
  apply bind_Ok in H as (E' & w1 & HE & H).
  apply lift_Ok in HE as [HE _]. rewrite Hce in HE. injection HE as <-.
  cbn [negb] in H. rewrite Hr in H.
  apply bind_Ok in H as ([E1 pre1] & w2 & Hpre & H).
  apply bind_Ok in Hpre as (f & w3 & Hf & Hpre).
  apply bind_Ok in Hpre as (pre & w4 & Hp & Hpre).
  apply ret_Ok in Hpre as [[= -> ->] _].
  apply lift_Ok in Hf as [Hf _]. apply lift_Ok in Hp as [Hp _].
  run_inv H. apply ret_Ok in H as [-> _]. simpl. eauto 10.
Qed.

(** C2.  With [nodes = 4], [edges = 4], [reciprocity = 1], a directed
    simple graph, the draws (0,1), (2,3) in the first loop and the
    indices 0, 1 in the reciprocal loop: the first loop stops at
    [pre_recip_edges = 2] edges, and the reciprocal loop adds 0 -> 2
    and 1 -> 3 (the rows of the stacked index arrays), not the reversed
    copies 1 -> 0 and 3 -> 2.  (With the matrix entries the other way
    round the same two edges are added, in the other order; under a
    NumPy that refuses float dimensions the call stops in the first
    loop, on [TypeError].) *)
Theorem erdos_renyi_reciprocal_rows :
  (exists g,
      eval (erdos_renyi Samples.edges_as_given 4 (1 # 10) 4 (-1) 1
                        true false)
           (world_of [0; 1; 2; 3; 0; 1] [] true) = Ok g /\
      edge_list g = [(0, 1); (2, 3); (0, 2); (1, 3)] /\
      ((1, 0) ∉ edge_list g) /\ ((3, 2) ∉ edge_list g))
  /\
  eval (erdos_renyi Samples.edges_as_given 4 (1 # 10) 4 (-1) 1 true false)
       (world_of [0; 1; 2; 3; 0; 1] [] false)
  = Raise TypeError.
Proof.
  split; [|vm_compute; reflexivity].
  eexists. split; [vm_compute; reflexivity|]. split; [reflexivity|].
  split; intros H; repeat (apply elem_of_cons in H as [[=]|H]);
    by apply elem_of_nil in H.
Qed.

(** C5.  With [nodes = 3], [edges = 1], no reciprocity, and the draw
    (0,1): the graph starts without vertices, [add_edge_list] creates
    vertices 0 and 1, and the graph returned has 2 vertices, not 3. *)
Theorem erdos_renyi_vertex_count :
  exists g,
    eval (erdos_renyi Samples.edges_as_given 3 (1 # 10) 1 (-1) (-1) true false)
         (world_of [0; 1] [] true) = Ok g /\
    edge_list g = [(0, 1)] /\
    num_vertices g = 2.
Proof.
  eexists. split; [vm_compute; reflexivity|]. split; reflexivity.
Qed.

(** ** The sampling loop of [gen_edr] *)

Lemma edr_round_bound geo nNodes numDesired g w g' w' :
  num_edges g < numDesired ->
  edr_round geo nNodes numDesired g (num_edges g) w = Ok (g', w') ->
  num_edges g' <= numDesired.
Proof.
  intros Hlt H. unfold edr_round in H. run_inv H.
  apply ret_Ok in H as [-> _].
  apply lift_Ok in Hrun3 as [Hadd _].
  apply add_edge_list_edges in Hadd as (_ & es & Hes & Hlen).
  etransitivity; [apply remove_parallel_edges_num_edges|].
  etransitivity; [apply remove_self_loops_num_edges|].
  unfold num_edges in *. rewrite Hes, length_app, Hlen.
  set (mask := zip_with float_gt _ _) in *.
  destruct (Z.ltb_spec numDesired
              (Np.count_nonzero mask + Z.of_nat (length (edge_list g))))
    as [Hover|Hfit]; simpl in *.
  - pose proof (transpose2_length
                  (Np.upto (numDesired - Z.of_nat (length (edge_list g)))
                           (Np.compress mask a0))
                  (Np.upto (numDesired - Z.of_nat (length (edge_list g)))
                           (Np.compress mask a1))) as Ht.
    pose proof (upto_length (numDesired - Z.of_nat (length (edge_list g)))
                            (Np.compress mask a0)). lia.
  - pose proof (transpose2_length (Np.compress mask a0)
                                  (Np.compress mask a1)) as Ht.
    pose proof (compress_length mask a0). lia.
Qed.

Lemma edr_sample_bound fuel geo nNodes numDesired :
  forall g t w g' n' t' w',
    edr_sample fuel geo nNodes numDesired g (num_edges g) t w
      = Ok (g', n', t', w') ->
    n' = num_edges g' /\
    ((t' = t /\ g' = g) \/ (t < t' /\ num_edges g' <= numDesired)).
Proof.
  induction fuel as [|fuel IH]; intros g t w g' n' t' w' H; simpl in H.
  - apply ret_Ok in H as [? _]. simplify_eq. auto.
  - destruct (_ && _) eqn:Hguard.
    + apply andb_true_iff in Hguard as [Hlt _]. apply Z.ltb_lt in Hlt.
      apply bind_Ok in H as (g1 & w1 & Hround & H).
      apply edr_round_bound in Hround; [|done].
      apply IH in H as [-> [[-> ->]|[Ht Hb]]]; split; auto; right; split;
        auto; lia.
    + apply ret_Ok in H as [? _]. simplify_eq. auto.
Qed.

Lemma gen_edr_loop_bound place dicProperties w st w' :
  gen_edr_loop place dicProperties w = Ok (st, w') ->
  nEdgesTot st = num_edges (graphEDR st) /\
  (numTest st = 0 \/ num_edges (graphEDR st) <= numDesiredEdges st) /\
  ((forall n rho lambda xs ys,
       geometric_edges (place n rho lambda xs ys) = []) ->
   0 <= numDesiredEdges st ->
   num_edges (graphEDR st) <= numDesiredEdges st) /\
  exists nNodes nEdges rDens d p,
    edr_sizes dicProperties = Ok (nNodes, nEdges, rDens, d) /\
    float_mul_int rDens (nNodes ^ 2) = Ok p /\
    numDesiredEdges st = int_of_float p.
Proof.
  intros H. unfold gen_edr_loop in H. run_inv H.
  apply ret_Ok in H as [-> _]. cbn [graphEDR numTest nEdgesTot numDesiredEdges].
  match goal with
  | Hs : edr_sample _ _ _ _ _ _ _ _ = Ok _ |- _ =>
      apply edr_sample_bound in Hs as [-> Hcase]
  end.
  match goal with
  | Hl : lift (edr_sizes _) _ = Ok _ |- _ => apply lift_Ok in Hl as [Hl _]
  end.
  match goal with
  | Hp : lift (float_mul_int _ _) _ = Ok _ |- _ => apply lift_Ok in Hp as [Hp _]
  end.
  split; [done|]. split; [|split].
  - destruct Hcase as [[-> _]|[_ Hb]]; auto.
  - intros Hgeo Hpos. destruct Hcase as [[_ ->]|[_ Hb]]; [|done].
    unfold num_edges. simpl. by rewrite Hgeo.
  - do 5 eexists. split; [eassumption|]. split; [eassumption | reflexivity].
Qed.

(** C10, as the code has it.  A round of the candidate-sampling loop
    is entered below [numDesiredEdges] and leaves at most
    [numDesiredEdges] edges.  Hence the graph the loop hands on to
    pruning, whose count is the one recorded in [nEdgesTot], has at
    most [numDesiredEdges] edges as soon as one round has run, and
    also, no round having run, when the radius-0 geometric graph of
    line 266 has no edge and the target is not negative.
    [numDesiredEdges] is [int(float(rDens * nNodes ** 2))] for the
    sizes derived from the dictionary, the product being rounded to a
    double. *)
Theorem gen_edr_never_overshoots :
  (forall geo nNodes numDesired g w g' w',
      num_edges g < numDesired ->
      edr_round geo nNodes numDesired g (num_edges g) w = Ok (g', w') ->
      num_edges g' <= numDesired)
  /\
  (forall place dicProperties w st w',
      gen_edr_loop place dicProperties w = Ok (st, w') ->
      nEdgesTot st = num_edges (graphEDR st) /\
      (numTest st = 0 \/ num_edges (graphEDR st) <= numDesiredEdges st) /\
      ((forall n rho lambda xs ys,
           geometric_edges (place n rho lambda xs ys) = []) ->
       0 <= numDesiredEdges st ->
       num_edges (graphEDR st) <= numDesiredEdges st) /\
      exists nNodes nEdges rDens d p,
        edr_sizes dicProperties = Ok (nNodes, nEdges, rDens, d) /\
        float_mul_int rDens (nNodes ^ 2) = Ok p /\
        numDesiredEdges st = int_of_float p).
Proof.
  split; [exact edr_round_bound | exact gen_edr_loop_bound].
Qed.

Lemma gen_edr_never_overshoots_witness :
  (exists g' w',
      edr_round (Samples.sample_place 2 50 (1 # 10) [] []) 2 4
                Samples.two_edges (num_edges Samples.two_edges)
                Samples.counting_world = Ok (g', w') /\
      num_edges g' <= 4)
  /\
  (exists st w',
      gen_edr_loop Samples.sample_place Samples.sample_properties
                   Samples.counting_world = Ok (st, w') /\
      nEdgesTot st = num_edges (graphEDR st) /\
      (numTest st = 0 \/ num_edges (graphEDR st) <= numDesiredEdges st) /\
      num_edges (graphEDR st) <= numDesiredEdges st).
Proof.
  split.
  - eexists _, _. split; [vm_compute; reflexivity|].
    eapply (proj1 gen_edr_never_overshoots
                  (Samples.sample_place 2 50 (1 # 10) [] []) 2 4
                  Samples.two_edges Samples.counting_world);
      [vm_compute; reflexivity | vm_compute; reflexivity].
  - eexists _, _. split; [vm_compute; reflexivity|].
    edestruct (proj2 gen_edr_never_overshoots Samples.sample_place
                     Samples.sample_properties Samples.counting_world)
      as (H1 & H2 & H3 & _); [vm_compute; reflexivity|].
    split; [exact H1|]. split; [exact H2|].
    apply H3; [reflexivity | vm_compute; discriminate].
Defined.

(** C10, as stated, fails.  With two nodes and the density -1 the
    target of line 265 is -4: the loop is not entered, and the graph
    handed on to pruning, with no edge, has more edges than
    [numDesiredEdges]. *)
Lemma gen_edr_negative_target :
  exists st w',
    gen_edr_loop Samples.sample_place Samples.negative_density
                 Samples.counting_world = Ok (st, w') /\
    numTest st = 0 /\
    numDesiredEdges st = -4 /\
    num_edges (graphEDR st) = 0 /\
    ¬ num_edges (graphEDR st) <= numDesiredEdges st.
Proof.
  eexists _, _. split; [vm_compute; reflexivity|].
  split; [reflexivity|]. split; [reflexivity|]. split; [reflexivity|].
  vm_compute. intros H. by apply H.
Qed.

(** The target is computed in double precision.  For seven nodes and
    one edge the density is the double nearest to 1/49; its product
    with 49 rounds to the double below 1, and the target of line 265 is
    0: no round is run. *)
Example gen_edr_seven_nodes :
  exists st w',
    gen_edr_loop Samples.sample_place Samples.seven_nodes
                 Samples.counting_world = Ok (st, w') /\
    edr_properties st !! "Density"
    = Some (PyFloat (5882252574524729 # 288230376151711744)) /\
    numDesiredEdges st = 0 /\
    numTest st = 0.
Proof.
  eexists _, _. split; [vm_compute; reflexivity|].
  split; [vm_compute; reflexivity|]. split; reflexivity.
Qed.

(** ** Edge types *)

Lemma edge_types_spec (p : Q) (us : list Q) :
  Forall2 (λ u t, (t = -1 <-> (u <= p)%Q) /\ (t = 1 <-> ¬ (u <= p)%Q))
          us (edge_types p us).
Proof.
  unfold edge_types. induction us as [|u us IH]; [constructor|].
  rewrite !fmap_cons. constructor; [|exact IH].
  unfold float_gt. destruct (Qle_bool u p) eqn:E; simpl.
  - apply Qle_bool_iff in E. split; split; (done || lia).
  - assert (¬ (u <= p)%Q) by (rewrite <- Qle_bool_iff; congruence).
    split; split; (done || lia).
Qed.

Lemma edge_types_signs (p : Q) (us : list Q) :
  Forall (λ t, t = 1 \/ t = -1) (edge_types p us).
Proof.
  unfold edge_types. rewrite <- list_fmap_compose.
  apply Forall_fmap, Forall_forall. intros u _. simpl.
  destruct (float_gt u p); auto.
Qed.

Lemma edge_types_length (p : Q) (us : list Q) :
  length (edge_types p us) = length us.
Proof. unfold edge_types. by rewrite !length_fmap. Qed.

Lemma label_edges_draws (g : Graph) (dicProperties : gmap string value)
    (nEdges : Z) (p : Q) (w : World) :
  0 <= nEdges ->
  dicProperties !! "InhibFrac" = Some (PyFloat p) ->
  exists us,
    Np.uniform01 nEdges w = Ok (us, advance (Z.to_N nEdges) w) /\
    Z.of_nat (length us) = nEdges /\
    Forall (λ u, 0 <= u /\ u < 1)%Q us /\
    label_edges g dicProperties nEdges w
    = Ok (set_edge_property g "type" (IntArray (edge_types p us)),
          Np.count_nonzero ((λ u, float_gt u p) <$> us),
          advance (Z.to_N nEdges) w).
Proof.
  intros HE Hp.
  destruct (uniform01_draws nEdges w HE) as (us & Hus & Hlen & Hrange).
  exists us. split; [done|]. split; [done|]. split; [done|].
  unfold label_edges, number, getitem. rewrite Hp.
  apply bind_Ok. exists p, w. split; [reflexivity|].
  apply bind_Ok. exists us, (advance (Z.to_N nEdges) w).
  split; [exact Hus | reflexivity].
Qed.

Lemma weigh_edges_edge_list globals m g d nEdges nExc w g' w' :
  weigh_edges globals m g d nEdges nExc w = Ok (g', w') ->
  edge_list g' = edge_list g /\ num_vertices g' = num_vertices g.
Proof.
  unfold weigh_edges. intros H. run_inv H.
  destruct (truthy _).
  - run_inv H. apply ret_Ok in H as [-> _]. done.
  - apply ret_Ok in H as [-> _]. done.
Qed.

Lemma weigh_edges_type globals m g d nEdges nExc w g' w' :
  weigh_edges globals m g d nEdges nExc w = Ok (g', w') ->
  edge_properties g' !! "type" = edge_properties g !! "type".
Proof.
  unfold weigh_edges. intros H. run_inv H.
  destruct (truthy _).
  - run_inv H. apply ret_Ok in H as [-> _]. simpl.
    by rewrite lookup_insert_ne.
  - apply ret_Ok in H as [-> _]. done.
Qed.

(** C6.  Edge labelling, for [E] edges and an inhibitory fraction [p]:
    [E] variates of [0, 1) are drawn (the generator moves on by exactly
    [E] cells), the type array has one entry per variate, the entry is
    -1 exactly when its variate is at most [p] and +1 exactly when it
    is not, so every entry is +1 or -1.  In a graph [gen_edr] returns,
    the "type" property has one such entry per edge. *)
Theorem edge_labelling :
  (forall (g : Graph) (dicProperties : gmap string value) (nEdges : Z)
          (p : Q) (w : World),
      0 <= nEdges ->
      dicProperties !! "InhibFrac" = Some (PyFloat p) ->
      exists us ts,
        Np.uniform01 nEdges w = Ok (us, advance (Z.to_N nEdges) w) /\
        Z.of_nat (length us) = nEdges /\
        Z.of_nat (length ts) = nEdges /\
        Forall (λ u, 0 <= u /\ u < 1)%Q us /\
        label_edges g dicProperties nEdges w
        = Ok (set_edge_property g "type" (IntArray ts),
              Np.count_nonzero ((λ u, float_gt u p) <$> us),
              advance (Z.to_N nEdges) w) /\
        edge_properties (set_edge_property g "type" (IntArray ts)) !! "type"
        = Some (IntArray ts) /\
        Forall2 (λ u t, (t = -1 <-> (u <= p)%Q) /\ (t = 1 <-> ¬ (u <= p)%Q))
                us ts /\
        Forall (λ t, t = 1 \/ t = -1) ts)
  /\
  (forall globals m place dicProperties w g w',
      gen_edr globals m place dicProperties w = Ok (g, w') ->
      exists ts,
        edge_properties g !! "type" = Some (IntArray ts) /\
        length ts = length (edge_list g) /\
        Forall (λ t, t = 1 \/ t = -1) ts).
Proof.
  split.
  - intros g d nEdges p w HE Hp.
    destruct (label_edges_draws g d nEdges p w HE Hp)
      as (us & Hus & Hlen & Hrange & Hlabel).
    exists us, (edge_types p us).
    split; [done|]. split; [done|].
    split; [by rewrite edge_types_length|]. split; [done|].
    split; [done|]. split; [apply lookup_insert_eq|].
    split; [apply edge_types_spec | apply edge_types_signs].
  - intros globals m place d w g w' H.
    unfold gen_edr in H. apply bind_Ok in H as (st & w1 & _ & H).
    unfold gen_edr_finish, decorate in H. run_inv H.
    match goal with
    | Hl : label_edges _ _ _ _ = Ok _ |- _ =>
        unfold label_edges in Hl; run_inv Hl;
        apply ret_Ok in Hl as [? _]; simplify_eq
    end.
    pose proof (weigh_edges_type _ _ _ _ _ _ _ _ _ H) as Htype.
    pose proof (weigh_edges_edge_list _ _ _ _ _ _ _ _ _ H) as [Hedges _].
    change (edge_list g = edge_list (prune_isolated (graphEDR st))) in Hedges.
    simpl in Htype. rewrite lookup_insert_eq in Htype.
    eexists. split; [exact Htype|]. split; [|apply edge_types_signs].
    rewrite edge_types_length, Hedges.
    match goal with
    | Hu : Np.uniform01 ?n ?w0 = Ok _ |- _ =>
        destruct (uniform01_draws n w0) as (us & Hus & Hlen & _);
        [unfold num_edges; lia|];
        rewrite Hus in Hu; simplify_eq
    end.
    unfold num_edges in Hlen. lia.
Qed.

Lemma edge_labelling_witness :
  exists us ts,
    Np.uniform01 2 Samples.counting_world
    = Ok (us, advance (Z.to_N 2) Samples.counting_world) /\
    Z.of_nat (length us) = 2 /\
    Z.of_nat (length ts) = 2 /\
    Forall (λ u, 0 <= u /\ u < 1)%Q us /\
    label_edges Samples.two_edges Samples.sample_properties 2
                Samples.counting_world
    = Ok (set_edge_property Samples.two_edges "type" (IntArray ts),
          Np.count_nonzero ((λ u, float_gt u (1 # 5)) <$> us),
          advance (Z.to_N 2) Samples.counting_world) /\
    edge_properties (set_edge_property Samples.two_edges "type" (IntArray ts))
      !! "type"
    = Some (IntArray ts) /\
    Forall2 (λ u t, (t = -1 <-> (u <= 1 # 5)%Q) /\
                    (t = 1 <-> ¬ (u <= 1 # 5)%Q)) us ts /\
    Forall (λ t, t = 1 \/ t = -1) ts.
Proof.
  apply (proj1 edge_labelling Samples.two_edges Samples.sample_properties
                2 (1 # 5)%Q Samples.counting_world);
    [lia | vm_compute; reflexivity].
Defined.

(** ** Leaving the loops *)

Lemma er_sample_count fuel nodes pre multigraph :
  forall g t c w g' t' c' w',
    er_sample fuel nodes pre multigraph g t c w = Ok (g', t', c', w') ->
    c = num_edges g -> c' = num_edges g'.
Proof.
  induction fuel as [|fuel IH]; intros g t c w g' t' c' w' H Hc; simpl in H.
  - apply ret_Ok in H as [? _]. by simplify_eq.
  - destruct (_ && _).
    + run_inv H. eapply IH; [exact H | reflexivity].
    + apply ret_Ok in H as [? _]. by simplify_eq.
Qed.

Lemma er_reciprocate_count fuel coo edges multigraph :
  forall g t c w g' t' c' w',
    er_reciprocate fuel coo edges multigraph g t c w = Ok (g', t', c', w') ->
    c = num_edges g -> c' = num_edges g'.
Proof.
  induction fuel as [|fuel IH]; intros g t c w g' t' c' w' H Hc; simpl in H.
  - apply ret_Ok in H as [? _]. by simplify_eq.
  - destruct (_ && _).
    + run_inv H. eapply IH; [exact H | reflexivity].
    + apply ret_Ok in H as [? _]. by simplify_eq.
Qed.

Lemma erdos_renyi_loops_count ce nodes density edges avg_deg reciprocity
    directed multigraph w st w' :
  erdos_renyi_loops ce nodes density edges avg_deg reciprocity directed
                    multigraph w = Ok (st, w') ->
  num_current_edges st = num_edges (graph_er st).
Proof.
  intros H. unfold erdos_renyi_loops in H. run_inv H.
  apply ret_Ok in H as [-> _]. simpl.
  match goal with
  | H1 : er_sample _ _ _ _ _ _ _ _ = Ok _ |- _ =>
      apply er_sample_count in H1; [|reflexivity]
  end.
  destruct (_ && _).
  - match goal with
    | H2 : er_reciprocate _ _ _ _ _ _ _ _ = Ok _ |- _ =>
        by apply er_reciprocate_count in H2
    end.
  - match goal with
    | H2 : mret _ _ = Ok _ |- _ => apply ret_Ok in H2 as [? _]
    end. by simplify_eq.
Qed.

Lemma gen_edr_finish_edge_list globals m st w g w' :
  gen_edr_finish globals m st w = Ok (g, w') ->
  edge_list g = edge_list (prune_isolated (graphEDR st)) /\
  num_vertices g = num_vertices (prune_isolated (graphEDR st)).
Proof.
  unfold gen_edr_finish, decorate, label_edges. intros H. run_inv H.
  match goal with
  | H1 : (number _ _ ≫= _) _ = Ok _ |- _ =>
      run_inv H1; apply ret_Ok in H1 as [? _]; simplify_eq
  end.
  by apply weigh_edges_edge_list in H.
Qed.

(** ** [random_free_scale] *)

Lemma raises_only_div0 {B} (P : exn -> Prop) x (k : Q -> M B) :
  P ZeroDivisionError ->
  raises_only P (lift (truediv x (inject_Z 0)) ≫= k).
Proof. intros HP w e H. injection H as <-. exact HP. Qed.

(** Lines 128-146 never get past line 146: [nNodes] is 0 there. *)
Lemma random_free_scale_raises globals ce rest nodes density edges avg_deg
    reciprocity in_exp out_exp directed multigraph :
  raises_only
    (λ e, e = InvalidParameter ->
          ce nodes density edges avg_deg = Raise InvalidParameter)
    (random_free_scale globals ce rest nodes density edges avg_deg
                       reciprocity in_exp out_exp directed multigraph).
Proof.
  unfold random_free_scale, seed.
  apply raises_only_bind; [apply raises_only_ret | intros _].
  apply raises_only_bind; [apply raises_only_lift; by intros e -> -> | intros E].
  apply raises_only_bind; [by apply raises_only_load_global | intros d].
  apply raises_only_bind; [by apply raises_only_number | intros f].
  apply raises_only_bind; [by apply raises_only_truediv | intros fr].
  apply raises_only_bind; [by apply raises_only_number | intros rIn].
  apply raises_only_bind; [by apply raises_only_number | intros rOut].
  apply raises_only_bind.
  - destruct (Qeq_bool (1 + fr) 0);
      [by apply raises_only_raise | apply raises_only_ret].
  - intros nArcs. by apply raises_only_div0.
Qed.

(** C4, as the code has it.  [random_free_scale] checks neither
    exponent nor the node count: [in_exp] and [out_exp] have no
    influence on what a call does, and a call fails with
    [InvalidParameter] exactly when [_compute_edges] does. *)
Theorem random_free_scale_unchecked globals ce rest nodes density edges
    avg_deg reciprocity in_exp out_exp directed multigraph w :
  (forall in_exp' out_exp',
      random_free_scale globals ce rest nodes density edges avg_deg
                        reciprocity in_exp' out_exp' directed multigraph
      = random_free_scale globals ce rest nodes density edges avg_deg
                          reciprocity in_exp out_exp directed multigraph)
  /\
  (eval (random_free_scale globals ce rest nodes density edges avg_deg
                           reciprocity in_exp out_exp directed multigraph) w
   = Raise InvalidParameter
   <-> ce nodes density edges avg_deg = Raise InvalidParameter).
Proof.
  split; [reflexivity|]. rewrite eval_Raise. split.
  - intros H. by eapply random_free_scale_raises.
  - intros H. unfold random_free_scale, seed.
    apply bind_Raise. right. exists (), w. split; [reflexivity|].
    apply bind_Raise. left. by rewrite H.
Qed.

Lemma random_free_scale_unchecked_witness :
  eval (random_free_scale graph_connectivity Samples.edges_rejected
          Samples.unreached 100 (1 # 10) 1000 (-1) 0 (5 # 2) (5 # 2)
          true false) Samples.counting_world
  = Raise InvalidParameter.
Proof.
  apply (random_free_scale_unchecked graph_connectivity
           Samples.edges_rejected Samples.unreached 100 (1 # 10) 1000 (-1)
           0 (5 # 2) (5 # 2) true false Samples.counting_world).
  reflexivity.
Defined.

(** C4, as stated, fails: with the infinite-mean exponents
    [in_exp = out_exp = 2], and also with a single node, the call does
    not fail with [InvalidParameter]; it stops on the unbound name
    [dicProperties] (or, were the name bound, on the division by
    [nNodes = 0] of line 146). *)
Lemma random_free_scale_accepts_exponent_2 :
  eval (random_free_scale graph_connectivity Samples.edges_as_given
          Samples.unreached 100 (1 # 10) 1000 (-1) 0 2 2 true false)
       Samples.counting_world
  = Raise (NameError "dicProperties")
  /\
  eval (random_free_scale graph_connectivity Samples.edges_as_given
          Samples.unreached 1 (1 # 10) 0 (-1) 0 (5 # 2) (5 # 2)
          true false)
       Samples.counting_world
  = Raise (NameError "dicProperties")
  /\
  eval (random_free_scale
          {| global_dicProperties :=
               Some (list_to_map [("Reciprocity", PyFloat 0);
                                  ("InDeg", PyFloat 2);
                                  ("OutDeg", PyFloat 2)]);
             global_betweenness := None;
             global_rScaleInhib := None |}
          Samples.edges_as_given Samples.unreached 100 (1 # 10) 1000 (-1)
          0 2 2 true false)
       Samples.counting_world
  = Raise ZeroDivisionError.
Proof. repeat split; vm_compute; reflexivity. Qed.

(** ** Weights *)

Lemma fmax2_same a : Np.fmax2 a a = a.
Proof.
  destruct a as [x|s|]; unfold Np.fmax2; simpl; try done.
  - by destruct (Qle_bool x x).
  - by destruct s.
Qed.

Lemma fmin2_same a : Np.fmin2 a a = a.
Proof.
  destruct a as [x|s|]; unfold Np.fmin2; simpl; try done.
  - by destruct (Qle_bool x x).
  - by destruct s.
Qed.

Lemma amax_replicate n a : Np.amax (replicate (S n) a) = Ok a.
Proof.
  simpl. f_equal. induction n as [|n IH]; [done|].
  simpl. by rewrite fmax2_same.
Qed.

Lemma amin_replicate n a : Np.amin (replicate (S n) a) = Ok a.
Proof.
  simpl. f_equal. induction n as [|n IH]; [done|].
  simpl. by rewrite fmin2_same.
Qed.

(** Rescaling a value that is both the minimum and the maximum divides
    zero by zero. *)
Lemma rescale_degenerate a :
  Np.fdiv (Np.fmul (Np.Fin 2) (Np.fsub a a)) (Np.fsub a a) = Np.NaN.
Proof.
  destruct a as [x|s|]; simpl; try done.
  - assert (Hz : Qeq_bool (x + - x) 0 = true)
      by (apply Qeq_bool_iff; lra).
    assert (Hz2 : Qeq_bool (2 * (x + - x)) 0 = true)
      by (apply Qeq_bool_iff; lra).
    by rewrite Hz, Hz2.
  - by destruct s.
Qed.

Lemma betweenness_never_invalid_input globals m graph d nEdges nExc :
  raises_only (λ e, e ≠ InvalidInput)
    (betweenness_correlated_weights globals m graph d nEdges nExc).
Proof.
  unfold betweenness_correlated_weights.
  apply raises_only_bind.
  { destruct (nEdges <? 0);
      [by apply raises_only_raise | apply raises_only_ret]. }
  intros _.
  apply raises_only_bind; [by apply raises_only_number | intros rMin].
  apply raises_only_bind; [by apply raises_only_number | intros rMax].
  apply raises_only_bind; [by apply raises_only_load_global | intros b].
  apply raises_only_bind; [by apply raises_only_amax | intros M1].
  apply raises_only_bind; [by apply raises_only_amin | intros M2].
  apply raises_only_bind; [by apply raises_only_amax | intros M3].
  apply raises_only_bind; [by apply raises_only_amin | intros M4].
  apply raises_only_ret.
Qed.

(** C7, as the code has it.  The betweenness-correlated strategy has no
    guard for degenerate input: it never fails with [InvalidInput];
    and when [betweenness] is available and gives every edge the same
    value, the rescaling divides by [rMaxLogBetw - rMinLogBetw = 0] and
    every weight returned is NaN. *)
Theorem betweenness_degenerate_unguarded globals m graph dicProperties
    nEdges nExc w :
  eval (betweenness_correlated_weights globals m graph dicProperties
                                       nEdges nExc) w
  ≠ Raise InvalidInput
  /\
  (forall betweenness x n rMin rMax,
      global_betweenness globals = Some betweenness ->
      betweenness graph = replicate (S n) x ->
      0 <= nEdges ->
      dicProperties !! "Min" = Some (PyFloat rMin) ->
      dicProperties !! "Max" = Some (PyFloat rMax) ->
      eval (betweenness_correlated_weights globals m graph dicProperties
                                           nEdges nExc) w
      = Ok (replicate (S n) Np.NaN)).
Proof.
  split.
  - intros H. apply eval_Raise in H.
    by apply betweenness_never_invalid_input in H.
  - intros b x n rMin rMax Hb Hflat HE HMin HMax.
    unfold eval, betweenness_correlated_weights, number, getitem.
    rewrite HMin, HMax, Hb.
    destruct (Z.ltb_spec nEdges 0); [lia|].
    unfold mbind, M_bind, Py.bind, lift, mret, M_ret, Py.ret,
      load_global, result_bind, result_ret, as_float. cbv beta iota.
    rewrite Hflat, !fmap_replicate, amax_replicate, amin_replicate.
    cbv beta iota. rewrite !fmap_replicate, rescale_degenerate.
    change (Np.exp m (Np.fmul (Np.Fin (Np.libm_log_10 m))
                              (Np.fadd (Np.Fin (-5)) Np.NaN)))
      with Np.NaN.
    rewrite amax_replicate, amin_replicate. cbv beta iota.
    by rewrite fmap_replicate.
Qed.

Lemma betweenness_degenerate_unguarded_witness :
  eval (betweenness_correlated_weights Samples.flat_betweenness
          Samples.sample_libm Samples.two_edges Samples.range_0_1 2 1)
       Samples.counting_world
  = Ok (replicate 2 Np.NaN).
Proof.
  apply (proj2 (betweenness_degenerate_unguarded Samples.flat_betweenness
                  Samples.sample_libm Samples.two_edges Samples.range_0_1
                  2 1 Samples.counting_world)
               (fun g => replicate (length (edge_list g)) 3%Q) 3%Q 1%nat
               0%Q 1%Q);
    [reflexivity | reflexivity | lia | reflexivity | reflexivity].
Defined.

(** C7, as stated, fails: on a graph whose two edges have the same
    betweenness the strategy does not fail with [InvalidInput].  In
    the module as written it stops on the unbound name [betweenness];
    with the name bound it returns NaN for both edges. *)
Lemma betweenness_degenerate_not_rejected :
  eval (betweenness_correlated_weights graph_connectivity
          Samples.sample_libm Samples.two_edges Samples.range_0_1 2 1)
       Samples.counting_world
  = Raise (NameError "betweenness")
  /\
  eval (betweenness_correlated_weights Samples.flat_betweenness
          Samples.sample_libm Samples.two_edges Samples.range_0_1 2 1)
       Samples.counting_world
  = Ok [Np.NaN; Np.NaN].
Proof. split; vm_compute; reflexivity. Qed.

(** C8.  The strategy registered under "Betweenness", called on a
    graph with two edges and the range [0, 1], returns no weights: the
    name [betweenness] is not bound in the module and the call raises
    [NameError]. *)
Theorem betweenness_weights_unavailable :
  exists strategy,
    dicGenWeights graph_connectivity Samples.sample_libm "Betweenness"
    = Some strategy /\
    eval (strategy Samples.two_edges Samples.range_0_1 2 1)
         Samples.counting_world
    = Raise (NameError "betweenness").
Proof. eexists. split; [reflexivity | vm_compute; reflexivity]. Qed.

(** ** The sign of the weights *)

Lemma absolute_nonnegative a : a ≠ Np.NaN -> nonnegative (absolute a).
Proof.
  destruct a as [x|s|]; intros Hnan; [| done | done].
  unfold nonnegative. simpl. apply Qle_bool_iff, Qabs_nonneg.
Qed.

Lemma lognormal_not_nan m mean sigma size w l w' :
  (forall x, Np.libm_exp m x ≠ Np.NaN) ->
  lognormal m mean sigma size w = Ok (l, w') ->
  Forall (λ a, a ≠ Np.NaN) l.
Proof.
  intros Hexp. unfold lognormal. destruct (_ || _); [discriminate|].
  generalize (Z.to_nat size). intros n. revert w l w'.
  induction n as [|n IH]; intros w l w' H; simpl in H.
  - apply ret_Ok in H as [-> _]. constructor.
  - run_inv H. apply ret_Ok in H as [-> _].
    match goal with
    | H1 : (Np.next_real ≫= _) _ = Ok _ |- _ =>
        run_inv H1; apply ret_Ok in H1 as [-> _]
    end.
    constructor; [apply Hexp | by eapply IH].
Qed.

(** What the Gaussian, log-normal and degree strategies return is
    [>= 0] (the exponential of the library never being NaN).  For the
    log-normal strategy this is about the calls that return, and none
    does unless something binds [rScaleInhib]. *)
Lemma weights_nonnegative globals m name strategy g d nEdges nExc w ws w' :
  name ∈ ["Gaussian"; "Lognormal"; "Degree"] ->
  (forall x, Np.libm_exp m x ≠ Np.NaN) ->
  dicGenWeights globals m name = Some strategy ->
  strategy g d nEdges nExc w = Ok (ws, w') ->
  Forall nonnegative ws.
Proof.
  intros Hname Hexp Hs H.
  repeat (apply elem_of_cons in Hname as [->|Hname]);
    [| | |by apply elem_of_nil in Hname];
    injection Hs as <-.
  - unfold gaussian_weights in H. run_inv H. apply ret_Ok in H as [-> _].
    apply Forall_app. split; apply Forall_fmap, Forall_fmap, Forall_forall;
      intros x _; by apply absolute_nonnegative.
  - unfold lognormal_weights in H. run_inv H. apply ret_Ok in H as [-> _].
    apply Forall_app.
    split; apply Forall_fmap;
      (eapply Forall_impl;
       [eapply lognormal_not_nan; [exact Hexp | eassumption]
       | intros y Hy; by apply absolute_nonnegative]).
  - unfold degree_correlated_weights in H.
    destruct (nEdges <? 0); [discriminate|].
    apply ret_Ok in H as [-> _].
    apply Forall_forall. intros y Hy. apply elem_of_replicate in Hy as [-> _].
    reflexivity.
Qed.

(** ** [erdos_renyi] at the edges of its domain *)


Lemma fuel_succ : Z.to_nat n_MAXTESTS = S (Z.to_nat (n_MAXTESTS - 1)).
Proof. reflexivity. Qed.




(** The first round of the first loop when the size handed to
    [randint] is refused. *)
Lemma er_sample_refused fuel nodes E multigraph g t w :
  E ≠ num_edges g -> t < n_MAXTESTS ->
  nodes <= 0 \/ E < num_edges g ->
  er_sample (S fuel) nodes (PyInt E) multigraph g t (num_edges g) w
  = Raise ValueError.
Proof.
  intros HE Ht Hbad. cbn [er_sample]. unfold ne_int.
  destruct (Z.eqb_spec (num_edges g) E); [congruence|].
  destruct (Z.ltb_spec t n_MAXTESTS); [|lia]. cbn [negb andb].
  apply bind_Raise. left. cbn [sub_int].
  destruct (Z.leb_spec nodes 0) as [Hle|Hnodes].
  - unfold randint_pairs. destruct (Z.leb_spec nodes 0); [reflexivity | lia].
  - rewrite randint_pairs_int by lia. unfold Np.randint2.
    destruct (Z.leb_spec nodes 0), (Z.ltb_spec (E - num_edges g) 0);
      try reflexivity; lia.
Qed.

(** X2.  Sizes [randint] refuses.  Without reciprocity, when the
    target is not zero and either there is no node to draw from or the
    target is negative, [erdos_renyi] stops on the [ValueError] of
    line 71. *)
Theorem erdos_renyi_bad_sizes ce nodes density edges avg_deg reciprocity
    directed multigraph w E :
  ce nodes density edges avg_deg = Ok E ->
  directed = false \/ (reciprocity <= 0)%Q ->
  E ≠ 0 ->
  nodes <= 0 \/ E < 0 ->
  eval (erdos_renyi ce nodes density edges avg_deg reciprocity directed
                    multigraph) w
  = Raise ValueError.
Proof.
  intros Hce Hplain HE Hbad. apply eval_Raise.
  unfold erdos_renyi. apply bind_Raise. left.
  unfold erdos_renyi_loops, seed.
  apply bind_Raise. right. exists (), w. split; [reflexivity|].
  apply bind_Raise. right. exists E, w. split; [by apply lift_Ok|].
  assert (Hrecip : directed && float_gt reciprocity 0 = false).
  { destruct Hplain as [->|Hr]; [done|].
    unfold float_gt. apply Qle_bool_iff in Hr. rewrite Hr.
    by destruct directed. }
  assert (Hfirst : forall d,
    er_sample (Z.to_nat n_MAXTESTS) nodes (PyInt E) multigraph
              (Graph_new d) 0 0 w = Raise ValueError).
  { intros d. rewrite fuel_succ.
    apply (er_sample_refused _ nodes E multigraph (Graph_new d) 0 w);
      unfold num_edges, n_MAXTESTS; simpl; lia. }
  destruct directed; cbn [negb].
  - cbn [andb] in Hrecip. rewrite Hrecip.
    apply bind_Raise. right. exists (E, PyInt E), w. split; [reflexivity|].
    apply bind_Raise. left. apply Hfirst.
  - apply bind_Raise. right.
    exists (int_of_float (inject_Z E / 2), PyInt E), w.
    split; [reflexivity|].
    apply bind_Raise. left. apply Hfirst.
Qed.

Lemma erdos_renyi_bad_sizes_witness :
  eval (erdos_renyi Samples.edges_as_given 0 (1 # 10) 3 (-1) (-1) true false)
       Samples.counting_world
  = Raise ValueError.
Proof.
  apply (erdos_renyi_bad_sizes Samples.edges_as_given 0 (1 # 10)%Q 3 (-1)%Q
           (-1)%Q true false Samples.counting_world 3);
    [reflexivity | right; by vm_compute | lia | left; lia].
Defined.




(** ** The reciprocal phase, round by round *)

(** X4.  Lines 80-88.  The array handed to [add_edge_list] at line 83
    has two rows, the sources and the targets looked up in the
    adjacency matrix, and [add_edge_list] reads one edge per row: a
    round of the reciprocal loop adds at most two edges, however many
    are missing.  So after the loop the graph has at most two edges
    per round more than before. *)
Theorem reciprocal_phase_two_edges_a_round fuel coo edges multigraph :
  forall g t c w g' t' c' w',
    er_reciprocate fuel coo edges multigraph g t c w = Ok (g', t', c', w') ->
    t <= t' /\ num_edges g' <= num_edges g + 2 * (t' - t).
Proof.
  induction fuel as [|fuel IH]; intros g t c w g' t' c' w' H;
    cbn [er_reciprocate] in H.
  - apply ret_Ok in H as [? _]. simplify_eq. lia.
  - destruct (_ && _).
    + apply bind_Ok in H as (idx & w1 & _ & H).
      apply bind_Ok in H as (cs & w2 & _ & H).
      apply bind_Ok in H as (rs & w3 & _ & H).
      apply bind_Ok in H as (g1 & w4 & Hadd & H).
      apply lift_Ok in Hadd as [Hadd _].
      apply add_edge_list_edges in Hadd as (_ & es & Hes & Hlen).
      apply IH in H as [Ht Hcount].
      assert (Hround :
        num_edges (if multigraph then remove_self_loops g1
                   else remove_parallel_edges (remove_self_loops g1))
        <= num_edges g + 2).
      { assert (num_edges g1 = num_edges g + 2)
          by (unfold num_edges; rewrite Hes, length_app, Hlen; simpl; lia).
        pose proof (remove_self_loops_num_edges g1).
        pose proof (remove_parallel_edges_num_edges (remove_self_loops g1)).
        destruct multigraph; lia. }
      lia.
    + apply ret_Ok in H as [? _]. simplify_eq. lia.
Qed.

Lemma reciprocal_phase_two_edges_a_round_witness :
  exists g' t' c' w',
    er_reciprocate 1 {| row := [1; 3; 0]; col := [0; 2; 4] |} 6 false
      (with_edges (Graph_new true) 5 [(0, 1); (2, 3); (4, 0)]) 1 3
      Samples.counting_world = Ok (g', t', c', w') /\
    1 <= t' /\
    num_edges g'
    <= num_edges (with_edges (Graph_new true) 5 [(0, 1); (2, 3); (4, 0)])
       + 2 * (t' - 1).
Proof.
  eexists _, _, _, _. split; [vm_compute; reflexivity|].
  eapply (reciprocal_phase_two_edges_a_round 1
            {| row := [1; 3; 0]; col := [0; 2; 4] |} 6 false
            (with_edges (Graph_new true) 5 [(0, 1); (2, 3); (4, 0)]) 1 3
            Samples.counting_world).
  vm_compute; reflexivity.
Defined.

(** ** [random_free_scale] never returns *)

Lemma bind_never {A B} (m : M A) (k : A -> M B) w :
  (forall a w1, m w = Ok (a, w1) -> exists e, k a w1 = Raise e) ->
  exists e, (m ≫= k) w = Raise e.
Proof.
  intros Hk. unfold mbind, M_bind, Py.bind.
  destruct (m w) as [[a w1]|e]; [by apply Hk | eauto].
Qed.

(** X5.  As the file has it, [random_free_scale] cannot return a
    graph.  With the name [dicProperties] unbound, as in the file, a
    call that gets past [_compute_edges] stops on [NameError] at line
    135.  Were the name bound to a dictionary of Python numbers (int,
    float or bool entries, strings being refused by the arithmetic),
    the call would raise at line 146 at the latest, whatever its
    arguments and whatever [_compute_edges] does: [nArcs * (rInDeg -
    1)] is divided there by [nNodes = 0], an int.  Dictionaries that
    hold NumPy scalars, on which that division does not raise, are not
    among the values [global_dicProperties] ranges over. *)
Theorem random_free_scale_never_returns globals ce rest nodes density edges
    avg_deg reciprocity in_exp out_exp directed multigraph w :
  (exists e,
      eval (random_free_scale globals ce rest nodes density edges avg_deg
                              reciprocity in_exp out_exp directed multigraph) w
      = Raise e)
  /\
  (forall E,
      ce nodes density edges avg_deg = Ok E ->
      eval (random_free_scale graph_connectivity ce rest nodes density edges
                              avg_deg reciprocity in_exp out_exp directed
                              multigraph) w
      = Raise (NameError "dicProperties")).
Proof.
  split.
  - assert (H : exists e,
        random_free_scale globals ce rest nodes density edges avg_deg
                          reciprocity in_exp out_exp directed multigraph w
        = Raise e).
    { unfold random_free_scale, seed.
      do 8 (apply bind_never; intros ? ? _).
      exists ZeroDivisionError. reflexivity. }
    destruct H as (e & He). exists e. by apply eval_Raise.
  - intros E HE. apply eval_Raise. unfold random_free_scale, seed.
    apply bind_Raise. right. exists (), w. split; [reflexivity|].
    apply bind_Raise. right. exists E, w. split; [by apply lift_Ok|].
    apply bind_Raise. left. reflexivity.
Qed.

Lemma random_free_scale_never_returns_witness :
  eval (random_free_scale graph_connectivity Samples.edges_as_given
          Samples.unreached 100 (1 # 10) 1000 (-1) 0 (5 # 2) (5 # 2)
          true false) Samples.counting_world
  = Raise (NameError "dicProperties").
Proof.
  apply (proj2 (random_free_scale_never_returns graph_connectivity
                  Samples.edges_as_given Samples.unreached 100 (1 # 10)%Q
                  1000 (-1)%Q 0%Q (5 # 2)%Q (5 # 2)%Q true false
                  Samples.counting_world) 1000).
  reflexivity.
Defined.

(** ** The dictionary after the sizes are computed *)



Lemma edr_sizes_frame d nNodes nEdges rDens d' :
  edr_sizes d = Ok (nNodes, nEdges, rDens, d') ->
  exists key v, key ∈ ["Nodes"; "Edges"; "Density"] /\ d' = <[key := v]> d.
Proof.
  unfold edr_sizes. intros H.
  destruct (decide (is_Some (d !! "Nodes"))).
  - apply result_bind_Ok in H as (n & Hn & H).
    destruct (decide (is_Some (d !! "Edges"))).
    + apply result_bind_Ok in H as (e & He & H).
      apply result_bind_Ok in H as (y & Hy & H).
      apply result_bind_Ok in H as (r & Hr & H). injection H as <- <- <- <-.
      exists "Density", (PyFloat r). split; [set_solver | done].
    + apply result_bind_Ok in H as (r & Hr & H).
      apply result_bind_Ok in H as (p & Hp & H).
      destruct (is_inf p); [discriminate|]. injection H as <- <- <- <-.
      eexists "Edges", _. split; [set_solver | done].
  - apply result_bind_Ok in H as (e & He & H).
    apply result_bind_Ok in H as (r & Hr & H).
    apply result_bind_Ok in H as (q & Hq & H).
    destruct (Np.is_neg q); [discriminate|].
    destruct (is_inf q); [discriminate|]. injection H as <- <- <- <-.
    eexists "Nodes", _. split; [set_solver | done].
Qed.






(** X7.  Lines 240-259 with too few sizes, or with sizes that are
    zero.  Two of "Nodes", "Edges" and "Density" are needed: with
    fewer, [gen_edr] raises [KeyError] for a missing one; with "Nodes"
    zero beside "Edges", or "Density" zero beside "Edges", it raises
    [ZeroDivisionError], "Edges" being within the range of the
    doubles. *)
Theorem gen_edr_sizes_missing globals m place dicProperties w rho lambda :
  number dicProperties "Rho" w = Ok (rho, w) ->
  number dicProperties "Lambda" w = Ok (lambda, w) ->
  (dicProperties !! "Nodes" = None -> dicProperties !! "Edges" = None ->
   eval (gen_edr globals m place dicProperties) w = Raise (KeyError "Edges"))
  /\
  (forall e, dicProperties !! "Nodes" = None ->
     dicProperties !! "Edges" = Some (PyInt e) ->
     dicProperties !! "Density" = None ->
     eval (gen_edr globals m place dicProperties) w
     = Raise (KeyError "Density"))
  /\
  (forall n, dicProperties !! "Nodes" = Some (PyInt n) ->
     dicProperties !! "Edges" = None ->
     dicProperties !! "Density" = None ->
     eval (gen_edr globals m place dicProperties) w
     = Raise (KeyError "Density"))
  /\
  (forall e x, dicProperties !! "Nodes" = Some (PyInt 0) ->
     dicProperties !! "Edges" = Some (PyInt e) ->
     float_of_int e = Ok x ->
     eval (gen_edr globals m place dicProperties) w
     = Raise ZeroDivisionError)
  /\
  (forall e x, dicProperties !! "Nodes" = None ->
     dicProperties !! "Edges" = Some (PyInt e) ->
     dicProperties !! "Density" = Some (PyFloat 0) ->
     float_of_int e = Ok x ->
     eval (gen_edr globals m place dicProperties) w
     = Raise ZeroDivisionError).
Proof.
  intros Hrho Hlambda.
  assert (Hsizes : forall ex,
    edr_sizes dicProperties = Raise ex ->
    eval (gen_edr globals m place dicProperties) w = Raise ex).
  { intros ex Hex. apply eval_Raise. unfold gen_edr.
    apply bind_Raise. left. unfold gen_edr_loop, seed.
    apply bind_Raise. right. exists (), w. split; [reflexivity|].
    apply bind_Raise. right. exists rho, w. split; [done|].
    apply bind_Raise. right. exists lambda, w. split; [done|].
    apply bind_Raise. left. by apply lift_Raise. }
  repeat split.
  - intros Hn He. apply Hsizes. unfold edr_sizes, getitem.
    destruct (decide _) as [[? Hs]|_]; [congruence|]. by rewrite He.
  - intros e Hn He Hd. apply Hsizes. unfold edr_sizes, getitem.
    destruct (decide _) as [[? Hs]|_]; [congruence|]. by rewrite He, Hd.
  - intros n Hn He Hd. apply Hsizes. unfold edr_sizes, getitem.
    destruct (decide _) as [_|Hs]; [|by destruct Hs; eauto].
    destruct (decide _) as [[? Hs]|_]; [congruence|]. by rewrite Hn, Hd.
  - intros e x Hn He Hx. apply Hsizes. unfold edr_sizes, getitem.
    destruct (decide _) as [_|Hs]; [|by destruct Hs; eauto].
    destruct (decide _) as [_|Hs]; [|by destruct Hs; eauto].
    rewrite Hn, He. cbn [mbind result_bind as_int].
    change (float_of_int (0 ^ 2)) with (Ok 0%Q : result Q).
    unfold int_truediv_float. by rewrite Hx.
  - intros e x Hn He Hd Hx. apply Hsizes. unfold edr_sizes, getitem.
    destruct (decide _) as [[? Hs]|_]; [congruence|]. rewrite He, Hd.
    cbn [mbind result_bind as_int as_float].
    unfold int_truediv_float. by rewrite Hx.
Qed.

Lemma gen_edr_sizes_missing_witness :
  eval (gen_edr graph_connectivity Samples.sample_libm Samples.sample_place
                (<["Nodes" := PyInt 0]>
                   (<["Edges" := PyInt 3]> Samples.sample_properties)))
       Samples.counting_world
  = Raise ZeroDivisionError.
Proof.
  refine (proj1 (proj2 (proj2 (proj2
            (gen_edr_sizes_missing graph_connectivity Samples.sample_libm
               Samples.sample_place
               (<["Nodes" := PyInt 0]>
                  (<["Edges" := PyInt 3]> Samples.sample_properties))
               Samples.counting_world 50%Q (1 # 10)%Q _ _)))) 3 3%Q _ _ _);
    vm_compute; reflexivity.
Defined.

(** ** What pruning does to the edges *)

Lemma filter_all {A} (P : A -> Prop) `{!forall x, Decision (P x)}
    (l : list A) :
  (forall x, x ∈ l -> P x) -> filter P l = l.
Proof.
  induction l as [|x l IH]; intros HP; [done|].
  rewrite filter_cons_True by (apply HP; left).
  f_equal. apply IH. intros y Hy. apply HP. by right.
Qed.

(** No edge is lost: the vertices removed have none. *)
Lemma prune_isolated_edge_list g :
  edge_list (prune_isolated g)
  = (λ e : Z * Z, (new_index (find_vertex_total_degree g 0) e.1,
                   new_index (find_vertex_total_degree g 0) e.2))
      <$> edge_list g.
Proof.
  unfold prune_isolated, reindex_edges. rewrite remove_vertex_edge_list.
  f_equal. apply filter_all. intros e He. by apply isolated_not_endpoint.
Qed.

Lemma prune_isolated_num_edges g :
  num_edges (prune_isolated g) = num_edges g.
Proof.
  unfold num_edges. by rewrite prune_isolated_edge_list, length_fmap.
Qed.

(** Without an edge every vertex goes. *)
Lemma prune_isolated_no_edges g :
  edge_list g = [] -> num_vertices (prune_isolated g) = 0.
Proof.
  intros Hnil. unfold prune_isolated, reindex_edges, remove_vertex. simpl.
  rewrite filter_none; [done|].
  intros v Hv Hnot. apply Hnot. unfold find_vertex_total_degree.
  apply list_elem_of_filter. split; [|done].
  apply total_degree_zero. intros e He. rewrite Hnil in He.
  by apply elem_of_nil in He.
Qed.

Lemma gen_edr_finish_no_edges globals m st w :
  edge_list (graphEDR st) = [] ->
  gen_edr_finish globals m st w = Raise ZeroDivisionError.
Proof.
  intros Hnil. unfold gen_edr_finish.
  rewrite (prune_isolated_no_edges _ Hnil).
  apply bind_Raise. left. reflexivity.
Qed.

Lemma gen_edr_Ok globals m place d w g w' :
  gen_edr globals m place d w = Ok (g, w') <->
  exists st w1, gen_edr_loop place d w = Ok (st, w1) /\
                gen_edr_finish globals m st w1 = Ok (g, w').
Proof. unfold gen_edr. apply bind_Ok. Qed.

(** X8.  [gen_edr] never returns a graph without edges.  When the
    sampling loop leaves no edge, pruning removes every vertex and the
    density of line 299 divides by [nNodes ** 2 = 0]: the call raises
    [ZeroDivisionError].  So a graph that is returned has an edge and
    a vertex. *)
Theorem gen_edr_no_empty_graph globals m place dicProperties w :
  (forall st w1,
      gen_edr_loop place dicProperties w = Ok (st, w1) ->
      edge_list (graphEDR st) = [] ->
      eval (gen_edr globals m place dicProperties) w
      = Raise ZeroDivisionError)
  /\
  (forall g w',
      gen_edr globals m place dicProperties w = Ok (g, w') ->
      edge_list g ≠ [] /\ 0 < num_vertices g).
Proof.
  split.
  - intros st w1 Hloop Hnil. apply eval_Raise. unfold gen_edr.
    apply bind_Raise. right. exists st, w1. split; [done|].
    by apply gen_edr_finish_no_edges.
  - intros g w' H. apply gen_edr_Ok in H as (st & w1 & Hloop & Hfin).
    destruct (edge_list (graphEDR st)) as [|e es] eqn:Hes.
    { by rewrite gen_edr_finish_no_edges in Hfin. }
    destruct (gen_edr_finish_edge_list _ _ _ _ _ _ Hfin) as [He Hn].
    split.
    + rewrite He, prune_isolated_edge_list, Hes. done.
    + rewrite Hn. unfold gen_edr_finish in Hfin.
      apply bind_Ok in Hfin as (r & w2 & Hdiv & _).
      apply lift_Ok in Hdiv as [Hdiv _]. unfold truediv in Hdiv.
      destruct (Z.eq_dec (num_vertices (prune_isolated (graphEDR st))) 0)
        as [Hz|Hnz].
      { rewrite Hz in Hdiv. discriminate. }
      assert (0 <= num_vertices (prune_isolated (graphEDR st)))
        by (unfold prune_isolated, reindex_edges, remove_vertex; simpl; lia).
      lia.
Qed.

Lemma gen_edr_no_empty_graph_witness :
  eval (gen_edr graph_connectivity Samples.sample_libm Samples.sample_place
                Samples.edgeless_properties) Samples.counting_world
  = Raise ZeroDivisionError
  /\
  (exists g w',
      gen_edr graph_connectivity Samples.sample_libm Samples.sample_place
              Samples.sparse_properties Samples.counting_world
      = Ok (g, w') /\
      edge_list g ≠ [] /\ 0 < num_vertices g).
Proof.
  split.
  - eapply (proj1 (gen_edr_no_empty_graph graph_connectivity
                     Samples.sample_libm Samples.sample_place
                     Samples.edgeless_properties Samples.counting_world));
      vm_compute; reflexivity.
  - eexists _, _. split; [vm_compute; reflexivity|].
    eapply (proj2 (gen_edr_no_empty_graph graph_connectivity
                     Samples.sample_libm Samples.sample_place
                     Samples.sparse_properties Samples.counting_world)).
    vm_compute; reflexivity.
Defined.

(** X9.  The graph [gen_edr] returns has no isolated vertex, and it
    has every edge the sampling loop left: pruning removes vertices
    only, and the edge count recorded in [nEdgesTot] is the one of the
    result. *)
Theorem gen_edr_pruned globals m place dicProperties w st w1 g w' :
  gen_edr_loop place dicProperties w = Ok (st, w1) ->
  gen_edr globals m place dicProperties w = Ok (g, w') ->
  (forall v, 0 <= v < num_vertices g -> total_degree g v ≠ 0%nat) /\
  num_edges g = nEdgesTot st.
Proof.
  intros Hloop H. apply gen_edr_Ok in H as (st' & w1' & Hloop' & Hfin).
  rewrite Hloop in Hloop'. simplify_eq.
  destruct (gen_edr_finish_edge_list _ _ _ _ _ _ Hfin) as [He Hn].
  split.
  - intros v Hv Hdeg.
    pose proof (prune_isolated_none_left (graphEDR st')) as Hnone.
    assert (Hin : v ∈ find_vertex_total_degree (prune_isolated (graphEDR st')) 0).
    { unfold find_vertex_total_degree. apply list_elem_of_filter. split.
      - unfold total_degree in *. by rewrite <- He.
      - unfold vertices. apply elem_of_seqZ. lia. }
    rewrite Hnone in Hin. by apply elem_of_nil in Hin.
  - apply gen_edr_loop_bound in Hloop as [-> _].
    unfold num_edges. rewrite He. apply prune_isolated_num_edges.
Qed.

Lemma gen_edr_pruned_witness :
  exists st w1 g w',
    gen_edr_loop Samples.sample_place Samples.sparse_properties
                 Samples.counting_world = Ok (st, w1) /\
    gen_edr graph_connectivity Samples.sample_libm Samples.sample_place
            Samples.sparse_properties Samples.counting_world
    = Ok (g, w') /\
    (forall v, 0 <= v < num_vertices g -> total_degree g v ≠ 0%nat) /\
    num_edges g = nEdgesTot st.
Proof.
  eexists _, _, _, _. split; [vm_compute; reflexivity|].
  split; [vm_compute; reflexivity|].
  eapply (gen_edr_pruned graph_connectivity Samples.sample_libm
            Samples.sample_place Samples.sparse_properties
            Samples.counting_world); vm_compute; reflexivity.
Defined.

(** ** Renumbering keeps a graph simple *)

(** The new indices of the survivors below [n] are below the number
    of survivors below [n]. *)
Lemma new_index_lt (vs : list Z) (u n : Z) :
  0 <= u < n -> u ∉ vs ->
  new_index vs u < Z.of_nat (length (filter (λ v, v ∉ vs) (seqZ 0 n))).
Proof.
  intros Hu Hvs. unfold new_index.
  replace n with (u + (n - u)) by lia.
  rewrite seqZ_app by lia. rewrite filter_app, length_app, Z.add_0_l.
  rewrite (seqZ_cons u) by lia. rewrite filter_cons_True by done.
  simpl. lia.
Qed.

(** Renumbering is increasing on the survivors. *)
Lemma new_index_mono (vs : list Z) (u v : Z) :
  0 <= u < v -> u ∉ vs -> new_index vs u < new_index vs v.
Proof. intros Hu Hvs. by apply new_index_lt. Qed.

Lemma new_index_inj (vs : list Z) (u v : Z) :
  0 <= u -> 0 <= v -> u ∉ vs -> v ∉ vs ->
  new_index vs u = new_index vs v -> u = v.
Proof.
  intros Hu Hv Hus Hvs Heq.
  destruct (Z.lt_trichotomy u v) as [Hlt|[->|Hgt]]; [|done|].
  - assert (new_index vs u < new_index vs v)
      by (apply new_index_mono; (done || lia)). lia.
  - assert (new_index vs v < new_index vs u)
      by (apply new_index_mono; (done || lia)). lia.
Qed.

Lemma no_parallel_fmap (f : Z -> Z) (P : Z -> Prop) d l :
  (forall u v, P u -> P v -> f u = f v -> u = v) ->
  Forall (λ e : Z * Z, P e.1 /\ P e.2) l ->
  no_parallel d l ->
  no_parallel d ((λ e : Z * Z, (f e.1, f e.2)) <$> l).
Proof.
  intros Hinj. induction l as [|e l IH]; intros HP Hnp; [done|].
  apply Forall_cons in HP as [[He1 He2] HP]. destruct Hnp as [Hhd Hnp].
  rewrite fmap_cons. split; [|by apply IH].
  apply Forall_fmap, Forall_forall. intros e' He'. simpl.
  rewrite Forall_forall in Hhd, HP. specialize (Hhd e' He').
  destruct (HP e' He') as [He'1 He'2].
  intros Hpar. apply Hhd. destruct e as [s t], e' as [s' t'].
  unfold parallel in *. simpl in *.
  destruct Hpar as [Heq|[Hd Heq]]; [left|right; split; [done|]];
    injection Heq as H1 H2; f_equal; by apply Hinj.
Qed.

(** The pruning step of lines 294-296 (and 212-214) turns a simple
    graph into a simple graph. *)
Lemma prune_isolated_simple g : simple g -> simple (prune_isolated g).
Proof.
  intros (Hrange & Hloops & Hnp). unfold simple.
  rewrite prune_isolated_edge_list.
  set (vs := find_vertex_total_degree g 0).
  assert (Hsurv : Forall (λ e : Z * Z,
                    (0 <= e.1 < num_vertices g /\ e.1 ∉ vs) /\
                    (0 <= e.2 < num_vertices g /\ e.2 ∉ vs)) (edge_list g)).
  { apply Forall_forall. intros e He. rewrite Forall_forall in Hrange.
    destruct (Hrange e He). destruct (isolated_not_endpoint g e He).
    done. }
  split; [|split].
  - apply Forall_fmap. eapply Forall_impl; [exact Hsurv|].
    intros e [[H1 H1'] [H2 H2']]. simpl.
    unfold prune_isolated, reindex_edges, remove_vertex, vertices. simpl.
    fold vs. pose proof (new_index_nonneg vs e.1).
    pose proof (new_index_nonneg vs e.2).
    pose proof (new_index_lt vs e.1 (num_vertices g) H1 H1').
    pose proof (new_index_lt vs e.2 (num_vertices g) H2 H2'). lia.
  - apply Forall_fmap, Forall_forall. intros e He. simpl.
    rewrite Forall_forall in Hsurv, Hloops.
    destruct (Hsurv e He) as [[H1 H1'] [H2 H2']]. intros Heq.
    apply (Hloops e He). apply (new_index_inj vs); (done || lia).
  - change (is_directed (prune_isolated g)) with (is_directed g).
    apply (no_parallel_fmap (new_index vs) (λ v, 0 <= v /\ v ∉ vs)).
    + intros u v [Hu Hu'] [Hv Hv']. by apply new_index_inj.
    + eapply Forall_impl; [exact Hsurv|]. intros e [[H1 H1'] [H2 H2']].
      simpl. split; split; (done || lia).
    + done.
Qed.

(** X10.  The pruning step of lines 294-296 and 212-214 removes
    vertices only: the pruned graph has every edge of the graph it was
    given, the vertices that are left keep their order under the
    renumbering, and a simple graph stays simple. *)
Theorem pruning_keeps_the_edges (g : Graph) :
  num_edges (prune_isolated g) = num_edges g /\
  edge_list (prune_isolated g)
  = (λ e : Z * Z, (new_index (find_vertex_total_degree g 0) e.1,
                   new_index (find_vertex_total_degree g 0) e.2))
      <$> edge_list g /\
  (forall u v,
      0 <= u < v -> u ∉ find_vertex_total_degree g 0 ->
      new_index (find_vertex_total_degree g 0) u
      < new_index (find_vertex_total_degree g 0) v) /\
  (simple g -> simple (prune_isolated g)).
Proof.
  split; [apply prune_isolated_num_edges|].
  split; [apply prune_isolated_edge_list|].
  split; [intros u v; apply new_index_mono | apply prune_isolated_simple].
Qed.

Lemma pruning_keeps_the_edges_witness :
  num_edges (prune_isolated Samples.two_edges) = num_edges Samples.two_edges
  /\ simple (prune_isolated Samples.two_edges).
Proof.
  split.
  - apply (pruning_keeps_the_edges Samples.two_edges).
  - apply (pruning_keeps_the_edges Samples.two_edges).
    unfold simple. simpl. repeat split; repeat constructor; try lia;
      try discriminate.
    all: intros [[=]|[[=] _]].
Defined.

(** ** The graph [gen_edr] returns is simple *)

Lemma randint_range low high size w l w' :
  Np.randint low high size w = Ok (l, w') ->
  Forall (λ x, low <= x < high) l.
Proof.
  intros H.
  destruct (Z.leb_spec high low) as [Hle|Hlt].
  { unfold Np.randint in H. destruct (Z.leb_spec high low); [|lia].
    discriminate. }
  destruct (Z.ltb_spec size 0) as [Hneg|Hpos].
  { unfold Np.randint in H. destruct (Z.ltb_spec size 0); [|lia].
    rewrite orb_true_r in H. discriminate. }
  destruct (randint_draws low high size w Hlt Hpos) as (l0 & Hl0 & _ & HP).
  rewrite Hl0 in H. by simplify_eq.
Qed.

Lemma uniform01_size size w us w' :
  Np.uniform01 size w = Ok (us, w') ->
  0 <= size /\ Z.of_nat (length us) = size.
Proof.
  intros H.
  assert (Hsize : 0 <= size).
  { unfold Np.uniform01 in H.
    destruct (Z.ltb_spec size 0); [discriminate | done]. }
  split; [done|].
  destruct (uniform01_draws size w Hsize) as (us' & Hus & Hlen & _).
  rewrite Hus in H. by simplify_eq.
Qed.

Lemma Forall_compress {A} (P : A -> Prop) (mask : list bool) (a : list A) :
  Forall P a -> Forall P (Np.compress mask a).
Proof.
  intros Ha. revert mask. induction Ha as [|x a Hx Ha IH]; intros [|b mask];
    simpl; try constructor.
  destruct b; [constructor|]; auto.
Qed.

Lemma Forall_upto {A} (P : A -> Prop) (n : Z) (a : list A) :
  Forall P a -> Forall P (Np.upto n a).
Proof. intros Ha. unfold Np.upto. destruct (n <? 0); by apply Forall_take. Qed.

Lemma transpose2_rows (P : Z -> Prop) r0 r1 :
  Forall P r0 -> Forall P r1 ->
  Forall (λ r, exists s t, r = [s; t] /\ P s /\ P t) (Np.transpose2 r0 r1).
Proof.
  intros H0. revert r1. induction H0 as [|a r0 Ha H0 IH]; intros r1 H1.
  - constructor.
  - destruct H1 as [|b r1 Hb H1]; [constructor|].
    unfold Np.transpose2. simpl. constructor; [eauto | by apply IH].
Qed.

Lemma no_parallel_directed l : no_parallel false l -> no_parallel true l.
Proof.
  induction l as [|e l IH]; [done|]. intros [Hhd Hnp].
  split; [|by apply IH]. eapply Forall_impl; [exact Hhd|].
  intros e' Hno Hpar. apply Hno. destruct Hpar as [->|[? _]]; [by left | done].
Qed.

Lemma er_graph_simple nodes E directed g :
  er_graph nodes E directed false g -> simple g.
Proof.
  intros (Hd & _ & Hrange & Hloops & Hnp & _). unfold simple.
  rewrite Hd. auto.
Qed.

(** One round of the sampling loop leaves a simple directed graph on
    at most [nNodes] vertices. *)
Lemma edr_round_simple geo nNodes numDesired g n w g' w' :
  is_directed g = true ->
  0 <= num_vertices g <= nNodes ->
  Forall (λ e : Z * Z, 0 <= e.1 < num_vertices g /\ 0 <= e.2 < num_vertices g)
         (edge_list g) ->
  edr_round geo nNodes numDesired g n w = Ok (g', w') ->
  exists E, er_graph nNodes E true false g'.
Proof.
  intros Hd HN Hrange H. unfold edr_round in H. run_inv H.
  apply ret_Ok in H as [-> _].
  apply lift_Ok in Hrun3 as [Hadd _].
  apply randint_range in Hrun0, Hrun1.
  set (mask := zip_with float_gt _ _) in *.
  assert (Hrows :
    Forall (λ r, exists s t, r = [s; t] /\ 0 <= s < nNodes /\ 0 <= t < nNodes)
      (Np.transpose2
         (if numDesired <? Np.count_nonzero mask + n
          then (Np.upto (numDesired - n) (Np.compress mask a0),
                Np.upto (numDesired - n) (Np.compress mask a1))
          else (Np.compress mask a0, Np.compress mask a1)).1
         (if numDesired <? Np.count_nonzero mask + n
          then (Np.upto (numDesired - n) (Np.compress mask a0),
                Np.upto (numDesired - n) (Np.compress mask a1))
          else (Np.compress mask a0, Np.compress mask a1)).2)).
  { destruct (_ <? _); simpl; apply transpose2_rows;
      repeat first [apply Forall_upto | apply Forall_compress]; done. }
  destruct (add_edge_list_pairs nNodes _ g Hrows HN Hrange)
    as (g1 & Hadd1 & Hd1 & HN1 & He1 & _).
  rewrite Hadd1 in Hadd. injection Hadd as <-.
  exists (num_edges g1).
  apply er_graph_remove_parallel_edges, er_graph_remove_self_loops;
    [congruence | done | done | lia].
Qed.

Lemma edr_sample_simple fuel geo nNodes numDesired :
  forall g n t w g' n' t' w',
    is_directed g = true ->
    0 <= num_vertices g <= nNodes ->
    simple g ->
    edr_sample fuel geo nNodes numDesired g n t w = Ok (g', n', t', w') ->
    is_directed g' = true /\ 0 <= num_vertices g' <= nNodes /\ simple g'.
Proof.
  induction fuel as [|fuel IH]; intros g n t w g' n' t' w' Hd HN Hs H;
    simpl in H.
  - apply ret_Ok in H as [? _]. by simplify_eq.
  - destruct (_ && _).
    + apply bind_Ok in H as (g1 & w1 & Hround & H).
      destruct Hs as (Hrange & _ & _).
      apply edr_round_simple in Hround as (E & Hg1); [|done..].
      pose proof (er_graph_simple _ _ _ _ Hg1) as Hs1.
      destruct Hg1 as (Hd1 & HN1 & _).
      by apply IH in H.
    + apply ret_Ok in H as [? _]. by simplify_eq.
Qed.

Lemma gen_edr_loop_simple place dicProperties w st w' :
  simple_geometry place ->
  gen_edr_loop place dicProperties w = Ok (st, w') ->
  is_directed (graphEDR st) = true /\ simple (graphEDR st).
Proof.
  intros Hgeo H. unfold gen_edr_loop in H. run_inv H.
  apply ret_Ok in H as [-> _]. cbn [graphEDR].
  match goal with
  | Hu : Np.uniform01 ?n _ = Ok _ |- _ =>
      pose proof (uniform01_size _ _ _ _ Hu) as [Hsize _]
  end.
  match goal with
  | Hs : edr_sample _ _ _ _ _ _ _ _ = Ok _ |- _ =>
      apply edr_sample_simple in Hs as (Hd & _ & Hs); [done | done | | ]
  end.
  - simpl. lia.
  - unfold simple. cbn [is_directed num_vertices edge_list set_directed].
    match goal with
    | |- context [geometric_edges (place ?n ?r ?l ?xs ?ys)] =>
        destruct (Hgeo n r l xs ys) as (Hrange & Hloops & Hnp)
    end.
    split; [done|]. split; [done|]. by apply no_parallel_directed.
Qed.

Lemma weigh_edges_is_directed globals m g d nEdges nExc w g' w' :
  weigh_edges globals m g d nEdges nExc w = Ok (g', w') ->
  is_directed g' = is_directed g.
Proof.
  unfold weigh_edges. intros H. run_inv H.
  destruct (truthy _).
  - run_inv H. apply ret_Ok in H as [-> _]. done.
  - apply ret_Ok in H as [-> _]. done.
Qed.

Lemma gen_edr_finish_is_directed globals m st w g w' :
  gen_edr_finish globals m st w = Ok (g, w') ->
  is_directed g = is_directed (graphEDR st).
Proof.
  unfold gen_edr_finish, decorate, label_edges. intros H. run_inv H.
  match goal with
  | H1 : (number _ _ ≫= _) _ = Ok _ |- _ =>
      run_inv H1; apply ret_Ok in H1 as [? _]; simplify_eq
  end.
  by apply weigh_edges_is_directed in H.
Qed.

(** X11.  When [geometric_graph] hands back a simple graph, the graph
    [gen_edr] returns is a simple directed graph: every edge joins two
    of its vertices, no edge is a self-loop and no two edges are
    parallel, also after the renumbering of the vertices that pruning
    brings. *)
Theorem gen_edr_simple globals m place dicProperties w g w' :
  simple_geometry place ->
  gen_edr globals m place dicProperties w = Ok (g, w') ->
  is_directed g = true /\ simple g.
Proof.
  intros Hgeo H. apply gen_edr_Ok in H as (st & w1 & Hloop & Hfin).
  apply (gen_edr_loop_simple _ _ _ _ _ Hgeo) in Hloop as [Hd Hs].
  pose proof (gen_edr_finish_is_directed _ _ _ _ _ _ Hfin) as Hdg.
  destruct (gen_edr_finish_edge_list _ _ _ _ _ _ Hfin) as [He Hn].
  split; [congruence|].
  apply prune_isolated_simple in Hs. unfold simple in *.
  rewrite He, Hn, Hdg. exact Hs.
Qed.

Lemma sample_place_simple : simple_geometry Samples.sample_place.
Proof. intros n rho lambda xs ys. repeat split; constructor. Qed.

Lemma gen_edr_simple_witness :
  exists g w',
    gen_edr graph_connectivity Samples.sample_libm Samples.sample_place
            Samples.sparse_properties Samples.counting_world
    = Ok (g, w') /\
    is_directed g = true /\ simple g.
Proof.
  eexists _, _. split; [vm_compute; reflexivity|].
  eapply (gen_edr_simple graph_connectivity Samples.sample_libm
            Samples.sample_place Samples.sparse_properties
            Samples.counting_world);
    [exact sample_place_simple | vm_compute; reflexivity].
Defined.

(** ** One weight per edge *)

Lemma replicateM_length {A} (draw : M A) (n : nat) w l w' :
  Np.replicateM n draw w = Ok (l, w') -> length l = n.
Proof.
  revert w l w'. induction n as [|n IH]; intros w l w' H; simpl in H.
  - apply ret_Ok in H as [-> _]. done.
  - run_inv H. apply ret_Ok in H as [-> _]. simpl. f_equal. eauto.
Qed.

Lemma normal_length loc scale size w l w' :
  normal loc scale size w = Ok (l, w') ->
  0 <= size /\ Z.of_nat (length l) = size.
Proof.
  unfold normal. intros H.
  destruct (Np.is_neg scale); [discriminate|].
  destruct (Z.ltb_spec size 0); [discriminate|]. simpl in H.
  apply replicateM_length in H. lia.
Qed.

(** [np.random.normal] with a scale that is not negative and a size
    that is not negative draws [size] values. *)
Lemma normal_draws loc scale size w :
  (0 <= scale)%Q -> 0 <= size ->
  exists l, normal loc scale size w = Ok (l, advance (Z.to_N size) w) /\
            Z.of_nat (length l) = size.
Proof.
  intros Hscale Hsize. unfold normal.
  assert (Hneg : Np.is_neg scale = false).
  { unfold Np.is_neg. apply Z.ltb_ge. unfold Qle in Hscale. simpl in Hscale.
    lia. }
  rewrite Hneg. destruct (Z.ltb_spec size 0); [lia|]. simpl.
  destruct (replicateM_draws
              (z ← Np.next_real; mret (loc + scale * z)%Q)
              (λ _, True) (Z.to_nat size)) with (w := w)
    as (l & Hl & Hlen & _).
  - intros w0. eexists. split; [reflexivity | done].
  - exists l. rewrite Z_nat_N in Hl. split; [done | lia].
Qed.

Lemma gaussian_weights_length graph d nEdges nExc w ws w' :
  gaussian_weights graph d nEdges nExc w = Ok (ws, w') ->
  Z.of_nat (length ws) = nEdges /\ 0 <= nExc <= nEdges.
Proof.
  unfold gaussian_weights. intros H. run_inv H. apply ret_Ok in H as [-> _].
  apply normal_length in Hrun3 as [He1 He2], Hrun4 as [Hi1 Hi2].
  rewrite length_app, !length_fmap. lia.
Qed.

(** ** What the loop of [gen_edr] leaves of the graph it started from *)

Lemma add_edge_list_frame g a g' :
  add_edge_list g a = Ok g' ->
  vertex_properties g' = vertex_properties g /\
  edge_properties g' = edge_properties g /\
  (Forall (λ r, exists s t, r = [s; t] /\ s < num_vertices g /\
                            t < num_vertices g) a ->
   num_vertices g' = num_vertices g).
Proof.
  revert g. induction a as [|r a IH]; intros g H; simpl in H.
  - by injection H as <-.
  - destruct r as [|s [|t r]]; try discriminate.
    apply IH in H as (Hv & He & Hn). simpl in *.
    split; [done|]. split; [done|]. intros Hrows.
    apply Forall_cons in Hrows as [(s' & t' & [= -> -> ->] & Hs & Ht) Hrows].
    assert (Hsame : Z.max (num_vertices g) (Z.max s' t' + 1) = num_vertices g)
      by lia.
    rewrite Hsame in Hn. apply Hn. done.
Qed.

Lemma edr_round_frame geo nNodes numDesired g n w g' w' :
  num_vertices g = nNodes ->
  edr_round geo nNodes numDesired g n w = Ok (g', w') ->
  vertex_properties g' = vertex_properties g /\
  edge_properties g' = edge_properties g /\
  num_vertices g' = nNodes.
Proof.
  intros HN H. unfold edr_round in H. run_inv H.
  apply ret_Ok in H as [-> _].
  apply lift_Ok in Hrun3 as [Hadd _].
  apply randint_range in Hrun0, Hrun1.
  apply add_edge_list_frame in Hadd as (Hv & He & Hn). simpl.
  split; [done|]. split; [done|]. rewrite Hn; [done|].
  rewrite HN. set (mask := zip_with float_gt _ _).
  destruct (_ <? _); simpl;
    (eapply Forall_impl;
     [apply (transpose2_rows (λ x, 0 <= x < nNodes));
      repeat first [apply Forall_upto | apply Forall_compress]; done
     | intros r (s & t & -> & Hs & Ht); exists s, t; repeat split; lia]).
Qed.

Lemma edr_sample_frame fuel geo nNodes numDesired :
  forall g n t w g' n' t' w',
    num_vertices g = nNodes ->
    edr_sample fuel geo nNodes numDesired g n t w = Ok (g', n', t', w') ->
    vertex_properties g' = vertex_properties g /\
    edge_properties g' = edge_properties g /\
    num_vertices g' = nNodes.
Proof.
  induction fuel as [|fuel IH]; intros g n t w g' n' t' w' HN H; simpl in H.
  - apply ret_Ok in H as [? _]. by simplify_eq.
  - destruct (_ && _).
    + apply bind_Ok in H as (g1 & w1 & Hround & H).
      apply (edr_round_frame _ _ _ _ _ _ _ _ HN) in Hround
        as (Hv1 & He1 & HN1).
      apply (IH _ _ _ _ _ _ _ _ HN1) in H as (Hv & He & HN').
      split; [congruence|]. split; [congruence | done].
    + apply ret_Ok in H as [? _]. by simplify_eq.
Qed.

(** The graph the loop hands on: it has as many vertices as the
    dictionary says, no edge property and the positions as its only
    vertex property; and the dictionary handed on is the one
    [edr_sizes] wrote. *)
Lemma gen_edr_loop_frame place dicProperties w st w' :
  gen_edr_loop place dicProperties w = Ok (st, w') ->
  exists nNodes nEdges rDens rho lambda xs ys,
    edr_sizes dicProperties
    = Ok (nNodes, nEdges, rDens, edr_properties st) /\
    0 <= nNodes /\
    Z.of_nat (length xs) = nNodes /\ Z.of_nat (length ys) = nNodes /\
    num_vertices (graphEDR st) = nNodes /\
    edge_properties (graphEDR st) = ∅ /\
    vertex_properties (graphEDR st)
    = {["pos" := VectorArray (lstPos (place nNodes rho lambda xs ys))]}.
Proof.
  intros H. unfold gen_edr_loop in H. run_inv H.
  apply ret_Ok in H as [-> _]. cbn [graphEDR edr_properties].
  match goal with
  | Hl : lift (edr_sizes _) _ = Ok _ |- _ => apply lift_Ok in Hl as [Hl _]
  end.
  repeat match goal with
         | Hu : Np.uniform01 _ _ = Ok _ |- _ =>
             apply uniform01_size in Hu as [? ?]
         end.
  match goal with
  | Hs : edr_sample _ _ _ _ _ _ _ _ = Ok _ |- _ =>
      apply edr_sample_frame in Hs as (Hv & He & HN); [|reflexivity]
  end.
  do 7 eexists. split_and!.
  7: { rewrite Hv. simpl. by rewrite insert_empty. }
  1: eassumption.
  all: done.
Qed.

(** ** The properties of the graph [gen_edr] returns *)

(** Lines 297-312 taken apart. *)
Lemma gen_edr_finish_Ok globals m st w g w' :
  gen_edr_finish globals m st w = Ok (g, w') ->
  exists p us w1,
    Z.of_nat (length us) = num_edges (prune_isolated (graphEDR st)) /\
    weigh_edges globals m
      (set_edge_property (prune_isolated (graphEDR st)) "type"
                         (IntArray (edge_types p us)))
      (edr_properties st)
      (num_edges (prune_isolated (graphEDR st)))
      (Np.count_nonzero ((λ u, float_gt u p) <$> us)) w1
    = Ok (g, w').
Proof.
  unfold gen_edr_finish, decorate, label_edges. intros H. run_inv H.
  match goal with
  | H1 : (number _ _ ≫= _) _ = Ok _ |- _ =>
      run_inv H1; apply ret_Ok in H1 as [? _]; simplify_eq
  end.
  match goal with
  | Hu : Np.uniform01 ?n ?w0 = Ok (?us, _) |- _ =>
      destruct (uniform01_draws n w0) as (us' & Hus & Hlen & _);
      [unfold num_edges; lia|];
      rewrite Hus in Hu; simplify_eq
  end.
  eauto.
Qed.

Lemma weigh_edges_Ok globals m g d nEdges nExc w g' w' :
  weigh_edges globals m g d nEdges nExc w = Ok (g', w') ->
  exists weighted,
    d !! "Weighted" = Some weighted /\
    (truthy weighted = false -> g' = g) /\
    (truthy weighted = true ->
     exists name strategy ws,
       d !! "Distribution" = Some (PyStr name) /\
       dicGenWeights globals m name = Some strategy /\
       strategy g d nEdges nExc w = Ok (ws, w') /\
       g' = set_edge_property g "weight" (DoubleArray ws)).
Proof.
  unfold weigh_edges, getitem. intros H.
  apply bind_Ok in H as (weighted & w1 & Hw & H).
  apply lift_Ok in Hw as [Hw ->].
  destruct (d !! "Weighted") as [v|] eqn:Hweighted; [|discriminate].
  injection Hw as ->. exists weighted. split; [done|].
  destruct (truthy weighted).
  - split; [discriminate|]. intros _.
    apply bind_Ok in H as (distribution & w2 & Hd & H).
    apply lift_Ok in Hd as [Hd ->].
    destruct (d !! "Distribution") as [v|] eqn:Hdist; [|discriminate].
    injection Hd as ->.
    apply bind_Ok in H as (f & w3 & Hf & H).
    apply lift_Ok in Hf as [Hf ->].
    destruct distribution as [| | |name]; try discriminate.
    destruct (dicGenWeights globals m name) as [f'|] eqn:Hname;
      [|discriminate].
    injection Hf as ->.
    apply bind_Ok in H as (ws & w4 & Hws & H).
    apply ret_Ok in H as [-> ->]. eauto 10.
  - split; [|discriminate]. intros _. by apply ret_Ok in H as [-> _].
Qed.

Lemma degree_weights_length graph d nEdges nExc w ws w' :
  degree_correlated_weights graph d nEdges nExc w = Ok (ws, w') ->
  Z.of_nat (length ws) = nEdges.
Proof.
  unfold degree_correlated_weights. intros H.
  destruct (Z.ltb_spec nEdges 0); [discriminate|].
  apply ret_Ok in H as [-> _]. rewrite length_replicate. lia.
Qed.

(** The Gaussian and the degree strategies return one weight per edge
    asked for, none of them negative. *)
Lemma strategy_per_edge globals m name strategy g d nEdges nExc w ws w' :
  name ∈ ["Gaussian"; "Degree"] ->
  dicGenWeights globals m name = Some strategy ->
  strategy g d nEdges nExc w = Ok (ws, w') ->
  Z.of_nat (length ws) = nEdges /\ Forall nonnegative ws.
Proof.
  intros Hname Hs H.
  repeat (apply elem_of_cons in Hname as [->|Hname]);
    [| |by apply elem_of_nil in Hname]; injection Hs as <-.
  - split; [by apply gaussian_weights_length in H as [? _]|].
    unfold gaussian_weights in H. run_inv H. apply ret_Ok in H as [-> _].
    apply Forall_app. split; apply Forall_fmap, Forall_fmap, Forall_forall;
      intros x _; by apply absolute_nonnegative.
  - split; [by apply degree_weights_length in H|].
    unfold degree_correlated_weights in H.
    destruct (nEdges <? 0); [discriminate|]. apply ret_Ok in H as [-> _].
    apply Forall_forall. intros y Hy. apply elem_of_replicate in Hy as [-> _].
    reflexivity.
Qed.

Lemma prune_isolated_edge_properties g :
  edge_properties g = ∅ -> edge_properties (prune_isolated g) = ∅.
Proof.
  intros He. unfold prune_isolated, reindex_edges, remove_vertex. simpl.
  rewrite He. apply fmap_empty.
Qed.

(** X12.  The "weight" property.  A graph [gen_edr] returns carries
    an edge property "weight" exactly when [dicProperties["Weighted"]]
    is true.  With the "Gaussian" or the "Degree" distribution it
    holds one weight per edge, none of them negative. *)
Theorem gen_edr_weights globals m place dicProperties w g w' :
  gen_edr globals m place dicProperties w = Ok (g, w') ->
  exists weighted,
    dicProperties !! "Weighted" = Some weighted /\
    (truthy weighted = false -> edge_properties g !! "weight" = None) /\
    (truthy weighted = true ->
     exists name ws,
       dicProperties !! "Distribution" = Some (PyStr name) /\
       edge_properties g !! "weight" = Some (DoubleArray ws) /\
       (name ∈ ["Gaussian"; "Degree"] ->
        length ws = length (edge_list g) /\ Forall nonnegative ws)).
Proof.
  intros H. apply gen_edr_Ok in H as (st & w1 & Hloop & Hfin).
  destruct (gen_edr_loop_frame _ _ _ _ _ Hloop)
    as (n & e & r & rho & lambda & xs & ys & Hsizes & _ & _ & _ & _ & Hep & _).
  destruct (edr_sizes_frame _ _ _ _ _ Hsizes) as (key & v & Hkey & Hd).
  destruct (gen_edr_finish_edge_list _ _ _ _ _ _ Hfin) as [Hedges _].
  apply gen_edr_finish_Ok in Hfin as (p & us & w2 & Hus & Hweigh).
  apply weigh_edges_Ok in Hweigh as (weighted & Hw & Hno & Hyes).
  assert (Hother : forall k, k ∉ ["Nodes"; "Edges"; "Density"] ->
                             edr_properties st !! k = dicProperties !! k).
  { intros k Hk. rewrite Hd. apply lookup_insert_ne. by intros <-. }
  assert (Hk1 : "Weighted" ∉ ["Nodes"; "Edges"; "Density"]).
  { intros Hin. repeat (apply elem_of_cons in Hin as [[=]|Hin]).
    by apply elem_of_nil in Hin. }
  assert (Hk2 : "Distribution" ∉ ["Nodes"; "Edges"; "Density"]).
  { intros Hin. repeat (apply elem_of_cons in Hin as [[=]|Hin]).
    by apply elem_of_nil in Hin. }
  exists weighted. split; [|split].
  - by rewrite <- Hother.
  - intros Hfalse. rewrite (Hno Hfalse).
    cbn [edge_properties set_edge_property].
    rewrite lookup_insert_ne by done.
    by rewrite prune_isolated_edge_properties.
  - intros Htrue.
    destruct (Hyes Htrue) as (name & f & ws & Hdist & Hf & Hrun & ->).
    exists name, ws. split; [|split].
    + by rewrite <- Hother.
    + cbn [edge_properties set_edge_property]. apply lookup_insert_eq.
    + intros Hname. cbn [edge_list set_edge_property].
      destruct (strategy_per_edge _ _ _ _ _ _ _ _ _ _ _ Hname Hf Hrun)
        as [Hlen Hpos].
      split; [unfold num_edges in Hlen; lia | done].
Qed.

Lemma gen_edr_weights_witness :
  exists g w' weighted,
    gen_edr graph_connectivity Samples.sample_libm Samples.sample_place
            Samples.weighted_properties Samples.counting_world
    = Ok (g, w') /\
    Samples.weighted_properties !! "Weighted" = Some weighted /\
    (truthy weighted = false -> edge_properties g !! "weight" = None) /\
    (truthy weighted = true ->
     exists name ws,
       Samples.weighted_properties !! "Distribution" = Some (PyStr name) /\
       edge_properties g !! "weight" = Some (DoubleArray ws) /\
       (name ∈ ["Gaussian"; "Degree"] ->
        length ws = length (edge_list g) /\ Forall nonnegative ws)).
Proof.
  eexists _, _.
  edestruct (gen_edr_weights graph_connectivity Samples.sample_libm
               Samples.sample_place Samples.weighted_properties
               Samples.counting_world) as (weighted & H);
    [vm_compute; reflexivity|].
  exists weighted. split; [vm_compute; reflexivity | exact H].
Defined.

Lemma compress_same_length {A} (mask : list bool) (a : list A) :
  length a = length mask ->
  length (Np.compress mask a) = length (filter (λ b, b = true) mask).
Proof.
  revert a. induction mask as [|b mask IH]; intros [|x a] Hlen;
    simpl in *; try done.
  rewrite filter_cons. destruct b.
  - rewrite decide_True by done. simpl. f_equal. apply IH. lia.
  - rewrite decide_False by done. apply IH. lia.
Qed.

Lemma weigh_edges_vertex_properties globals m g d nEdges nExc w g' w' :
  weigh_edges globals m g d nEdges nExc w = Ok (g', w') ->
  vertex_properties g' = vertex_properties g.
Proof.
  intros H. apply weigh_edges_Ok in H as (weighted & _ & Hno & Hyes).
  destruct (truthy weighted).
  - destruct Hyes as (? & ? & ? & _ & _ & _ & ->); done.
  - by rewrite Hno.
Qed.

(** X13.  The positions follow the pruning.  When the geometric graph
    comes with one position per point, the "pos" property of the graph
    [gen_edr] returns holds one position per vertex that is left. *)
Theorem gen_edr_positions globals m place dicProperties w g w' :
  positions_complete place ->
  gen_edr globals m place dicProperties w = Ok (g, w') ->
  exists ps,
    vertex_properties g !! "pos" = Some (VectorArray ps) /\
    Z.of_nat (length ps) = num_vertices g.
Proof.
  intros Hpos H. apply gen_edr_Ok in H as (st & w1 & Hloop & Hfin).
  destruct (gen_edr_loop_frame _ _ _ _ _ Hloop)
    as (n & e & r & rho & lambda & xs & ys & _ & Hn & Hxs & Hys & HN & _ & Hvp).
  destruct (gen_edr_finish_edge_list _ _ _ _ _ _ Hfin) as [_ Hcount].
  apply gen_edr_finish_Ok in Hfin as (p & us & w2 & _ & Hweigh).
  apply weigh_edges_vertex_properties in Hweigh.
  rewrite Hweigh, Hcount.
  cbn [vertex_properties set_edge_property].
  unfold prune_isolated, reindex_edges, remove_vertex.
  cbn [vertex_properties num_vertices].
  rewrite Hvp, lookup_fmap, lookup_singleton_eq. simpl.
  eexists. split; [reflexivity|]. f_equal.
  rewrite compress_same_length.
  - apply (filter_true_fmap_decide
             (λ v, v ∉ find_vertex_total_degree (graphEDR st) 0)).
  - rewrite length_fmap. unfold vertices. rewrite length_seqZ, HN.
    specialize (Hpos n rho lambda xs ys Hxs Hys). lia.
Qed.

Lemma sample_place_positions : positions_complete Samples.sample_place.
Proof.
  intros n rho lambda xs ys Hxs Hys. simpl. rewrite length_zip. lia.
Qed.

Lemma gen_edr_positions_witness :
  exists g w' ps,
    gen_edr graph_connectivity Samples.sample_libm Samples.sample_place
            Samples.sparse_properties Samples.counting_world
    = Ok (g, w') /\
    vertex_properties g !! "pos" = Some (VectorArray ps) /\
    Z.of_nat (length ps) = num_vertices g.
Proof.
  eexists _, _.
  edestruct (gen_edr_positions graph_connectivity Samples.sample_libm
               Samples.sample_place Samples.sparse_properties
               Samples.counting_world) as (ps & H);
    [exact sample_place_positions | vm_compute; reflexivity|].
  exists ps. split; [vm_compute; reflexivity | exact H].
Defined.

(** ** The cap is reached *)

(** Line 299 once the loop is left: without a vertex after pruning
    the density divides by zero, and otherwise the call goes on to
    the labelling of line 301. *)
Lemma gen_edr_finish_cases globals m st w :
  (num_vertices (prune_isolated (graphEDR st)) = 0 ->
   gen_edr_finish globals m st w = Raise ZeroDivisionError) /\
  (num_vertices (prune_isolated (graphEDR st)) ≠ 0 ->
   gen_edr_finish globals m st w
   = decorate globals m (prune_isolated (graphEDR st)) (edr_properties st)
              (num_edges (prune_isolated (graphEDR st))) w).
Proof.
  unfold gen_edr_finish. split.
  - intros ->. apply bind_Raise. left. reflexivity.
  - intros Hn. unfold truediv.
    destruct (Qeq_bool _ 0) eqn:Hz.
    + apply Qeq_bool_iff in Hz.
      apply (proj1 (inject_Z_injective _ 0)) in Hz. nia.
    + reflexivity.
Qed.

(** Lines 301-312 for a numeric "InhibFrac" and a false "Weighted":
    the edge types are set and nothing else is. *)
Lemma decorate_unweighted globals m g d n v p weighted w :
  0 <= n ->
  d !! "InhibFrac" = Some v -> as_float v = Ok p ->
  d !! "Weighted" = Some weighted -> truthy weighted = false ->
  exists us,
    decorate globals m g d n w
    = Ok (set_edge_property g "type" (IntArray (edge_types p us)),
          advance (Z.to_N n) w).
Proof.
  intros Hn Hv Hp Hw Hfalse.
  destruct (uniform01_draws n w Hn) as (us & Hus & _ & _).
  exists us. unfold decorate. apply bind_Ok. eexists (_, _), _. split.
  - unfold label_edges. apply bind_Ok. exists p, w. split.
    { unfold number, getitem. rewrite Hv. cbn [mbind result_bind].
      by rewrite Hp. }
    apply bind_Ok. eexists _, _. split; [exact Hus | reflexivity].
  - unfold weigh_edges, getitem. rewrite Hw.
    apply bind_Ok. exists weighted, (advance (Z.to_N n) w).
    split; [reflexivity|]. by rewrite Hfalse.
Qed.

(** C3, as the code has it.  When [erdos_renyi] leaves its loops with
    the cap of [n_MAXTESTS] rounds used up, it returns the graph it has
    reached.  When the sampling loop of [gen_edr] does, [gen_edr] goes
    on as after any other exit: it prunes the graph it has reached; if
    no vertex is left, as when no edge was found, it raises
    [ZeroDivisionError] at line 299; otherwise it goes on to the
    labelling of lines 301-312 and returns the pruned graph unless the
    labelling raises, which it does not for a numeric "InhibFrac" and
    a false "Weighted".  Neither issues a [ConvergenceWarning] on the
    way: such a warning is among the warnings afterwards only if it
    was there before the call. *)
Theorem cap_exhaustion_unreported :
  (forall ce nodes density edges avg_deg reciprocity directed multigraph
          w st w',
      erdos_renyi_loops ce nodes density edges avg_deg reciprocity
                        directed multigraph w = Ok (st, w') ->
      num_test st = n_MAXTESTS ->
      erdos_renyi ce nodes density edges avg_deg reciprocity directed
                  multigraph w = Ok (graph_er st, w') /\
      num_current_edges st = num_edges (graph_er st) /\
      ("ConvergenceWarning" ∈ warnings_log w' ->
       "ConvergenceWarning" ∈ warnings_log w))
  /\
  (forall globals m place dicProperties w st w',
      gen_edr_loop place dicProperties w = Ok (st, w') ->
      numTest st = n_MAXTESTS ->
      nEdgesTot st = num_edges (graphEDR st) /\
      ("ConvergenceWarning" ∈ warnings_log w' ->
       "ConvergenceWarning" ∈ warnings_log w) /\
      (edge_list (graphEDR st) = [] ->
       num_vertices (prune_isolated (graphEDR st)) = 0) /\
      (num_vertices (prune_isolated (graphEDR st)) = 0 ->
       eval (gen_edr globals m place dicProperties) w
       = Raise ZeroDivisionError) /\
      (num_vertices (prune_isolated (graphEDR st)) ≠ 0 ->
       gen_edr globals m place dicProperties w
       = decorate globals m (prune_isolated (graphEDR st))
                  (edr_properties st)
                  (num_edges (prune_isolated (graphEDR st))) w') /\
      (forall v p weighted,
          num_vertices (prune_isolated (graphEDR st)) ≠ 0 ->
          dicProperties !! "InhibFrac" = Some v -> as_float v = Ok p ->
          dicProperties !! "Weighted" = Some weighted ->
          truthy weighted = false ->
          exists us w'',
            gen_edr globals m place dicProperties w
            = Ok (set_edge_property (prune_isolated (graphEDR st)) "type"
                                    (IntArray (edge_types p us)), w'') /\
            ("ConvergenceWarning" ∈ warnings_log w'' ->
             "ConvergenceWarning" ∈ warnings_log w)) /\
      (forall g w'',
          gen_edr globals m place dicProperties w = Ok (g, w'') ->
          edge_list g = edge_list (prune_isolated (graphEDR st)) /\
          ("ConvergenceWarning" ∈ warnings_log w'' ->
           "ConvergenceWarning" ∈ warnings_log w))).
Proof.
  split.
  - intros ce nodes density edges avg_deg r directed multigraph w st w' H _.
    split; [|split].
    + unfold erdos_renyi. apply bind_Ok. exists st, w'. by split.
    + by eapply erdos_renyi_loops_count.
    + by eapply quiet_erdos_renyi_loops.
  - intros globals m place d w st w' H _.
    assert (Hgen : gen_edr globals m place d w
                   = gen_edr_finish globals m st w').
    { unfold gen_edr, mbind, M_bind, Py.bind. by rewrite H. }
    destruct (gen_edr_finish_cases globals m st w') as [Hzero Hmore].
    assert (Hquiet : forall g w'',
      gen_edr globals m place d w = Ok (g, w'') ->
      "ConvergenceWarning" ∈ warnings_log w'' ->
      "ConvergenceWarning" ∈ warnings_log w).
    { intros g w'' Hg Hin. rewrite Hgen in Hg.
      eapply quiet_gen_edr_loop; [exact H|].
      eapply quiet_gen_edr_finish; [exact Hg | exact Hin]. }
    split; [by apply gen_edr_loop_bound in H as [? _]|].
    split; [by eapply quiet_gen_edr_loop|].
    split; [apply prune_isolated_no_edges|].
    split; [intros Hn; apply eval_Raise; rewrite Hgen; by apply Hzero|].
    split; [intros Hn; rewrite Hgen; by apply Hmore|].
    split.
    + intros v p weighted Hn Hv Hp Hw Hfalse.
      destruct (gen_edr_loop_frame _ _ _ _ _ H)
        as (nNodes & nEdges & rDens & _ & _ & _ & _ & Hsizes & _).
      destruct (edr_sizes_frame _ _ _ _ _ Hsizes) as (key & x & Hkey & Hd).
      assert (Hother : forall k, k ∉ ["Nodes"; "Edges"; "Density"] ->
                                 edr_properties st !! k = d !! k).
      { intros k Hk. rewrite Hd. apply lookup_insert_ne. intros <-. done. }
      destruct (decorate_unweighted globals m
                  (prune_isolated (graphEDR st)) (edr_properties st)
                  (num_edges (prune_isolated (graphEDR st))) v p weighted w')
        as (us & Hus); try done.
      * unfold num_edges. lia.
      * rewrite Hother; [done|]. by apply (bool_decide_unpack _).
      * rewrite Hother; [done|]. by apply (bool_decide_unpack _).
      * exists us. eexists. split.
        -- rewrite Hgen, (Hmore Hn). exact Hus.
        -- eapply Hquiet. rewrite Hgen, (Hmore Hn). exact Hus.
    + intros g w'' Hg. split; [|by eapply Hquiet].
      rewrite Hgen in Hg. by apply gen_edr_finish_edge_list in Hg as [? _].
Qed.

(** With a single node every candidate of [gen_edr] is a self-loop:
    the cap is used up without an edge, pruning removes the node, and
    the density of line 299 divides by zero. *)
Lemma gen_edr_single_node :
  (exists st w',
      gen_edr_loop Samples.sample_place Samples.one_node_properties
                   Samples.counting_world = Ok (st, w') /\
      numTest st = n_MAXTESTS /\
      numDesiredEdges st = 1 /\
      nEdgesTot st = 0)
  /\
  eval (gen_edr graph_connectivity Samples.sample_libm Samples.sample_place
                Samples.one_node_properties) Samples.counting_world
  = Raise ZeroDivisionError.
Proof.
  split; [|vm_compute; reflexivity].
  eexists _, _. split; [vm_compute; reflexivity|]. repeat split.
Qed.

Lemma cap_exhaustion_unreported_witness :
  (exists st w',
      erdos_renyi_loops Samples.edges_as_given 2 (1 # 10) 2 (-1) (-1)
                        true false Samples.counting_world = Ok (st, w') /\
      num_test st = n_MAXTESTS /\
      erdos_renyi Samples.edges_as_given 2 (1 # 10) 2 (-1) (-1)
                  true false Samples.counting_world
      = Ok (graph_er st, w'))
  /\
  (exists st w',
      gen_edr_loop Samples.sample_place Samples.sample_properties
                   Samples.counting_world = Ok (st, w') /\
      numTest st = n_MAXTESTS /\
      exists us w'',
        gen_edr graph_connectivity Samples.sample_libm Samples.sample_place
                Samples.sample_properties Samples.counting_world
        = Ok (set_edge_property (prune_isolated (graphEDR st)) "type"
                (IntArray (edge_types (1 # 5) us)), w''))
  /\
  (exists st w',
      gen_edr_loop Samples.sample_place Samples.one_node_properties
                   Samples.counting_world = Ok (st, w') /\
      numTest st = n_MAXTESTS /\
      eval (gen_edr graph_connectivity Samples.sample_libm
                    Samples.sample_place Samples.one_node_properties)
           Samples.counting_world
      = Raise ZeroDivisionError).
Proof.
  split; [|split].
  - eexists _, _. split; [vm_compute; reflexivity|].
    split; [reflexivity|].
    eapply (proj1 cap_exhaustion_unreported Samples.edges_as_given
                  2 (1 # 10)%Q 2 (-1)%Q (-1)%Q true false
                  Samples.counting_world);
      [vm_compute; reflexivity | reflexivity].
  - eexists _, _. split; [vm_compute; reflexivity|].
    split; [reflexivity|].
    edestruct (proj2 cap_exhaustion_unreported graph_connectivity
                     Samples.sample_libm Samples.sample_place
                     Samples.sample_properties Samples.counting_world)
      as (_ & _ & _ & _ & _ & Hreturns & _);
      [vm_compute; reflexivity | reflexivity |].
    destruct (Hreturns (PyFloat (1 # 5)) (1 # 5)%Q (PyBool false))
      as (us & w'' & Hgen & _);
      [vm_compute; discriminate | reflexivity | reflexivity | reflexivity
       | reflexivity |].
    exists us, w''. exact Hgen.
  - eexists _, _. split; [vm_compute; reflexivity|].
    split; [reflexivity|].
    edestruct (proj2 cap_exhaustion_unreported graph_connectivity
                     Samples.sample_libm Samples.sample_place
                     Samples.one_node_properties Samples.counting_world)
      as (_ & _ & _ & Hraises & _);
      [vm_compute; reflexivity | reflexivity |].
    apply Hraises. vm_compute; reflexivity.
Defined.

(** C3, as stated, fails.  With two nodes, two edges asked for and
    every pair drawn being (0,1), [erdos_renyi] uses the cap up with
    one edge out of two, returns that graph, and no warning has been
    issued.  With two nodes and four edges asked for, [gen_edr] uses
    the cap up with two edges out of four, returns, and no warning has
    been issued either. *)
Lemma cap_exhaustion_without_warning :
  (exists st w',
      erdos_renyi_loops Samples.edges_as_given 2 (1 # 10) 2 (-1) (-1)
                        true false Samples.counting_world = Ok (st, w') /\
      num_test st = n_MAXTESTS /\
      pre_recip_edges st = PyInt 2 /\
      num_current_edges st = 1 /\
      erdos_renyi Samples.edges_as_given 2 (1 # 10) 2 (-1) (-1)
                  true false Samples.counting_world
      = Ok (graph_er st, w') /\
      warnings_log w' = [])
  /\
  (exists st w' g w'',
      gen_edr_loop Samples.sample_place Samples.sample_properties
                   Samples.counting_world = Ok (st, w') /\
      numTest st = n_MAXTESTS /\
      numDesiredEdges st = 4 /\
      nEdgesTot st = 2 /\
      gen_edr graph_connectivity Samples.sample_libm Samples.sample_place
              Samples.sample_properties Samples.counting_world
      = Ok (g, w'') /\
      edge_list g = [(0, 1); (1, 0)] /\
      warnings_log w'' = []).
Proof.
  split.
  - eexists _, _. split; [vm_compute; reflexivity|].
    repeat split; vm_compute; reflexivity.
  - eexists _, _, _, _. split; [vm_compute; reflexivity|].
    split; [reflexivity|]. split; [reflexivity|]. split; [reflexivity|].
    split; [vm_compute; reflexivity|]. split; reflexivity.
Qed.

(** ** The count of excitatory edges *)

Lemma edge_types_count (p : Q) (us : list Q) :
  Np.count_nonzero ((λ u, float_gt u p) <$> us)
  = Z.of_nat (length (filter (λ t, t = 1) (edge_types p us))) /\
  Z.of_nat (length us) - Np.count_nonzero ((λ u, float_gt u p) <$> us)
  = Z.of_nat (length (filter (λ t, t = -1) (edge_types p us))).
Proof.
  unfold edge_types. induction us as [|u us [IH1 IH2]]; [done|].
  rewrite !fmap_cons, count_nonzero_cons, !filter_cons.
  cbn [length]. destruct (float_gt u p).
  - rewrite decide_True by done. rewrite decide_False by done.
    cbn [length]. lia.
  - rewrite decide_False by done. rewrite decide_True by done.
    cbn [length]. lia.
Qed.

(** X14.  Lines 301-307.  Whenever the labelling returns, the count
    [nExc] it hands to the weight generator is the number of entries
    +1 of the type array it has stored, the remaining [nEdges - nExc]
    entries are -1, and [0 <= nExc <= nEdges]: the two sample sizes
    [nExc] and [nEdges - nExc] the weight generators are handed are
    never negative. *)
Theorem label_edges_counts (g : Graph) (dicProperties : gmap string value)
    (nEdges : Z) (w : World) g' nExc w' :
  label_edges g dicProperties nEdges w = Ok (g', nExc, w') ->
  exists ts,
    edge_properties g' !! "type" = Some (IntArray ts) /\
    Z.of_nat (length ts) = nEdges /\
    nExc = Z.of_nat (length (filter (λ t, t = 1) ts)) /\
    nEdges - nExc = Z.of_nat (length (filter (λ t, t = -1) ts)) /\
    0 <= nExc <= nEdges.
Proof.
  unfold label_edges. intros H.
  apply bind_Ok in H as (p & w1 & _ & H).
  apply bind_Ok in H as (us & w2 & Hus & H).
  apply ret_Ok in H as [? _]. simplify_eq.
  apply uniform01_size in Hus as [Hsize Hlen].
  destruct (edge_types_count p us) as [H1 H2].
  eexists. split; [apply lookup_insert_eq|].
  split; [by rewrite edge_types_length|].
  split; [exact H1|]. split; [by rewrite <- Hlen|].
  pose proof (length_filter (λ t, t = 1) (edge_types p us)) as Hle.
  rewrite edge_types_length in Hle. lia.
Qed.

Lemma label_edges_counts_witness :
  exists g' nExc w' ts,
    label_edges Samples.two_edges Samples.sample_properties 2
                Samples.counting_world = Ok (g', nExc, w') /\
    edge_properties g' !! "type" = Some (IntArray ts) /\
    Z.of_nat (length ts) = 2 /\
    nExc = Z.of_nat (length (filter (λ t, t = 1) ts)) /\
    2 - nExc = Z.of_nat (length (filter (λ t, t = -1) ts)) /\
    0 <= nExc <= 2.
Proof.
  eexists _, _, _.
  edestruct (label_edges_counts Samples.two_edges Samples.sample_properties
               2 Samples.counting_world) as (ts & H);
    [vm_compute; reflexivity|].
  exists ts. split; [vm_compute; reflexivity | exact H].
Defined.

(** ** Gaussian weights *)

(** X15.  Lines 321-329.  With its four parameters in the dictionary,
    scales that are not negative and [0 <= nExc <= nEdges],
    [gaussian_weights] returns [nEdges] weights for [nEdges] normal
    variates drawn; and whenever it returns, it returns [nEdges]
    weights and [0 <= nExc <= nEdges] holds. *)
Theorem gaussian_weights_per_edge graph dicProperties nEdges nExc w :
  (forall rMeanExc rMeanInhib rVarExc rVarInhib,
      dicProperties !! "MeanExc" = Some (PyFloat rMeanExc) ->
      dicProperties !! "MeanInhib" = Some (PyFloat rMeanInhib) ->
      dicProperties !! "VarExc" = Some (PyFloat rVarExc) ->
      dicProperties !! "VarInhib" = Some (PyFloat rVarInhib) ->
      (0 <= rVarExc)%Q -> (0 <= rVarInhib)%Q ->
      0 <= nExc <= nEdges ->
      exists ws,
        gaussian_weights graph dicProperties nEdges nExc w
        = Ok (ws, advance (Z.to_N nEdges) w) /\
        Z.of_nat (length ws) = nEdges /\
        Forall nonnegative ws)
  /\
  (forall ws w',
      gaussian_weights graph dicProperties nEdges nExc w = Ok (ws, w') ->
      Z.of_nat (length ws) = nEdges /\ 0 <= nExc <= nEdges).
Proof.
  split; [|intros ws w'; apply gaussian_weights_length].
  intros mE mI vE vI HmE HmI HvE HvI HvE0 HvI0 Hn.
  destruct (normal_draws mE vE nExc w) as (l1 & Hl1 & Hlen1); [done | lia|].
  destruct (normal_draws mI vI (nEdges - nExc) (advance (Z.to_N nExc) w))
    as (l2 & Hl2 & Hlen2); [done | lia|].
  rewrite advance_advance in Hl2.
  replace (Z.to_N nExc + Z.to_N (nEdges - nExc))%N with (Z.to_N nEdges)
    in Hl2 by lia.
  eexists. split; [|split].
  - unfold gaussian_weights, number, getitem. rewrite HmE, HmI, HvE, HvI.
    apply bind_Ok. exists mE, w. split; [reflexivity|].
    apply bind_Ok. exists mI, w. split; [reflexivity|].
    apply bind_Ok. exists vE, w. split; [reflexivity|].
    apply bind_Ok. exists vI, w. split; [reflexivity|].
    apply bind_Ok. eexists _, _. split; [exact Hl1|].
    apply bind_Ok. eexists _, _. split; [exact Hl2|]. reflexivity.
  - rewrite length_app, !length_fmap. lia.
  - apply Forall_app. split; apply Forall_fmap, Forall_fmap, Forall_forall;
      intros x _; by apply absolute_nonnegative.
Qed.

Lemma gaussian_weights_per_edge_witness :
  exists ws,
    gaussian_weights Samples.two_edges
      (list_to_map [("MeanExc", PyFloat 1); ("MeanInhib", PyFloat 2);
                    ("VarExc", PyFloat (1 # 2)); ("VarInhib", PyFloat 0)])
      2 1 Samples.counting_world
    = Ok (ws, advance (Z.to_N 2) Samples.counting_world) /\
    Z.of_nat (length ws) = 2 /\
    Forall nonnegative ws.
Proof.
  apply (proj1 (gaussian_weights_per_edge Samples.two_edges
                  (list_to_map [("MeanExc", PyFloat 1);
                                ("MeanInhib", PyFloat 2);
                                ("VarExc", PyFloat (1 # 2));
                                ("VarInhib", PyFloat 0)])
                  2 1 Samples.counting_world) 1%Q 2%Q (1 # 2)%Q 0%Q);
    try (vm_compute; reflexivity); try lia; by vm_compute.
Defined.

(** ** Log-normal weights *)

Lemma lognormal_draws m mean sigma size w :
  Np.is_neg sigma = false -> 0 <= size ->
  exists l, lognormal m mean sigma size w = Ok (l, advance (Z.to_N size) w) /\
            Z.of_nat (length l) = size.
Proof.
  intros Hneg Hsize. unfold lognormal.
  rewrite Hneg. destruct (Z.ltb_spec size 0); [lia|]. simpl.
  destruct (replicateM_draws
              (z ← Np.next_real;
               mret (Np.exp m (Np.Fin (mean + sigma * z)%Q)))
              (λ _, True) (Z.to_nat size)) with (w := w)
    as (l & Hl & Hlen & _).
  - intros w0. eexists. split; [reflexivity | done].
  - exists l. rewrite Z_nat_N in Hl. split; [done | lia].
Qed.

(** X21.  As the file has it, [lognormal_weights] cannot return
    weights: line 334 binds [rScaleinHib] and line 337 reads
    [rScaleInhib], a name nothing binds.  Whatever it is called with,
    the call raises; with its four parameters in the dictionary, a
    positive scale and a count of excitatory edges that is not
    negative, it gets as far as line 337 and raises [NameError] there,
    the excitatory weights drawn. *)
Theorem lognormal_weights_unbound_scale m graph dicProperties nEdges nExc w :
  (exists e,
      eval (lognormal_weights graph_connectivity m graph dicProperties
                              nEdges nExc) w
      = Raise e)
  /\
  (forall scaleExc locationExc scaleInhib locationInhib,
      number dicProperties "ScaleExc" w = Ok (scaleExc, w) ->
      number dicProperties "LocationExc" w = Ok (locationExc, w) ->
      number dicProperties "ScaleInhib" w = Ok (scaleInhib, w) ->
      number dicProperties "LocationInhib" w = Ok (locationInhib, w) ->
      (0 < scaleExc)%Q ->
      0 <= nExc ->
      eval (lognormal_weights graph_connectivity m graph dicProperties
                              nEdges nExc) w
      = Raise (NameError "rScaleInhib")).
Proof.
  split.
  - assert (H : exists e,
        lognormal_weights graph_connectivity m graph dicProperties
                          nEdges nExc w = Raise e).
    { unfold lognormal_weights.
      do 5 (apply bind_never; intros ? ? _).
      exists (NameError "rScaleInhib"). reflexivity. }
    destruct H as (e & He). exists e. by apply eval_Raise.
  - intros sE lE sI lI HsE HlE HsI HlI Hpos Hn. apply eval_Raise.
    assert (Hneg : Np.is_neg sE = false).
    { unfold Np.is_neg. apply Z.ltb_ge. unfold Qlt in Hpos. simpl in Hpos.
      lia. }
    destruct (lognormal_draws m lE sE nExc w Hneg Hn) as (l & Hl & _).
    unfold lognormal_weights.
    apply bind_Raise. right. exists sE, w. split; [done|].
    apply bind_Raise. right. exists lE, w. split; [done|].
    apply bind_Raise. right. exists sI, w. split; [done|].
    apply bind_Raise. right. exists lI, w. split; [done|].
    apply bind_Raise. right. eexists _, _. split; [exact Hl|].
    apply bind_Raise. left. reflexivity.
Qed.

Lemma lognormal_weights_unbound_scale_witness :
  eval (lognormal_weights graph_connectivity Samples.sample_libm
          Samples.two_edges Samples.lognormal_properties 2 1)
       Samples.counting_world
  = Raise (NameError "rScaleInhib").
Proof.
  apply (proj2 (lognormal_weights_unbound_scale Samples.sample_libm
                  Samples.two_edges Samples.lognormal_properties 2 1
                  Samples.counting_world) 1%Q 0%Q 1%Q 0%Q);
    (reflexivity || lia).
Defined.

(** The strategy registered under "Lognormal" is that function. *)
Example lognormal_strategy_unavailable :
  exists strategy,
    dicGenWeights graph_connectivity Samples.sample_libm "Lognormal"
    = Some strategy /\
    eval (strategy Samples.two_edges Samples.lognormal_properties 2 1)
         Samples.counting_world
    = Raise (NameError "rScaleInhib").
Proof. eexists. split; [reflexivity | vm_compute; reflexivity]. Qed.

(** ** How many edges a simple graph can have *)

Lemma no_parallel_NoDup l : no_parallel true l -> NoDup l.
Proof.
  induction l as [|e l IH]; [constructor|]. intros [Hhd Hnp].
  constructor; [|by apply IH]. intros Hin.
  rewrite Forall_forall in Hhd. apply (Hhd e Hin). by left.
Qed.

Lemma length_others (n x : Z) :
  0 <= x < n -> Z.of_nat (length (filter (λ y, y ≠ x) (seqZ 0 n))) = n - 1.
Proof.
  intros Hx. replace n with (x + (n - x)) at 1 by lia.
  rewrite seqZ_app by lia. rewrite Z.add_0_l, (seqZ_cons x) by lia.
  rewrite filter_app, filter_cons_False by (intros H; by apply H).
  rewrite !filter_all, length_app, !length_seqZ; [lia | |];
    intros y Hy; apply elem_of_seqZ in Hy; lia.
Qed.

Lemma length_bind_const {A B} (f : A -> list B) (k : nat) (l : list A) :
  (forall x, x ∈ l -> length (f x) = k) ->
  length (mbind (M := list) f l) = (length l * k)%nat.
Proof.
  induction l as [|x l IH]; intros Hf; [done|].
  rewrite bind_cons, length_app, IH, Hf; [simpl; lia | left |].
  intros y Hy. apply Hf. by right.
Qed.

Lemma length_ordered_pairs (n : Z) :
  0 <= n -> Z.of_nat (length (ordered_pairs n)) = n * (n - 1).
Proof.
  intros Hn. destruct (Z.eq_dec n 0) as [->|Hnz]; [done|].
  unfold ordered_pairs.
  rewrite (length_bind_const _ (Z.to_nat (n - 1))).
  - rewrite length_seqZ. nia.
  - intros x Hx. apply elem_of_seqZ in Hx. rewrite length_fmap.
    pose proof (length_others n x). lia.
Qed.

Lemma elem_of_ordered_pairs (n : Z) (e : Z * Z) :
  0 <= e.1 < n -> 0 <= e.2 < n -> e.1 ≠ e.2 -> e ∈ ordered_pairs n.
Proof.
  intros H1 H2 Hne. destruct e as [x y]. simpl in *. unfold ordered_pairs.
  apply list_elem_of_bind. exists x. split; [|apply elem_of_seqZ; lia].
  apply list_elem_of_fmap. exists y. split; [done|].
  apply list_elem_of_filter. split; [congruence | apply elem_of_seqZ; lia].
Qed.

Lemma NoDup_capacity (n : Z) (l : list (Z * Z)) :
  0 <= n ->
  Forall (λ e : Z * Z, 0 <= e.1 < n /\ 0 <= e.2 < n) l ->
  Forall (λ e : Z * Z, e.1 ≠ e.2) l ->
  NoDup l ->
  Z.of_nat (length l) <= n * (n - 1).
Proof.
  intros Hn Hrange Hloops Hnd.
  rewrite <- length_ordered_pairs by done. apply inj_le.
  apply submseteq_length, NoDup_submseteq; [done|].
  intros e He. rewrite Forall_forall in Hrange, Hloops.
  destruct (Hrange e He). apply elem_of_ordered_pairs; auto.
Qed.

Lemma no_parallel_reversed l x y :
  no_parallel false l -> x ∈ l -> y ∈ l -> x = (y.2, y.1) -> x.1 = x.2.
Proof.
  induction l as [|e l IH]; intros Hnp Hx Hy Heq.
  { by apply elem_of_nil in Hx. }
  destruct Hnp as [Hhd Hnp]. rewrite Forall_forall in Hhd.
  apply elem_of_cons in Hx as [->|Hx], Hy as [->|Hy].
  - destruct e as [s t]. simpl in *. by injection Heq.
  - exfalso. apply (Hhd y Hy). right. by split.
  - exfalso. apply (Hhd x Hx). right. split; [done|].
    destruct e as [s t], x as [s' t']. simpl in *. by injection Heq as -> ->.
  - by apply IH.
Qed.

(** A simple graph on vertices below [nodes] has at most
    [nodes * (nodes - 1)] edges, and half as many when undirected. *)
Lemma er_graph_capacity nodes E directed g :
  er_graph nodes E directed false g ->
  (if directed then 1 else 2) * num_edges g <= nodes * (nodes - 1).
Proof.
  intros (_ & HN & Hrange & Hloops & Hnp & _). specialize (Hnp eq_refl).
  assert (Hr : Forall (λ e : Z * Z, 0 <= e.1 < nodes /\ 0 <= e.2 < nodes)
                      (edge_list g)).
  { eapply Forall_impl; [exact Hrange|]. simpl. intros e. lia. }
  unfold num_edges. destruct directed.
  - rewrite Z.mul_1_l. apply NoDup_capacity; [lia | done | done |].
    by apply no_parallel_NoDup.
  - set (swap := λ e : Z * Z, (e.2, e.1)).
    assert (Hlen : 2 * Z.of_nat (length (edge_list g))
                   = Z.of_nat (length (edge_list g ++ (swap <$> edge_list g)))).
    { rewrite length_app, length_fmap. lia. }
    rewrite Hlen. apply NoDup_capacity; [lia | | |].
    + apply Forall_app. split; [done|]. apply Forall_fmap.
      eapply Forall_impl; [exact Hr|]. simpl. intros e. lia.
    + apply Forall_app. split; [done|]. apply Forall_fmap.
      eapply Forall_impl; [exact Hloops|]. simpl. intros e. congruence.
    + apply NoDup_app. split; [|split].
      * by apply no_parallel_NoDup, no_parallel_directed.
      * intros x Hx Hsw. apply list_elem_of_fmap in Hsw as (y & -> & Hy).
        rewrite Forall_forall in Hloops. apply (Hloops _ Hx).
        by eapply (no_parallel_reversed _ _ y Hnp Hx Hy).
      * apply NoDup_fmap_2; [|by apply no_parallel_NoDup, no_parallel_directed].
        intros [s t] [s' t'] [= -> ->]. done.
Qed.

(** ** [erdos_renyi] without reciprocity *)

(** X16.  Without a reciprocal phase (an undirected graph, or
    [reciprocity <= 0]), for at least one node and a target [E >= 0]:
    [erdos_renyi] returns, having moved nothing but the cursor of the
    generator; the graph has at most [nodes] vertices, every edge
    joins two of them, none is a self-loop, no two are parallel unless
    [multigraph] allows it, and there are at most [E] edges, exactly
    [E] unless the cap of [n_MAXTESTS] rounds was reached. *)
Theorem erdos_renyi_without_reciprocity ce nodes density edges avg_deg
    reciprocity directed multigraph w E :
  ce nodes density edges avg_deg = Ok E ->
  0 < nodes -> 0 <= E ->
  directed = false \/ (reciprocity <= 0)%Q ->
  exists st K,
    erdos_renyi_loops ce nodes density edges avg_deg reciprocity directed
                      multigraph w = Ok (st, advance K w) /\
    erdos_renyi ce nodes density edges avg_deg reciprocity directed
                multigraph w = Ok (graph_er st, advance K w) /\
    er_graph nodes E directed multigraph (graph_er st) /\
    (num_test st < n_MAXTESTS -> num_edges (graph_er st) = E).
Proof. exact (erdos_renyi_plain ce nodes density edges avg_deg reciprocity
                directed multigraph w E). Qed.

Lemma erdos_renyi_without_reciprocity_witness :
  exists st K,
    erdos_renyi_loops Samples.edges_as_given 3 (1 # 10) 1 (-1) (-1) true
                      false (world_of [0; 1] [] true)
    = Ok (st, advance K (world_of [0; 1] [] true)) /\
    erdos_renyi Samples.edges_as_given 3 (1 # 10) 1 (-1) (-1) true false
                (world_of [0; 1] [] true)
    = Ok (graph_er st, advance K (world_of [0; 1] [] true)) /\
    er_graph 3 1 true false (graph_er st) /\
    (num_test st < n_MAXTESTS -> num_edges (graph_er st) = 1).
Proof.
  apply (erdos_renyi_without_reciprocity Samples.edges_as_given 3 (1 # 10)%Q
           1 (-1)%Q (-1)%Q true false (world_of [0; 1] [] true) 1);
    [reflexivity | lia | lia | right; by vm_compute].
Defined.

Lemma erdos_renyi_loops_undirected ce nodes density edges avg_deg reciprocity
    multigraph w st w' E :
  ce nodes density edges avg_deg = Ok E ->
  erdos_renyi_loops ce nodes density edges avg_deg reciprocity false
                    multigraph w = Ok (st, w') ->
  pre_recip_edges st = PyInt E /\
  er_edges st = int_of_float (inject_Z E / 2).
Proof.
  intros Hce H. unfold erdos_renyi_loops in H.
  apply bind_Ok in H as (? & w0 & _ & H).
  apply bind_Ok in H as (E' & w1 & HE & H).
  apply lift_Ok in HE as [HE _]. rewrite Hce in HE. injection HE as <-.
  cbn [negb] in H.
  apply bind_Ok in H as ([E1 pre1] & w2 & Hpre & H).
  apply ret_Ok in Hpre as [[= -> ->] _].
  run_inv H. apply ret_Ok in H as [-> _]. done.
Qed.

(** X17.  Undirected graphs.  Line 62 halves [edges] for an
    undirected graph, but the loop of line 70 runs against
    [pre_recip_edges], which was set to the count that is not halved,
    and the halved one is read in the reciprocal phase only: the
    undirected graph returned has the full [E] edges (unless the cap
    was reached), not the half. *)
Theorem erdos_renyi_undirected_not_halved ce nodes density edges avg_deg
    reciprocity multigraph w E :
  ce nodes density edges avg_deg = Ok E ->
  0 < nodes -> 0 <= E ->
  exists st K,
    erdos_renyi_loops ce nodes density edges avg_deg reciprocity false
                      multigraph w = Ok (st, advance K w) /\
    erdos_renyi ce nodes density edges avg_deg reciprocity false multigraph w
    = Ok (graph_er st, advance K w) /\
    is_directed (graph_er st) = false /\
    er_edges st = int_of_float (inject_Z E / 2) /\
    pre_recip_edges st = PyInt E /\
    (num_test st < n_MAXTESTS -> num_edges (graph_er st) = E).
Proof.
  intros Hce Hnodes HE.
  destruct (erdos_renyi_plain ce nodes density edges avg_deg reciprocity
              false multigraph w E Hce Hnodes HE (or_introl eq_refl))
    as (st & K & Hloops & Hrun & Hg & Hexit).
  destruct (erdos_renyi_loops_undirected _ _ _ _ _ _ _ _ _ _ _ Hce Hloops)
    as [Hpre Hhalf].
  destruct Hg as (Hd & _). exists st, K. done.
Qed.

Lemma erdos_renyi_undirected_not_halved_witness :
  exists st K,
    erdos_renyi_loops Samples.edges_as_given 4 (1 # 10) 2 (-1) (-1) false
                      false (world_of [0; 1; 2; 3] [] true)
    = Ok (st, advance K (world_of [0; 1; 2; 3] [] true)) /\
    erdos_renyi Samples.edges_as_given 4 (1 # 10) 2 (-1) (-1) false false
                (world_of [0; 1; 2; 3] [] true)
    = Ok (graph_er st, advance K (world_of [0; 1; 2; 3] [] true)) /\
    is_directed (graph_er st) = false /\
    er_edges st = int_of_float (inject_Z 2 / 2) /\
    pre_recip_edges st = PyInt 2 /\
    (num_test st < n_MAXTESTS -> num_edges (graph_er st) = 2).
Proof.
  apply (erdos_renyi_undirected_not_halved Samples.edges_as_given 4
           (1 # 10)%Q 2 (-1)%Q (-1)%Q false
           (world_of [0; 1; 2; 3] [] true) 2); [reflexivity | lia | lia].
Defined.

(** X18.  Targets out of reach.  A simple graph on [nodes] vertices
    has at most [nodes * (nodes - 1)] edges, half as many when it is
    undirected.  Without reciprocity and with [multigraph] off, the
    graph [erdos_renyi] returns stays within that bound, and when the
    target [E] lies above it the loop runs until the cap of
    [n_MAXTESTS] rounds stops it and fewer than [E] edges are
    returned. *)
Theorem erdos_renyi_capacity ce nodes density edges avg_deg reciprocity
    directed w E :
  ce nodes density edges avg_deg = Ok E ->
  0 < nodes -> 0 <= E ->
  directed = false \/ (reciprocity <= 0)%Q ->
  exists st K,
    erdos_renyi ce nodes density edges avg_deg reciprocity directed false w
    = Ok (graph_er st, advance K w) /\
    erdos_renyi_loops ce nodes density edges avg_deg reciprocity directed
                      false w = Ok (st, advance K w) /\
    (if directed then 1 else 2) * num_edges (graph_er st)
    <= nodes * (nodes - 1) /\
    (nodes * (nodes - 1) < (if directed then 1 else 2) * E ->
     num_edges (graph_er st) < E /\ n_MAXTESTS <= num_test st).
Proof.
  intros Hce Hnodes HE Hplain.
  destruct (erdos_renyi_plain ce nodes density edges avg_deg reciprocity
              directed false w E Hce Hnodes HE Hplain)
    as (st & K & Hloops & Hrun & Hg & Hexit).
  pose proof (er_graph_capacity _ _ _ _ Hg) as Hcap.
  exists st, K. split; [done|]. split; [done|]. split; [done|].
  intros Hover.
  assert (Hless : num_edges (graph_er st) < E) by (destruct directed; lia).
  split; [done|].
  destruct (Z.lt_ge_cases (num_test st) n_MAXTESTS) as [Hlt|Hge]; [|done].
  specialize (Hexit Hlt). lia.
Qed.

Lemma erdos_renyi_capacity_witness :
  exists st K,
    erdos_renyi Samples.edges_as_given 2 (1 # 10) 3 (-1) (-1) true false
                Samples.counting_world
    = Ok (graph_er st, advance K Samples.counting_world) /\
    erdos_renyi_loops Samples.edges_as_given 2 (1 # 10) 3 (-1) (-1) true
                      false Samples.counting_world
    = Ok (st, advance K Samples.counting_world) /\
    1 * num_edges (graph_er st) <= 2 * (2 - 1) /\
    (2 * (2 - 1) < 1 * 3 ->
     num_edges (graph_er st) < 3 /\ n_MAXTESTS <= num_test st).
Proof.
  apply (erdos_renyi_capacity Samples.edges_as_given 2 (1 # 10)%Q 3 (-1)%Q
           (-1)%Q true Samples.counting_world 3);
    [reflexivity | lia | lia | right; by vm_compute].
Defined.

(** ** The [Graph] class *)

(** X19.  [Graph.from_matrix], lines 59-102.  A call that returns a
    graph was given a square matrix, a symmetric one if
    [directed=False], and, if [weighted] (the default), a sparse one:
    for a dense matrix the weights are read through the name [dges],
    which nothing binds, so that with the module as it is a dense
    matrix and [weighted=True] end on [NameError] once the graph is
    built and its edges are added. *)
Theorem from_matrix_returns names (instance : Type) cls add_edges set_weights
    name_for num_graphs a weighted directed :
  (forall graph : instance,
      Classes.from_matrix names instance cls add_edges set_weights name_for
                          num_graphs a weighted directed
      = Classes.Returns graph ->
      (Classes.shape a).1 = (Classes.shape a).2 /\
      (directed = false -> Classes.symmetric a = true) /\
      (weighted = true -> Classes.is_sparse a = false ->
       is_Some (Classes.global_dges names)))
  /\
  (forall graph graph',
      Classes.is_sparse a = false -> weighted = true ->
      (Classes.shape a).1 = (Classes.shape a).2 ->
      directed = true \/ Classes.symmetric a = true ->
      cls (Classes.shape a).1 (name_for num_graphs) weighted directed
      = Classes.Returns graph ->
      add_edges graph (Classes.nonzero a) = Classes.Returns graph' ->
      Classes.from_matrix Classes.graph_classes instance cls add_edges
                          set_weights name_for num_graphs a weighted directed
      = Classes.Raises (Classes.Interpreter (NameError "dges"))).
Proof.
  split.
  - intros graph H. unfold Classes.from_matrix in H.
    destruct (Z.eqb_spec (Classes.shape a).1 (Classes.shape a).2)
      as [Hsq|Hsq]; [|discriminate]. cbn [negb] in H.
    destruct directed, (Classes.symmetric a) eqn:Hsym; try discriminate;
      cbn [negb andb] in H; (split; [done|]); (split; [done|]);
      intros -> Hdense; rewrite Hdense in H;
      destruct (cls _ _ _ _); try discriminate; cbn in H;
      destruct (add_edges _ _); try discriminate; cbn in H;
      destruct (Classes.global_dges names); by eauto.
  - intros graph graph' Hdense -> Hsq Hsym Hcls Hadd.
    unfold Classes.from_matrix.
    destruct (Z.eqb_spec (Classes.shape a).1 (Classes.shape a).2);
      [|done]. cbn [negb].
    assert (Hcheck : negb directed && negb (Classes.symmetric a) = false).
    { destruct Hsym as [->| ->]; [done | by destruct directed]. }
    rewrite Hcheck, Hcls. cbn. rewrite Hadd. cbn. by rewrite Hdense.
Qed.

Lemma from_matrix_returns_witness :
  Classes.from_matrix Classes.graph_classes (list (Z * Z))
    ClassSamples.new_instance ClassSamples.append_edges
    ClassSamples.keep_weights ClassSamples.no_name 0
    ClassSamples.two_by_two true true
  = Classes.Raises (Classes.Interpreter (NameError "dges"))
  /\
  (Classes.shape ClassSamples.two_by_two).1
  = (Classes.shape ClassSamples.two_by_two).2.
Proof.
  split.
  - apply (proj2 (from_matrix_returns Classes.graph_classes (list (Z * Z))
                    ClassSamples.new_instance ClassSamples.append_edges
                    ClassSamples.keep_weights ClassSamples.no_name 0
                    ClassSamples.two_by_two true true)
                 [] [(0, 1); (1, 0)]);
      try reflexivity. by left.
  - eapply (proj1 (from_matrix_returns Classes.graph_classes (list (Z * Z))
                     ClassSamples.new_instance ClassSamples.append_edges
                     ClassSamples.keep_weights ClassSamples.no_name 0
                     ClassSamples.two_by_two false true)
                  [(0, 1); (1, 0)]).
    reflexivity.
Defined.

(** X20.  [Graph.get_degrees], lines 431-453.  The docstring
    promises [None] for a degree type other than "in", "out" and
    "total"; the branch builds its warning from the name [strType],
    which nothing binds.  With the module as it is, such a call raises
    [NameError], and a call that returns has returned the degrees,
    for one of the three types, without a warning. *)
Theorem get_degrees_never_none degree_list node_list deg_type use_weights :
  (deg_type ∉ ["in"; "out"; "total"] ->
   Classes.get_degrees Classes.graph_classes degree_list node_list deg_type
                       use_weights
   = Classes.Raises (Classes.Interpreter (NameError "strType")))
  /\
  (forall r warnings,
      Classes.get_degrees Classes.graph_classes degree_list node_list
                          deg_type use_weights
      = Classes.Returns (r, warnings) ->
      deg_type ∈ ["in"; "out"; "total"] /\
      warnings = [] /\
      exists degrees,
        r = Some degrees /\
        degree_list node_list deg_type use_weights = Classes.Returns degrees).
Proof.
  unfold Classes.get_degrees. split.
  - intros Hinvalid. by rewrite decide_False.
  - intros r warnings H. destruct (decide _) as [Hvalid|Hinvalid];
      [|discriminate].
    destruct (degree_list node_list deg_type use_weights) as [degrees|e];
      [|discriminate].
    injection H as <- <-. eauto.
Qed.

Lemma get_degrees_never_none_witness :
  Classes.get_degrees Classes.graph_classes ClassSamples.unit_degrees None
                      "both" true
  = Classes.Raises (Classes.Interpreter (NameError "strType"))
  /\
  "total" ∈ ["in"; "out"; "total"].
Proof.
  split.
  - apply (proj1 (get_degrees_never_none ClassSamples.unit_degrees None
                    "both" true)).
    intros H. repeat (apply elem_of_cons in H as [[=]|H]).
    by apply elem_of_nil in H.
  - eapply (proj2 (get_degrees_never_none ClassSamples.unit_degrees None
                     "total" true)).
    reflexivity.
Defined.
